(** * Nara-Chart: the client-side trend-analytics pipeline of TrendChart.jsx

    A shallow embedding of the data transformation chain of the
    [TrendChart] component (statistics, EMA and LOESS smoothing, forecast
    extrapolation, future-date generation and the [data] pipeline), and the
    properties its specification states about it.

    Conventions of the embedding.
    - A JavaScript number is an exact rational ([Q]) or [NaN]; rounding of
      binary64 arithmetic and the infinities are not modelled.
    - A JavaScript object used as a record is a [gmap string jsval]; reading
      an absent key gives [undefined].
    - A thrown exception is the [Throw] result of the [completion] type.
    - The time zone of the host is the function [LocalTZA] of ECMA-262: the
      offset of local time from UTC, in milliseconds, that is in force at a
      given instant or at a given local time, so that zones with daylight
      saving are covered; conversion of a string to a number is the host
      function [StringToNumber]. *)

From Stdlib Require Import ZArith QArith Qround Qabs Qminmax Lia Lqa List Ascii String.
From Stdlib Require Import DecimalString Sorted.
From stdpp Require Import base option list gmap strings.

Local Open Scope Z_scope.

(** ** JavaScript values *)

(** The values a field of a bid record can hold after JSON decoding. *)
Inductive jsval : Type :=
| JNull
| JUndefined
| JNaN
| JNum (q : Q)
| JStr (s : string).

(** A number: [None] is NaN. *)
Definition number : Type := option Q.

Definition of_number (x : number) : jsval :=
  match x with
  | Some q => JNum q
  | None => JNaN
  end.

Definition nmul (x y : number) : number :=
  match x, y with
  | Some a, Some b => Some (a * b)%Q
  | _, _ => None
  end.

Definition nadd (x y : number) : number :=
  match x, y with
  | Some a, Some b => Some (a + b)%Q
  | _, _ => None
  end.

Definition nsub (x y : number) : number :=
  match x, y with
  | Some a, Some b => Some (a - b)%Q
  | _, _ => None
  end.

(** Division; the divisors of this program are never zero where the
    quotient is used (a length, a positive weight sum, a count minus one). *)
Definition ndiv (x y : number) : number :=
  match x, y with
  | Some a, Some b => Some (a / b)%Q
  | _, _ => None
  end.

(** A record: a JavaScript object read and extended by key. *)
Abbreviation obj := (gmap string jsval).

(** [d[key]]: an absent property reads as [undefined]. *)
Definition get (d : obj) (key : string) : jsval :=
  default JUndefined (d !! key).

(** [typeof v === 'number' && !Number.isNaN(v)]. *)
Definition isStatNumber (v : jsval) : bool :=
  match v with
  | JNum _ => true
  | _ => false
  end.

(** The rational carried by a value that passed [isStatNumber]. *)
Definition numOf (v : jsval) : option Q :=
  match v with
  | JNum q => Some q
  | _ => None
  end.

(** ** Series statistics *)

Record fieldStats : Type := mkStats { avg : jsval; min : jsval; max : jsval }.

(** [values.reduce((a, b) => a + b, 0)]. *)
Definition reduceSum (values : list Q) : Q :=
  fold_left (fun a b => (a + b)%Q) values 0%Q.

(** [Math.min(...values)] and [Math.max(...values)] on a non-empty list. *)
Definition MathMin (v0 : Q) (values : list Q) : Q := fold_left Qmin values v0.
Definition MathMax (v0 : Q) (values : list Q) : Q := fold_left Qmax values v0.

(** The valid values of one field: [data.map(d => d[key]).filter(...)]. *)
Definition statValues (data : list obj) (key : string) : list Q :=
  omap numOf (List.filter isStatNumber (List.map (fun d => get d key) data)).

(** The body of the [forEach] callback of [computeStats] for one key. *)
Definition statsOf (data : list obj) (key : string) : fieldStats :=
  match statValues data key with
  | [] => mkStats JNull JNull JNull
  | v0 :: rest =>
      let values := v0 :: rest in
      let sum := reduceSum values in
      mkStats (JNum (sum / inject_Z (Z.of_nat (length values)))%Q)
              (JNum (MathMin v0 rest))
              (JNum (MathMax v0 rest))
  end.

(** [computeStats(data, keys)]: the [stats] object after the loop. *)
Definition computeStats (data : list obj) (keys : list string) : gmap string fieldStats :=
  fold_left (fun stats key => <[key := statsOf data key]> stats) keys ∅.

(** The statistics as the specification words them: the values of a field
    that are numbers other than NaN, in order, and their arithmetic mean. *)
Fixpoint numericValues (data : list obj) (key : string) : list Q :=
  match data with
  | [] => []
  | d :: rest =>
      match get d key with
      | JNum q => q :: numericValues rest key
      | JNull | JUndefined | JNaN | JStr _ => numericValues rest key
      end
  end.

Definition arithmeticMean (vs : list Q) : Q :=
  (foldr Qplus 0 vs / inject_Z (Z.of_nat (length vs)))%Q.

(** ** Calendar arithmetic of the Date object (ECMA-262, 21.4.1) *)

Definition msPerDay : Z := 86400000.

(** [Day(t)] and [TimeWithinDay(t)]. *)
Definition Day (t : Z) : Z := t / msPerDay.
Definition TimeWithinDay (t : Z) : Z := t mod msPerDay.

(** [DayFromYear(y)]: the day number of 1 January of year [y]. *)
Definition DayFromYear (y : Z) : Z :=
  365 * (y - 1970) + (y - 1969) / 4 - (y - 1901) / 100 + (y - 1601) / 400.

(** [InLeapYear]: 1 in a leap year, 0 otherwise. *)
Definition leapOf (y : Z) : Z :=
  if (y mod 4 =? 0) && (negb (y mod 100 =? 0) || (y mod 400 =? 0)) then 1 else 0.

Definition DaysInYear (y : Z) : Z := 365 + leapOf y.

(** [YearFromTime] on day numbers: the year [y] with
    [DayFromYear y <= d < DayFromYear (y + 1)], found from the estimate
    [1970 + 400 d / 146097], which is off by one year at most. *)
Definition YearFromDay (d : Z) : Z :=
  let y0 := 1970 + (400 * d) / 146097 in
  if d <? DayFromYear y0 then y0 - 1
  else if DayFromYear (y0 + 1) <=? d then y0 + 1
  else y0.

Definition DayWithinYear (d : Z) : Z := d - DayFromYear (YearFromDay d).

(** The day within the year on which month [m] (0 to 11) starts. *)
Definition monthStart (m leap : Z) : Z :=
  match m with
  | 0 => 0
  | 1 => 31
  | 2 => 59 + leap
  | 3 => 90 + leap
  | 4 => 120 + leap
  | 5 => 151 + leap
  | 6 => 181 + leap
  | 7 => 212 + leap
  | 8 => 243 + leap
  | 9 => 273 + leap
  | 10 => 304 + leap
  | _ => 334 + leap
  end.

(** [MonthFromTime] on day numbers: 0 is January. *)
Definition MonthFromDay (d : Z) : Z :=
  let leap := leapOf (YearFromDay d) in
  let w := DayWithinYear d in
  if w <? 31 then 0
  else if w <? 59 + leap then 1
  else if w <? 90 + leap then 2
  else if w <? 120 + leap then 3
  else if w <? 151 + leap then 4
  else if w <? 181 + leap then 5
  else if w <? 212 + leap then 6
  else if w <? 243 + leap then 7
  else if w <? 273 + leap then 8
  else if w <? 304 + leap then 9
  else if w <? 334 + leap then 10
  else 11.

(** [DateFromTime] on day numbers: the day of the month, from 1. *)
Definition DateFromDay (d : Z) : Z :=
  DayWithinYear d - monthStart (MonthFromDay d) (leapOf (YearFromDay d)) + 1.

(** [MakeDay(year, month, date)] on integers: months beyond 0..11 carry
    into the year, and a date beyond the month's length runs on into the
    following month. *)
Definition MakeDay (year month date : Z) : Z :=
  let ym := year + month / 12 in
  let mn := month mod 12 in
  DayFromYear ym + monthStart mn (leapOf ym) + date - 1.

(** [MakeDate(day, time)]. *)
Definition MakeDate (day time : Z) : Z := day * msPerDay + time.

(** A time value: [None] is NaN, the Invalid Date. *)
Definition timeValue : Type := option Z.

(** A time zone, as the function [LocalTZA(t, isUTC)] of ECMA-262: the
    offset of local time from UTC, in milliseconds, that is in force at
    the time value [t], which is read as UTC when [isUTC] is true and as
    local time when it is false. *)
Definition timeZone : Type := Z -> bool -> Z.

(** [TimeClip(t)]. *)
Definition TimeClip (t : Z) : timeValue :=
  if 8640000000000000 <? Z.abs t then None else Some t.

(** The number of days of month [m] (0 to 11) of year [y]. *)
Definition DaysInMonth (y m : Z) : Z :=
  if m =? 11 then 31
  else monthStart (m + 1) (leapOf y) - monthStart m (leapOf y).

(** *** Printing and reading decimal fields *)

Definition digitChar (n : Z) : ascii := ascii_of_nat (48 + Z.to_nat (n mod 10)).

(** [n] printed with [w] digits, zero padded. *)
Fixpoint padDigits (w : nat) (n : Z) : string :=
  match w with
  | O => EmptyString
  | S w' => (padDigits w' (n / 10) ++ String (digitChar n) EmptyString)%string
  end.

Definition digitOf (c : ascii) : option Z :=
  let n := Z.of_nat (nat_of_ascii c) in
  if (48 <=? n) && (n <=? 57) then Some (n - 48) else None.

(** The number written by a string of decimal digits. *)
Fixpoint readDigits (acc : Z) (s : string) : option Z :=
  match s with
  | EmptyString => Some acc
  | String c rest =>
      match digitOf c with
      | Some k => readDigits (10 * acc + k) rest
      | None => None
      end
  end.

(** The completion of a computation that may throw. *)
Inductive completion (A : Type) : Type :=
| Normal (a : A)
| Throw (e : string).
Arguments Normal {A} a.
Arguments Throw {A} e.

Definition bindC {A B : Type} (c : completion A) (k : A -> completion B) : completion B :=
  match c with
  | Normal a => k a
  | Throw e => Throw e
  end.

(** [callbackfn] applied to the elements from left to right, stopping at
    the first that throws. *)
Fixpoint mapC {A B : Type} (f : A -> completion B) (l : list A) : completion (list B) :=
  match l with
  | [] => Normal []
  | a :: rest =>
      bindC (f a) (fun b => bindC (mapC f rest) (fun bs => Normal (b :: bs)))
  end.

Definition rangeError : string := "RangeError: Invalid time value".

(** [Date.prototype.toISOString] on a time value: a RangeError on the
    Invalid Date; years outside 0..9999 print signed with six digits. *)
Definition toISOString (tv : timeValue) : completion string :=
  match tv with
  | None => Throw rangeError
  | Some t =>
      let d := Day t in
      let y := YearFromDay d in
      let w := TimeWithinDay t in
      let year :=
        if (0 <=? y) && (y <=? 9999) then padDigits 4 y
        else ((if (y <? 0)%Z then "-" else "+") ++ padDigits 6 (Z.abs y))%string in
      let month := padDigits 2 (MonthFromDay d + 1) in
      let date := padDigits 2 (DateFromDay d) in
      let hours := padDigits 2 (w / 3600000) in
      let minutes := padDigits 2 (w / 60000 mod 60) in
      let seconds := padDigits 2 (w / 1000 mod 60) in
      let millis := padDigits 3 (w mod 1000) in
      Normal (year ++ "-" ++ month ++ "-" ++ date ++ "T" ++ hours
                   ++ ":" ++ minutes ++ ":" ++ seconds ++ "." ++ millis ++ "Z")%string
  end.

(** [s.slice(0, 10)]. *)
Definition slice10 (s : string) : string := substring 0 10 s.

(** The string [YYYY-MM-DD] of a calendar date. *)
Definition isoDate (y m d : Z) : string :=
  (padDigits 4 y ++ "-" ++ padDigits 2 m ++ "-" ++ padDigits 2 d)%string.

(** The date [i] months after year [y], month [m] (1 to 12), day [dt]
    under the carry of [MakeDay]: the same day of the target month when
    that month has it, otherwise the day that many days past the end of
    the target month, in the month after it. *)
Definition rolledDate (y m dt i : Z) : string :=
  let y' := y + (m - 1 + i) / 12 in
  let m' := (m - 1 + i) mod 12 in
  if dt <=? DaysInMonth y' m' then isoDate y' (m' + 1) dt
  else isoDate y' (m' + 2) (dt - DaysInMonth y' m').

(** The date-only form [YYYY-MM-DD] of the ISO format, read as midnight
    UTC; every other string is left unparsed here. *)
Definition parseIsoDate (s : string) : option (Z * Z * Z) :=
  if negb (String.length s =? 10)%nat then None
  else
    match readDigits 0 (substring 0 4 s), readDigits 0 (substring 5 2 s),
          readDigits 0 (substring 8 2 s) with
    | Some y, Some m, Some d =>
        if String.eqb (substring 4 1 s) "-" && String.eqb (substring 7 1 s) "-"
           && (1 <=? m) && (m <=? 12) && (1 <=? d) && (d <=? DaysInMonth y (m - 1))
        then Some (y, m, d) else None
    | _, _, _ => None
    end.

(** A [Date.parse] that reads the date-only ISO form and nothing else. *)
Definition isoDateOnly (s : string) : timeValue :=
  match parseIsoDate s with
  | Some (y, m, d) => Some (MakeDate (MakeDay y (m - 1) d) 0)
  | None => None
  end.

(** ** A sample host and sample records *)

(** A [StringToNumber] for strings of decimal digits (the empty string
    is 0); other strings are NaN here. *)
Definition digitsToNumber (s : string) : number :=
  match readDigits 0 s with
  | Some z => Some (inject_Z z)
  | None => None
  end.

(** A [NumberToString] that is exact on NaN and on the integers. *)
Definition integerToString (x : number) : string :=
  match x with
  | None => "NaN"
  | Some q => NilZero.string_of_int (Z.to_int (Qfloor q))
  end.

(** A host with a fixed offset from UTC, and UTC itself. *)
Definition fixedZone (offset : Z) : timeZone := fun _ _ => offset.

Definition utcZone : timeZone := fixedZone 0.

(** Central European time in 2024: one hour east of UTC, and two hours
    from 31 March 01:00 UTC to 27 October 01:00 UTC. A local time in the
    hour skipped in March is read with the offset before the change, one
    in the hour repeated in October as its first occurrence. *)
Definition centralEurope2024 : timeZone := fun t isUTC =>
  let start := MakeDate (MakeDay 2024 2 31) 3600000 in
  let stop := MakeDate (MakeDay 2024 9 27) 3600000 in
  if isUTC then
    if (start <=? t) && (t <? stop) then 7200000 else 3600000
  else
    if (start + 7200000 <=? t) && (t <? stop + 7200000) then 7200000 else 3600000.

(** A record with a bid date and a winning price. *)
Definition bid (date : string) (winningPrice : jsval) : obj :=
  <["낙찰금액" := winningPrice]> (<["입찰일" := JStr date]> ∅).

Definition winningKey : string := "낙찰금액".

(** Three bids, the second without a winning price. *)
Definition gapSeries : list obj :=
  [bid "2024-01-01" (JNum 10); bid "2024-01-02" JNull; bid "2024-01-03" (JNum 20)].

(** Two bids, the last without a winning price. *)
Definition endGapSeries : list obj :=
  [bid "2024-01-01" (JNum 100); bid "2024-01-02" JNull].

(** A bid whose date no host parses. *)
Definition undatedBid : obj := bid "not-a-date" (JNum 1).

(** A record with a bid date and the two ratios. *)
Definition rated (date : string) (baseRatio estimatedRatio : jsval) : obj :=
  <["추정/낙찰" := estimatedRatio]>
    (<["기초/낙찰" := baseRatio]> (<["입찰일" := JStr date]> ∅)).

(** Three bids with ratios, the second without a base ratio and the
    third without an estimate ratio. *)
Definition ratioSeries : list obj :=
  [rated "2024-01-01" (JNum (7 # 8)) (JNum (9 # 8));
   rated "2024-01-02" JNull (JNum 1);
   rated "2024-01-03" (JNum (5 # 4)) JUndefined].

(** ** Smoothing *)

Section Host.

Set Default Proof Using "Type".

(** The host's conversion of a string to a number ([None] is NaN). *)
Variable StringToNumber : string -> number.

(** The host's conversion of a number to a string. *)
Variable NumberToString : number -> string.

(** The host's [Date.parse] ([None] is NaN). *)
Variable DateParse : string -> timeValue.

(** The host's time zone. *)
Variable LocalTZA : timeZone.

(** [ToNumber(v)] for the values of [jsval]. *)
Definition ToNumber (v : jsval) : number :=
  match v with
  | JNull => Some 0%Q
  | JUndefined => None
  | JNaN => None
  | JNum q => Some q
  | JStr s => StringToNumber s
  end.

(** [v == null]: true of [null] and [undefined] only. *)
Definition looseNull (v : jsval) : bool :=
  match v with
  | JNull | JUndefined => true
  | _ => false
  end.

(** The global [isNaN(v)], which converts its argument first. *)
Definition isNaN (v : jsval) : bool :=
  match ToNumber v with
  | None => true
  | Some _ => false
  end.

(** The guard [value == null || isNaN(value)] of both smoothers. *)
Definition missing (v : jsval) : bool := looseNull v || isNaN v.

(** [ema === null]. *)
Definition strictNull (v : jsval) : bool :=
  match v with
  | JNull => true
  | _ => false
  end.

(** One call of the [map] callback of [calculateEMA]: the element it
    returns and the new content of the captured variable [ema]. *)
Definition emaStep (alpha : Q) (key : string) (ema : jsval) (d : obj) : jsval * jsval :=
  let value := get d key in
  if missing value then (JNull, ema)
  else
    let ema' :=
      if strictNull ema then value
      else of_number (nadd (nmul (Some alpha) (ToNumber value))
                           (nmul (Some (1 - alpha)%Q) (ToNumber ema))) in
    (ema', ema').

(** The [map] of [calculateEMA], threading [ema] from left to right. *)
Fixpoint emaLoop (alpha : Q) (key : string) (ema : jsval) (data : list obj) : list jsval :=
  match data with
  | [] => []
  | d :: rest =>
      let '(out, ema') := emaStep alpha key ema d in
      out :: emaLoop alpha key ema' rest
  end.

(** [calculateEMA(data, key, span)]. *)
Definition calculateEMA (data : list obj) (key : string) (span : Q) : list jsval :=
  let alpha := (2 / (span + 1))%Q in
  emaLoop alpha key JNull data.

(** The running average as the specification words it: the last output
    that is not null among those already produced, if any. *)
Definition lastNonNull (outs : list jsval) : option jsval :=
  last (List.filter (fun o => negb (strictNull o)) outs).

(** [Math.max(3, Math.floor(n * bandwidth))]. *)
Definition windowSizeOf (n : Z) (bandwidth : Q) : Z :=
  Z.max 3 (Qfloor (inject_Z n * bandwidth)).

(** [Math.pow(1 - Math.pow(distance, 3), 3)] with
    [distance = Math.abs(i - j) / windowSize]. *)
Definition tricube (windowSize i j : Z) : Q :=
  let distance := (inject_Z (Z.abs (i - j)) / inject_Z windowSize)%Q in
  ((1 - distance ^ 3) ^ 3)%Q.

(** The body of the inner [for] loop of [calculateLOESS] at index [j],
    on the accumulators [(weightedSum, weightSum)]. *)
Definition loessAcc (values : list jsval) (windowSize i : Z)
    (acc : number * Q) (j : Z) : number * Q :=
  let vj := default JUndefined (values !! Z.to_nat j) in
  if missing vj then acc
  else
    let weight := tricube windowSize i j in
    (nadd (fst acc) (nmul (Some weight) (ToNumber vj)), (snd acc + weight)%Q).

(** [weightSum > 0]. *)
Definition Qpositive (q : Q) : bool :=
  match (0 ?= q)%Q with
  | Lt => true
  | _ => false
  end.

(** The body of the outer [for] loop of [calculateLOESS]: the element
    pushed for index [i]. *)
Definition loessAt (values : list jsval) (bandwidth : Q) (i : Z) : jsval :=
  let n := Z.of_nat (length values) in
  let value := default JUndefined (values !! Z.to_nat i) in
  if missing value then JNull
  else
    let windowSize := windowSizeOf n bandwidth in
    let start := Z.max 0 (i - windowSize / 2) in
    let end_ := Z.min n (start + windowSize) in
    let '(weightedSum, weightSum) :=
      fold_left (loessAcc values windowSize i) (seqZ start (end_ - start))
                (Some 0%Q, 0%Q) in
    if Qpositive weightSum then of_number (ndiv weightedSum (Some weightSum))
    else JNull.

(** [calculateLOESS(data, key, bandwidth)]. *)
Definition calculateLOESS (data : list obj) (key : string) (bandwidth : Q) : list jsval :=
  let values := List.map (fun d => get d key) data in
  List.map (loessAt values bandwidth) (seqZ 0 (Z.of_nat (length values))).

(** The smoothed value as the specification words it: over the indices
    of the array that lie in the window of [windowSize] indices from
    [max(0, i - floor(windowSize / 2))] and hold a valid value, the
    tricube-weighted sum of the values divided by the sum of the weights. *)
Definition valueAt (values : list jsval) (j : Z) : jsval :=
  default JUndefined (values !! Z.to_nat j).

Definition loessWindow (values : list jsval) (bandwidth : Q) (i : Z) : list Z :=
  let n := Z.of_nat (length values) in
  let windowSize := windowSizeOf n bandwidth in
  let start := Z.max 0 (i - windowSize / 2) in
  List.filter (fun j => (start <=? j) && (j <? start + windowSize)
                        && negb (missing (valueAt values j)))
              (seqZ 0 n).

Definition weightSumOf (values : list jsval) (bandwidth : Q) (i : Z) : Q :=
  let windowSize := windowSizeOf (Z.of_nat (length values)) bandwidth in
  foldr (fun j acc => tricube windowSize i j + acc)%Q 0%Q
        (loessWindow values bandwidth i).

Definition weightedSumOf (values : list jsval) (bandwidth : Q) (i : Z) : Q :=
  let windowSize := windowSizeOf (Z.of_nat (length values)) bandwidth in
  foldr (fun j acc => tricube windowSize i j
                      * default 0%Q (ToNumber (valueAt values j)) + acc)%Q 0%Q
        (loessWindow values bandwidth i).

Definition weightedAverage (values : list jsval) (bandwidth : Q) (i : Z) : Q :=
  (weightedSumOf values bandwidth i / weightSumOf values bandwidth i)%Q.

(** ** Forecast values *)

(** [Array(months).fill(x)]. *)
Definition fill (months : nat) (x : jsval) : list jsval := replicate months x.

(** [predictEMA(lastEMA, months)]. *)
Definition predictEMA (lastEMA : jsval) (months : nat) : list jsval :=
  fill months lastEMA.

(** [v != null && !isNaN(v)]. *)
Definition valid (v : jsval) : bool := negb (looseNull v) && negb (isNaN v).

(** Truthiness of a value, for [x || null]. *)
Definition truthy (v : jsval) : bool :=
  match v with
  | JNull | JUndefined | JNaN => false
  | JNum q => negb (Qeq_bool q 0)
  | JStr s => negb (String.eqb s EmptyString)
  end.

(** [a[a.length - 1]]: [undefined] on the empty array. *)
Definition lastElem (a : list jsval) : jsval := default JUndefined (last a).

(** [recentValues = validValues.slice(-lastN)]. *)
Definition sliceLast (lastN : nat) (a : list jsval) : list jsval :=
  drop (length a - lastN)%nat a.

(** [a + x] where [x] is a number: concatenation when [a] is a string,
    numeric addition otherwise. *)
Definition jsPlus (a : jsval) (x : number) : jsval :=
  match a with
  | JStr s => JStr (s ++ NumberToString x)
  | _ => of_number (nadd (ToNumber a) x)
  end.

(** [predictLOESS(loessValues, months)]. *)
Definition predictLOESS (loessValues : list jsval) (months : nat) : list jsval :=
  let validValues := List.filter valid loessValues in
  if (length validValues <? 2)%nat then
    let x := lastElem validValues in
    fill months (if truthy x then x else JNull)
  else
    let lastN := Nat.min 5 (length validValues) in
    let recentValues := sliceLast lastN validValues in
    let slope :=
      ndiv (nsub (ToNumber (lastElem recentValues))
                 (ToNumber (default JUndefined (head recentValues))))
           (Some (inject_Z (Z.of_nat lastN - 1))) in
    let lastValue := lastElem validValues in
    List.map (fun i => jsPlus lastValue (nmul slope (Some (inject_Z (Z.of_nat i)))))
             (seq 1 months).

(** ** Dates *)

(** [ToIntegerOrInfinity] on a finite number: rounding towards zero. *)
Definition truncate (q : Q) : Z :=
  if Qle_bool 0 q then Qfloor q else Qceiling q.

(** [new Date(v)]: a string is parsed, any other value is converted to a
    number and clipped. *)
Definition newDate (v : jsval) : timeValue :=
  match v with
  | JStr s => DateParse s
  | _ =>
      match ToNumber v with
      | None => None
      | Some q =>
          if Qle_bool (Qabs q) (inject_Z 8640000000000000)
          then Some (truncate q) else None
      end
  end.

(** [formatDate(iso) = new Date(iso).toISOString().slice(0, 10)]. *)
Definition formatDate (iso : jsval) : completion string :=
  bindC (toISOString (newDate iso)) (fun s => Normal (slice10 s)).

(** [LocalTime(t)]: the local time value of the instant [t]. *)
Definition LocalTime (t : Z) : Z := t + LocalTZA t true.

(** [UTC(t)]: the instant of the local time value [t]. *)
Definition UTC (t : Z) : Z := t - LocalTZA t false.

(** [futureDate.setMonth(futureDate.getMonth() + i)] on the time value of
    [futureDate]: the month is advanced in local time, the day of the
    month and the time within the day are kept, [MakeDay] carries, and the
    local time built this way is taken back to UTC with the offset in
    force at that local time. *)
Definition setMonthPlus (tv : timeValue) (i : Z) : timeValue :=
  match tv with
  | None => None
  | Some t =>
      let lt := LocalTime t in
      let d := Day lt in
      let m := MonthFromDay d + i in
      TimeClip (UTC (MakeDate (MakeDay (YearFromDay d) m (DateFromDay d))
                              (TimeWithinDay lt)))
  end.

(** [generateFutureDates(lastDate, months)]. *)
Definition generateFutureDates (lastDate : jsval) (months : nat) : completion (list string) :=
  let last := newDate lastDate in
  mapC (fun i => bindC (toISOString (setMonthPlus last (Z.of_nat i)))
                       (fun s => Normal (slice10 s)))
       (seq 1 months).

(** The local time value [setMonth] builds when midnight UTC of day [dt]
    of month [m] (1 to 12) of year [y] is advanced by [i] months: the day
    [MakeDay] gives, at the local time of day of the date advanced. *)
Definition monthTarget (y m dt i : Z) : Z :=
  MakeDate (MakeDay y (m - 1 + i) dt)
           (LocalTZA (MakeDate (MakeDay y (m - 1) dt) 0) true).

(** ** The trend pipeline: the [data] memo of [TrendChart] *)

Inductive chartMode : Type := amount | ratio.

Definition dateKey : string := "입찰일".
Definition amountKeys : list string := ["추정가격"; "기초금액"; "낙찰금액"].
Definition ratioKeys : list string := ["기초/낙찰"; "추정/낙찰"].

(** The comparator [(a, b) => new Date(a[dateKey]) - new Date(b[dateKey])];
    a NaN result is read as 0 by [sort]. *)
Definition compareDates (a b : obj) : Z :=
  match newDate (get a dateKey), newDate (get b dateKey) with
  | Some x, Some y => x - y
  | _, _ => 0
  end.

(** [Array.prototype.sort] is stable; with a consistent comparator every
    stable sort gives the same array, here insertion from the right. When
    some date is invalid the comparator is not consistent and the order is
    left to the host, but then the filter below throws whatever the order. *)
Fixpoint insertSorted (x : obj) (l : list obj) : list obj :=
  match l with
  | [] => [x]
  | y :: l' => if compareDates x y <=? 0 then x :: y :: l' else y :: insertSorted x l'
  end.

Definition sortByDate (rawData : list obj) : list obj :=
  foldr insertSorted [] rawData.

(** Truthiness of a string bound: the empty string is no bound. *)
Definition isSet (bound : string) : bool := negb (String.eqb bound EmptyString).

(** The callback of [sorted.filter]. *)
Definition inWindow (dateFrom dateTo : string) (d : obj) : completion bool :=
  bindC (formatDate (get d dateKey)) (fun iso =>
    if isSet dateFrom && String.ltb iso dateFrom then Normal false
    else if isSet dateTo && String.ltb dateTo iso then Normal false
    else Normal true).

(** [Array.prototype.filter] with a callback that may throw. *)
Fixpoint filterC {A : Type} (f : A -> completion bool) (l : list A) : completion (list A) :=
  match l with
  | [] => Normal []
  | a :: rest =>
      bindC (f a) (fun keep =>
        bindC (filterC f rest) (fun kept =>
          Normal (if keep then a :: kept else kept)))
  end.

(** [toPercent(value)]. *)
Definition toPercent (value : jsval) : jsval :=
  if looseNull value then JNull
  else of_number (nmul (ToNumber value) (Some 100%Q)).

(** The ratio-mode copy of a record. *)
Definition percentRecord (d : obj) : obj :=
  <["추정/낙찰" := toPercent (get d "추정/낙찰")]>
    (<["기초/낙찰" := toPercent (get d "기초/낙찰")]> d).

(** [processedData.map((d, i) => ({ ...d, [name]: series[i] }))]. *)
Definition attach (name : string) (series : list jsval) (processedData : list obj) : list obj :=
  imap (fun i d => <[name := default JUndefined (series !! i)]> d) processedData.

Definition emaName (key : string) : string := (key ++ "_EMA")%string.
Definition loessName (key : string) : string := (key ++ "_LOESS")%string.

(** The variables the smoothing loop updates. *)
Record smoothState : Type := mkSmooth {
  processedData : list obj;
  emaByKey : gmap string (list jsval);
  loessByKey : gmap string (list jsval)
}.

(** The body of [keysToProcess.forEach] in the smoothing loop. *)
Definition smoothKey (showEMA showLOESS : bool) (st : smoothState) (key : string) : smoothState :=
  let st1 :=
    if showEMA then
      let emaValues := calculateEMA (processedData st) key 10 in
      mkSmooth (attach (emaName key) emaValues (processedData st))
               (<[key := emaValues]> (emaByKey st)) (loessByKey st)
    else st in
  if showLOESS then
    let loessValues := calculateLOESS (processedData st1) key (3 # 10) in
    mkSmooth (attach (loessName key) loessValues (processedData st1))
             (emaByKey st1) (<[key := loessValues]> (loessByKey st1))
  else st1.

(** The object literal every future point starts from. *)
Definition emptyFuturePoint (futureDate : string) : obj :=
  <["추정/낙찰" := JNull]> (<["기초/낙찰" := JNull]> (<["낙찰금액" := JNull]>
    (<["기초금액" := JNull]> (<["추정가격" := JNull]> (<[dateKey := JStr futureDate]> ∅))))).

(** The body of [keysToProcess.forEach] in the forecast loop. *)
Definition forecastKey (showEMA showLOESS : bool) (st : smoothState) (idx : nat)
    (futurePoint : obj) (key : string) : obj :=
  let p1 :=
    match emaByKey st !! key with
    | Some emaValues =>
        if showEMA then
          let lastEMA := lastElem emaValues in
          let predictions := predictEMA lastEMA 3 in
          <[emaName key := default JUndefined (predictions !! idx)]> futurePoint
        else futurePoint
    | None => futurePoint
    end in
  match loessByKey st !! key with
  | Some loessValues =>
      if showLOESS then
        let predictions := predictLOESS loessValues 3 in
        <[loessName key := default JUndefined (predictions !! idx)]> p1
      else p1
  | None => p1
  end.

(** The point pushed for [futureDate] at position [idx]. *)
Definition futurePointOf (showEMA showLOESS : bool) (keysToProcess : list string)
    (st : smoothState) (idx : nat) (futureDate : string) : obj :=
  fold_left (forecastKey showEMA showLOESS st idx) keysToProcess
            (emptyFuturePoint futureDate).

(** The [data] memo of [TrendChart]: the chart points, or the exception
    the computation ends with. *)
Definition trendData (rawData : list obj) (dateFrom dateTo : string) (mode : chartMode)
    (showEMA showLOESS : bool) : completion (list obj) :=
  let sorted := sortByDate rawData in
  bindC (filterC (inWindow dateFrom dateTo) sorted) (fun filtered =>
    let processed0 :=
      match mode with
      | amount => filtered
      | ratio => List.map percentRecord filtered
      end in
    let keysToProcess := match mode with amount => amountKeys | ratio => ratioKeys end in
    let st := fold_left (smoothKey showEMA showLOESS) keysToProcess
                        (mkSmooth processed0 ∅ ∅) in
    if (showEMA || showLOESS) && (0 <? length (processedData st))%nat then
      let lastDate := get (default ∅ (last (processedData st))) dateKey in
      bindC (generateFutureDates lastDate 3) (fun futureDates =>
        Normal (processedData st
                  ++ imap (futurePointOf showEMA showLOESS keysToProcess st) futureDates))
    else Normal (processedData st)).

(** The values of one field down the points of a result. *)
Definition column (key : string) (result : completion (list obj)) : completion (list jsval) :=
  bindC result (fun points => Normal (List.map (fun p => get p key) points)).

(** ** The pipeline on a store of arrays

    The arrays of the memo are JavaScript objects: [rawData] is shared
    with the caller, [sort] and [push] update an array in place, and
    [filter], [map] and the spread copy allocate. The records themselves
    are only read and copied. The store maps the location of an array to
    its content. *)

Definition loc : Type := nat.
Abbreviation store := (gmap loc (list obj)).

(** A computation on the store; the store outlives an exception. *)
Definition M (A : Type) : Type := store -> completion A * store.

Definition retM {A : Type} (a : A) : M A := fun h => (Normal a, h).

Definition bindM {A B : Type} (m : M A) (k : A -> M B) : M B :=
  fun h =>
    match m h with
    | (Normal a, h') => k a h'
    | (Throw e, h') => (Throw e, h')
    end.

Definition liftC {A : Type} (c : completion A) : M A := fun h => (c, h).

(** A new array with the given content. *)
Definition allocArray (a : list obj) : M loc :=
  fun h => let l := fresh (dom h) in (Normal l, <[l := a]> h).

Definition readArray (l : loc) : M (list obj) :=
  fun h => (Normal (default [] (h !! l)), h).

(** An update in place. *)
Definition writeArray (l : loc) (a : list obj) : M unit :=
  fun h => (Normal tt, <[l := a]> h).

(** [keys.forEach] with a body that updates loop variables of type [V]. *)
Fixpoint forEachM {V K : Type} (body : V -> K -> M V) (keys : list K) (s : V) : M V :=
  match keys with
  | [] => retM s
  | k :: rest => bindM (body s k) (forEachM body rest)
  end.

(** The variables of the smoothing loop, [processedData] by reference. *)
Record smoothRefs : Type := mkRefs {
  processedRef : loc;
  emaByKeyR : gmap string (list jsval);
  loessByKeyR : gmap string (list jsval)
}.

(** The body of the smoothing loop: each [map] allocates the array that
    [processedData] is then bound to. *)
Definition smoothKeyM (showEMA showLOESS : bool) (st : smoothRefs) (key : string)
    : M smoothRefs :=
  bindM (if showEMA then
           bindM (readArray (processedRef st)) (fun p =>
             let emaValues := calculateEMA p key 10 in
             bindM (allocArray (attach (emaName key) emaValues p)) (fun r =>
               retM (mkRefs r (<[key := emaValues]> (emaByKeyR st)) (loessByKeyR st))))
         else retM st)
    (fun st1 =>
       if showLOESS then
         bindM (readArray (processedRef st1)) (fun p =>
           let loessValues := calculateLOESS p key (3 # 10) in
           bindM (allocArray (attach (loessName key) loessValues p)) (fun r =>
             retM (mkRefs r (emaByKeyR st1) (<[key := loessValues]> (loessByKeyR st1)))))
       else retM st1).

(** [processedData.push(futurePoint)]. *)
Definition pushM (r : loc) (x : obj) : M unit :=
  bindM (readArray r) (fun p => writeArray r (p ++ [x])).

(** The body of [futureDates.forEach]; the loop variable is the index. *)
Definition pushFutureM (showEMA showLOESS : bool) (keysToProcess : list string)
    (st : smoothRefs) (idx : nat) (futureDate : string) : M nat :=
  let view := mkSmooth [] (emaByKeyR st) (loessByKeyR st) in
  bindM (pushM (processedRef st)
           (futurePointOf showEMA showLOESS keysToProcess view idx futureDate))
        (fun _ => retM (S idx)).

(** The [data] memo, run on the store holding [rawData]; the result is
    the location of the array it returns. *)
Definition trendDataM (rawData : loc) (dateFrom dateTo : string) (mode : chartMode)
    (showEMA showLOESS : bool) : M loc :=
  bindM (readArray rawData) (fun raw =>
  bindM (allocArray raw) (fun sorted =>
  bindM (readArray sorted) (fun s =>
  bindM (writeArray sorted (sortByDate s)) (fun _ =>
  bindM (readArray sorted) (fun s' =>
  bindM (liftC (filterC (inWindow dateFrom dateTo) s')) (fun kept =>
  bindM (allocArray kept) (fun filtered =>
  bindM (match mode with
         | amount => retM filtered
         | ratio => bindM (readArray filtered) (fun f =>
                      allocArray (List.map percentRecord f))
         end) (fun processed0 =>
  let keysToProcess := match mode with amount => amountKeys | ratio => ratioKeys end in
  bindM (forEachM (smoothKeyM showEMA showLOESS) keysToProcess
                  (mkRefs processed0 ∅ ∅)) (fun st =>
  bindM (readArray (processedRef st)) (fun p =>
  if (showEMA || showLOESS) && (0 <? length p)%nat then
    let lastDate := get (default ∅ (last p)) dateKey in
    bindM (liftC (generateFutureDates lastDate 3)) (fun futureDates =>
    bindM (forEachM (pushFutureM showEMA showLOESS keysToProcess st) futureDates 0%nat)
          (fun _ => retM (processedRef st)))
  else retM (processedRef st))))))))))).

(** The order the comparator induces on records with valid dates. *)
Definition notAfter (a b : obj) : Prop :=
  exists ta tb, newDate (get a dateKey) = Some ta /\
                newDate (get b dateKey) = Some tb /\ ta <= tb.

(** ** The earlier component

    The [data] memo of the first [TrendChart]
    (src/frontend/app/src/components/TrendChart.jsx), which sorts, filters
    and converts to percent and knows no smoothing. *)
Definition trendDataBasic (rawData : list obj) (dateFrom dateTo : string)
    (mode : chartMode) : completion (list obj) :=
  let sorted := sortByDate rawData in
  bindC (filterC (inWindow dateFrom dateTo) sorted) (fun filtered =>
    match mode with
    | amount => Normal filtered
    | ratio => Normal (List.map percentRecord filtered)
    end).

(** The fields of a bid record: the date and the five value fields. *)
Definition originalKeys : list string := dateKey :: amountKeys ++ ratioKeys.

(** Two records agree on the fields selected by [K]. *)
Definition sameOn (K : string -> Prop) (d d' : obj) : Prop :=
  forall k, K k -> get d' k = get d k.

(** A field name that is no derived name of one of the [keys]. *)
Definition underived (keys : list string) (k : string) : Prop :=
  forall key, key ∈ keys -> k <> emaName key /\ k <> loessName key.

(** ** The visible fields and their statistics *)

(** The [checked] state: one boolean per field name; a field never set
    reads as [undefined], which is falsy. *)
Definition isChecked (checked : gmap string bool) (k : string) : bool :=
  default false (checked !! k).

(** The update of the checkbox handler,
    [setChecked(prev => ({ ...prev, [k]: !prev[k] }))]. *)
Definition toggleChecked (k : string) (checked : gmap string bool) : gmap string bool :=
  <[k := negb (isChecked checked k)]> checked.

(** [visibleKeys]: the fields of the mode that are checked. *)
Definition visibleKeys (mode : chartMode) (checked : gmap string bool) : list string :=
  List.filter (isChecked checked)
              (match mode with amount => amountKeys | ratio => ratioKeys end).

(** [stats = computeStats(data, visibleKeys)]. *)
Definition chartStats (data : list obj) (mode : chartMode) (checked : gmap string bool)
    : gmap string fieldStats :=
  computeStats data (visibleKeys mode checked).

(** The string [YYYY-MM-DD] of the day with number [D]. *)
Definition isoOfDay (D : Z) : string :=
  isoDate (YearFromDay D) (MonthFromDay D + 1) (DateFromDay D).

(** ** The wire record (api/bids.js) *)

(** [v ?? null]. *)
Definition orNull (v : jsval) : jsval := if looseNull v then JNull else v.

(** The value fields of a chart record and the wire fields they are read
    from. *)
Definition wireFields : list (string * string) :=
  [("추정가격", "estimated_price"); ("기초금액", "base_price");
   ("낙찰금액", "winning_price"); ("기초/낙찰", "base_winning_rate");
   ("추정/낙찰", "estimated_winning_rate")]%string.

(** [mapBidToTrendItem(b)]. *)
Definition mapBidToTrendItem (b : obj) : obj :=
  <["추정/낙찰" := orNull (get b "estimated_winning_rate")]>
  (<["기초/낙찰" := orNull (get b "base_winning_rate")]>
  (<["낙찰금액" := orNull (get b "winning_price")]>
  (<["기초금액" := orNull (get b "base_price")]>
  (<["추정가격" := orNull (get b "estimated_price")]>
  (<["입찰일" := get b "bid_date"]> ∅))))).

(** The derived names of a list of keys do not collide. *)
Definition distinctNames (keys : list string) : Prop :=
  forall key key', key ∈ keys -> key' ∈ keys ->
    emaName key <> loessName key' /\
    (key <> key' -> emaName key <> emaName key' /\ loessName key <> loessName key').

(** * Properties *)

(** ** Series statistics *)

Lemma computeStats_fold (data : list obj) (keys : list string)
    (acc : gmap string fieldStats) (key : string) :
  fold_left (fun stats k => <[k := statsOf data k]> stats) keys acc !! key
  = if decide (key ∈ keys) then Some (statsOf data key) else acc !! key.
Proof.
  revert acc. induction keys as [|k keys IH]; intros acc; simpl.
  - destruct (decide (key ∈ [])) as [Hin|_]; [|done].
    by apply elem_of_nil in Hin.
  - rewrite IH.
    destruct (decide (key ∈ keys)) as [Hin|Hin],
             (decide (key ∈ k :: keys)) as [Hin'|Hin']; try done.
    + exfalso. apply Hin'. by right.
    + apply elem_of_cons in Hin' as [->|?]; [|done].
      by rewrite lookup_insert_eq.
    + rewrite lookup_insert_ne; [done|].
      intros ->. apply Hin'. by left.
Qed.

Lemma computeStats_lookup (data : list obj) (keys : list string) (key : string) :
  computeStats data keys !! key
  = if decide (key ∈ keys) then Some (statsOf data key) else None.
Proof. unfold computeStats. by rewrite computeStats_fold, lookup_empty. Qed.

Lemma Qmin_cases (x y : Q) : Qmin x y = x \/ Qmin x y = y.
Proof. unfold Qmin, GenericMinMax.gmin. destruct (x ?= y)%Q; auto. Qed.

Lemma Qmax_cases (x y : Q) : Qmax x y = x \/ Qmax x y = y.
Proof. unfold Qmax, GenericMinMax.gmax. destruct (x ?= y)%Q; auto. Qed.

Lemma MathMin_elem (v0 : Q) (vs : list Q) : MathMin v0 vs ∈ v0 :: vs.
Proof.
  unfold MathMin. revert v0. induction vs as [|v vs IH]; intros v0; simpl.
  - by left.
  - specialize (IH (Qmin v0 v)). apply elem_of_cons in IH as [E|?].
    + rewrite E. destruct (Qmin_cases v0 v) as [->| ->]; [by left | right; by left].
    + by do 2 right.
Qed.

Lemma MathMin_le_init (v0 : Q) (vs : list Q) : (MathMin v0 vs <= v0)%Q.
Proof.
  unfold MathMin. revert v0. induction vs as [|v vs IH]; intros v0; simpl.
  - apply Qle_refl.
  - eapply Qle_trans; [apply IH | apply Q.le_min_l].
Qed.

Lemma MathMin_lower (v0 : Q) (vs : list Q) (v : Q) :
  v ∈ v0 :: vs -> (MathMin v0 vs <= v)%Q.
Proof.
  revert v0. induction vs as [|w vs IH]; intros v0 Hv.
  - apply list_elem_of_singleton in Hv as ->. apply Qle_refl.
  - change (MathMin v0 (w :: vs)) with (MathMin (Qmin v0 w) vs).
    apply elem_of_cons in Hv as [->|Hv].
    + eapply Qle_trans; [apply MathMin_le_init | apply Q.le_min_l].
    + apply elem_of_cons in Hv as [->|Hv].
      * eapply Qle_trans; [apply MathMin_le_init | apply Q.le_min_r].
      * apply IH. by right.
Qed.

Lemma MathMax_elem (v0 : Q) (vs : list Q) : MathMax v0 vs ∈ v0 :: vs.
Proof.
  unfold MathMax. revert v0. induction vs as [|v vs IH]; intros v0; simpl.
  - by left.
  - specialize (IH (Qmax v0 v)). apply elem_of_cons in IH as [E|?].
    + rewrite E. destruct (Qmax_cases v0 v) as [->| ->]; [by left | right; by left].
    + by do 2 right.
Qed.

Lemma MathMax_ge_init (v0 : Q) (vs : list Q) : (v0 <= MathMax v0 vs)%Q.
Proof.
  unfold MathMax. revert v0. induction vs as [|v vs IH]; intros v0; simpl.
  - apply Qle_refl.
  - eapply Qle_trans; [apply Q.le_max_l | apply IH].
Qed.

Lemma MathMax_upper (v0 : Q) (vs : list Q) (v : Q) :
  v ∈ v0 :: vs -> (v <= MathMax v0 vs)%Q.
Proof.
  revert v0. induction vs as [|w vs IH]; intros v0 Hv.
  - apply list_elem_of_singleton in Hv as ->. apply Qle_refl.
  - change (MathMax v0 (w :: vs)) with (MathMax (Qmax v0 w) vs).
    apply elem_of_cons in Hv as [->|Hv].
    + eapply Qle_trans; [apply Q.le_max_l | apply MathMax_ge_init].
    + apply elem_of_cons in Hv as [->|Hv].
      * eapply Qle_trans; [apply Q.le_max_r | apply MathMax_ge_init].
      * apply IH. by right.
Qed.

Lemma statValues_numericValues (data : list obj) (key : string) :
  statValues data key = numericValues data key.
Proof.
  unfold statValues. induction data as [|d data IH]; simpl; [done|].
  destruct (get d key); simpl; try exact IH. f_equal. exact IH.
Qed.

Lemma reduceSum_acc (vs : list Q) (a : Q) :
  (fold_left (fun a b => a + b) vs a == a + foldr Qplus 0 vs)%Q.
Proof.
  revert a. induction vs as [|v vs IH]; intros a; simpl.
  - ring.
  - rewrite IH. ring.
Qed.

Lemma reduceSum_foldr (vs : list Q) : (reduceSum vs == foldr Qplus 0 vs)%Q.
Proof. unfold reduceSum. rewrite reduceSum_acc. ring. Qed.

(** C8. For every field named in [keys], [computeStats] collects exactly
    the values of that field that are numbers other than NaN (null,
    undefined, NaN and strings are skipped); with no such value the entry
    is [{avg: null, min: null, max: null}], otherwise [avg] is their
    arithmetic mean, [min] a collected value below all of them and [max] a
    collected value above all of them. On the empty data set every entry is
    the all-null one. The function is total: nothing in it throws. *)
Theorem computeStats_correct (data : list obj) (keys : list string) (key : string) :
  key ∈ keys ->
  (exists st, computeStats data keys !! key = Some st /\
     match numericValues data key with
     | [] => st = mkStats JNull JNull JNull
     | vs => exists a mn mx,
         st = mkStats (JNum a) (JNum mn) (JNum mx) /\
         (a == arithmeticMean vs)%Q /\
         mn ∈ vs /\ (forall v, v ∈ vs -> (mn <= v)%Q) /\
         mx ∈ vs /\ (forall v, v ∈ vs -> (v <= mx)%Q)
     end) /\
  computeStats [] keys !! key = Some (mkStats JNull JNull JNull).
Proof.
  intros Hkey. split.
  - exists (statsOf data key). split.
    + rewrite computeStats_lookup. by destruct (decide (key ∈ keys)).
    + unfold statsOf. rewrite statValues_numericValues.
      destruct (numericValues data key) as [|v0 rest]; [done|].
      eexists _, _, _. split; [reflexivity|].
      split; [|split; [|split; [|split]]].
      * unfold arithmeticMean. by rewrite reduceSum_foldr.
      * apply MathMin_elem.
      * apply MathMin_lower.
      * apply MathMax_elem.
      * apply MathMax_upper.
  - rewrite computeStats_lookup. by destruct (decide (key ∈ keys)).
Qed.

(** ** Exponential moving average *)

Lemma emaLoop_length (alpha : Q) (key : string) (ema : jsval) (data : list obj) :
  length (emaLoop alpha key ema data) = length data.
Proof.
  revert ema. induction data as [|d data IH]; intros ema; simpl; [done|].
  destruct (emaStep alpha key ema d) as [out ema']. simpl. by rewrite IH.
Qed.

(** What one step leaves in [ema]: the old content on a gap, the element
    just returned (which is not null) otherwise. *)
Lemma emaStep_state (alpha : Q) (key : string) (ema : jsval) (d : obj) :
  let '(out, ema') := emaStep alpha key ema d in
  if missing (get d key) then out = JNull /\ ema' = ema
  else ema' = out /\ strictNull out = false.
Proof.
  unfold emaStep. destruct (missing (get d key)) eqn:Hm; [done|].
  split; [done|]. destruct (strictNull ema) eqn:Hs.
  - unfold missing in Hm. apply orb_false_iff in Hm as [Hn _].
    by destruct (get d key).
  - by destruct (nadd _ _).
Qed.

Lemma lastNonNull_cons (o : jsval) (outs : list jsval) (ema : jsval) :
  default ema (lastNonNull (o :: outs))
  = default (if strictNull o then ema else o) (lastNonNull outs).
Proof.
  unfold lastNonNull. simpl. destruct (strictNull o); simpl; [done|].
  rewrite last_cons. by destruct (last _).
Qed.

(** The element at index [i] is what the callback returns on record [i]
    when [ema] holds the last non-null element returned before, or the
    initial content when there is none. *)
Lemma emaLoop_lookup (alpha : Q) (key : string) (data : list obj) :
  forall (ema : jsval) (i : nat) (d : obj),
    data !! i = Some d ->
    emaLoop alpha key ema data !! i
    = Some (fst (emaStep alpha key
                   (default ema (lastNonNull (take i (emaLoop alpha key ema data)))) d)).
Proof.
  induction data as [|d0 data IH]; intros ema i d Hd; [done|].
  simpl. pose proof (emaStep_state alpha key ema d0) as Hst.
  destruct (emaStep alpha key ema d0) as [out ema'] eqn:Hstep.
  destruct i as [|i]; simpl in *.
  - injection Hd as <-. by rewrite Hstep.
  - rewrite (IH ema' i d Hd). rewrite lastNonNull_cons.
    destruct (missing (get d0 key)).
    + destruct Hst as [-> ->]. done.
    + destruct Hst as [-> ->]. done.
Qed.

(** Every element returned converts to a number other than NaN. *)
Lemma emaLoop_good (alpha : Q) (key : string) (data : list obj) :
  forall (ema : jsval), is_Some (ToNumber ema) ->
    Forall (fun o => is_Some (ToNumber o)) (emaLoop alpha key ema data).
Proof.
  induction data as [|d data IH]; intros ema Hema; simpl; [constructor|].
  unfold emaStep. destruct (missing (get d key)) eqn:Hm.
  - constructor; [by eexists | by apply IH].
  - assert (is_Some (ToNumber (get d key))) as Hv.
    { unfold missing, isNaN in Hm. apply orb_false_iff in Hm as [_ Hn].
      destruct (ToNumber (get d key)); [by eexists | done]. }
    assert (is_Some (ToNumber
      (if strictNull ema then get d key
       else of_number (nadd (nmul (Some alpha) (ToNumber (get d key)))
                            (nmul (Some (1 - alpha)%Q) (ToNumber ema)))))) as Hn.
    { destruct (strictNull ema); [done|].
      destruct Hv as [v ->], Hema as [e ->]. by eexists. }
    constructor; [done | by apply IH].
Qed.

Lemma lastNonNull_Some (outs : list jsval) (e : jsval) :
  lastNonNull outs = Some e -> e ∈ outs /\ strictNull e = false.
Proof.
  unfold lastNonNull. intros H. apply last_Some_elem_of in H.
  apply list_elem_of_In, filter_In in H as [Hin Hs].
  split; [by apply list_elem_of_In | by destruct (strictNull e)].
Qed.

Lemma get_singleton (key : string) (v : jsval) : get {[key := v]} key = v.
Proof. unfold get. by rewrite lookup_singleton_eq. Qed.

(** C4. [calculateEMA] returns one element per record, in order. With
    alpha = 2/(span+1): a record whose value is null, undefined or NaN
    gives null at its index; the first record with a valid value gives
    that value; every later valid value v gives alpha*v + (1-alpha)*e,
    where e is the last non-null element returned before it, so a gap
    neither advances nor resets the running average. On [10, null, 20]
    with span 2 (alpha = 2/3) the result is [10, null, 50/3], and 50/3 is
    16.67 to two decimals. The span -1, at which alpha is not a finite
    number, is left out. *)
Theorem calculateEMA_correct (data : list obj) (key : string) (span : Q)
    (i : nat) (d : obj) :
  ~ (span + 1 == 0)%Q ->
  data !! i = Some d ->
  length (calculateEMA data key span) = length data /\
  (if missing (get d key) then calculateEMA data key span !! i = Some JNull
   else
     match lastNonNull (take i (calculateEMA data key span)) with
     | None => calculateEMA data key span !! i = Some (get d key)
     | Some e => exists v a,
         ToNumber (get d key) = Some v /\ ToNumber e = Some a /\
         calculateEMA data key span !! i
         = Some (JNum (2 / (span + 1) * v + (1 - 2 / (span + 1)) * a)%Q)
     end) /\
  (exists q,
     calculateEMA [ {[key := JNum 10]}; {[key := JNull]}; {[key := JNum 20]} ] key 2
     = [JNum 10; JNull; JNum q] /\
     (q == 50 # 3)%Q /\ (1666 # 100 < q)%Q /\ (q < 1667 # 100)%Q).
Proof.
  intros _ Hd. split; [apply emaLoop_length|]. split.
  - unfold calculateEMA.
    rewrite (emaLoop_lookup _ _ _ JNull i d Hd).
    pose proof (emaLoop_good (2 / (span + 1))%Q key data JNull (mk_is_Some _ _ eq_refl))
      as Hgood.
    unfold emaStep. destruct (missing (get d key)) eqn:Hm; [done|].
    destruct (lastNonNull _) as [e|] eqn:Hlast; simpl; [|done].
    apply lastNonNull_Some in Hlast as [Hin Hs]. rewrite Hs.
    apply (subseteq_take i) in Hin.
    rewrite Forall_forall in Hgood. destruct (Hgood e Hin) as [a Ha].
    unfold missing, isNaN in Hm. apply orb_false_iff in Hm as [_ Hn].
    destruct (ToNumber (get d key)) as [v|] eqn:Hv; [|done].
    exists v, a. rewrite Ha. done.
  - unfold calculateEMA. simpl. unfold emaStep. rewrite !get_singleton. simpl.
    eexists. split; [reflexivity|]. split; [reflexivity|]. split; reflexivity.
Qed.

(** ** LOESS *)

Lemma filter_andb {A : Type} (f g : A -> bool) (l : list A) :
  List.filter (fun x => f x && g x) l = List.filter g (List.filter f l).
Proof.
  induction l as [|x l IH]; simpl; [done|].
  destruct (f x); simpl; [|done]. destruct (g x); by rewrite IH.
Qed.

(** The indices of a run that fall in [a, b) are again a run. *)
Lemma filter_seqZ_range (k : nat) (s a b : Z) :
  List.filter (fun j => (a <=? j) && (j <? b)) (seqZ s (Z.of_nat k))
  = seqZ (Z.max s a) (Z.min (s + Z.of_nat k) b - Z.max s a).
Proof.
  revert s. induction k as [|k IH]; intros s.
  - simpl. rewrite seqZ_nil; [done | lia].
  - rewrite (seqZ_cons s); [|lia].
    replace (Z.pred (Z.of_nat (S k))) with (Z.of_nat k) by lia.
    simpl. rewrite IH.
    destruct (a <=? s) eqn:Ha, (s <? b) eqn:Hb; simpl.
    + rewrite (seqZ_cons (Z.max s a)); [|lia].
      replace (Z.max s a) with s by lia. f_equal.
      f_equal; lia.
    + rewrite !seqZ_nil; [done | lia | lia].
    + f_equal; lia.
    + rewrite !seqZ_nil; [done | lia | lia].
Qed.

Lemma loessWindow_eq (values : list jsval) (bandwidth : Q) (i : Z) :
  0 <= i < Z.of_nat (length values) ->
  loessWindow values bandwidth i
  = List.filter (fun j => negb (missing (valueAt values j)))
      (seqZ (Z.max 0 (i - windowSizeOf (Z.of_nat (length values)) bandwidth / 2))
            (Z.min (Z.of_nat (length values))
                   (Z.max 0 (i - windowSizeOf (Z.of_nat (length values)) bandwidth / 2)
                    + windowSizeOf (Z.of_nat (length values)) bandwidth)
             - Z.max 0 (i - windowSizeOf (Z.of_nat (length values)) bandwidth / 2))).
Proof.
  intros Hi. unfold loessWindow. cbv zeta.
  rewrite (filter_andb (fun j => (_ <=? j) && (j <? _))).
  rewrite filter_seqZ_range. do 2 f_equal; lia.
Qed.

(** The inner loop adds, to both accumulators, the contributions of the
    valid indices it runs over. *)
Lemma loessAcc_fold (values : list jsval) (w i : Z) (js : list Z) :
  forall (a b : Q), exists a' b',
    fold_left (loessAcc values w i) js (Some a, b) = (Some a', b') /\
    (a' == a + foldr (fun j acc => tricube w i j
                        * default 0%Q (ToNumber (valueAt values j)) + acc)%Q 0%Q
                 (List.filter (fun j => negb (missing (valueAt values j))) js))%Q /\
    (b' == b + foldr (fun j acc => tricube w i j + acc)%Q 0%Q
                 (List.filter (fun j => negb (missing (valueAt values j))) js))%Q.
Proof.
  induction js as [|j js IH]; intros a b; simpl.
  - exists a, b. split; [done|]. split; ring.
  - unfold loessAcc at 2. fold (valueAt values j).
    destruct (missing (valueAt values j)) eqn:Hm; simpl.
    + apply IH.
    + unfold missing, isNaN in Hm. apply orb_false_iff in Hm as [_ Hn].
      destruct (ToNumber (valueAt values j)) as [x|] eqn:Hx; [|done]. simpl.
      destruct (IH (a + tricube w i j * x)%Q (b + tricube w i j)%Q)
        as (a' & b' & Hf & Ha & Hb).
      exists a', b'. split; [done|]. split.
      * rewrite Ha. ring.
      * rewrite Hb. ring.
Qed.

Lemma tricube_pos (w i j : Z) : Z.abs (i - j) < w -> (0 < tricube w i j)%Q.
Proof.
  intros Hd. unfold tricube.
  assert (0 < inject_Z w)%Q as Hw
    by (change 0%Q with (inject_Z 0); rewrite <- Zlt_Qlt; lia).
  set (d := (inject_Z (Z.abs (i - j)) / inject_Z w)%Q).
  assert (0 <= d)%Q as H0.
  { apply Qle_shift_div_l; [done|]. rewrite Qmult_0_l.
    change 0%Q with (inject_Z 0). rewrite <- Zle_Qle. lia. }
  assert (d < 1)%Q as H1.
  { apply Qlt_shift_div_r; [done|]. rewrite Qmult_1_l. by rewrite <- Zlt_Qlt. }
  assert (d ^ 3 == d * d * d)%Q as E by (simpl; ring).
  assert (d * d <= 1)%Q by nra.
  assert (d * d * d < 1)%Q by nra.
  set (x := (1 - d ^ 3)%Q).
  assert (0 < x)%Q by (unfold x; rewrite E; lra).
  assert (x ^ 3 == x * x * x)%Q as -> by (simpl; ring).
  assert (0 < x * x)%Q by nra. nra.
Qed.

(** A point is at distance 0 from itself, where the tricube weight is 1. *)
Lemma tricube_self (w i : Z) : (tricube w i i == 1)%Q.
Proof.
  unfold tricube. rewrite Z.sub_diag. simpl Z.abs.
  unfold Qdiv. rewrite Qmult_0_l. reflexivity.
Qed.

Lemma weights_pos (w i : Z) (js : list Z) :
  js <> [] -> (forall j, j ∈ js -> Z.abs (i - j) < w) ->
  (0 < foldr (fun j acc => tricube w i j + acc)%Q 0%Q js)%Q.
Proof.
  intros Hne Hall.
  assert (forall l : list Z, (forall j, j ∈ l -> Z.abs (i - j) < w) ->
            (0 <= foldr (fun j acc => tricube w i j + acc)%Q 0%Q l)%Q) as Hnn.
  { induction l as [|j l IH]; intros Hl; simpl; [apply Qle_refl|].
    pose proof (tricube_pos w i j (Hl j ltac:(by left))).
    pose proof (IH (fun j' H' => Hl j' ltac:(by right))). lra. }
  destruct js as [|j js]; [done|]. simpl.
  pose proof (tricube_pos w i j (Hall j ltac:(by left))).
  pose proof (Hnn js (fun j' H' => Hall j' ltac:(by right))). lra.
Qed.

Lemma loessWindow_elem (values : list jsval) (bandwidth : Q) (i j : Z) :
  j ∈ loessWindow values bandwidth i <->
  0 <= j < Z.of_nat (length values) /\
  Z.max 0 (i - windowSizeOf (Z.of_nat (length values)) bandwidth / 2) <= j
    < Z.max 0 (i - windowSizeOf (Z.of_nat (length values)) bandwidth / 2)
      + windowSizeOf (Z.of_nat (length values)) bandwidth /\
  missing (valueAt values j) = false.
Proof.
  unfold loessWindow. cbv zeta.
  rewrite list_elem_of_In, filter_In, <- list_elem_of_In, elem_of_seqZ.
  rewrite !andb_true_iff, negb_true_iff, Z.leb_le, Z.ltb_lt, Z.add_0_l. tauto.
Qed.

Lemma windowSizeOf_ge (n : Z) (bandwidth : Q) : 3 <= windowSizeOf n bandwidth.
Proof. unfold windowSizeOf. lia. Qed.

(** A valid point lies in its own window. *)
Lemma loessWindow_self (values : list jsval) (bandwidth : Q) (i : Z) :
  0 <= i < Z.of_nat (length values) ->
  missing (valueAt values i) = false ->
  i ∈ loessWindow values bandwidth i.
Proof.
  intros Hi Hm. apply loessWindow_elem.
  pose proof (windowSizeOf_ge (Z.of_nat (length values)) bandwidth).
  split; [lia | split; [Z.div_mod_to_equations; lia | done]].
Qed.

(** Two indices of one window are less than [windowSize] apart. *)
Lemma loessWindow_dist (values : list jsval) (bandwidth : Q) (i j : Z) :
  0 <= i < Z.of_nat (length values) ->
  j ∈ loessWindow values bandwidth i ->
  Z.abs (i - j) < windowSizeOf (Z.of_nat (length values)) bandwidth.
Proof.
  intros Hi Hj. apply loessWindow_elem in Hj as (_ & Hj & _).
  pose proof (windowSizeOf_ge (Z.of_nat (length values)) bandwidth).
  Z.div_mod_to_equations. lia.
Qed.

Lemma weightSumOf_pos (values : list jsval) (bandwidth : Q) (i : Z) :
  0 <= i < Z.of_nat (length values) ->
  missing (valueAt values i) = false ->
  (0 < weightSumOf values bandwidth i)%Q.
Proof.
  intros Hi Hm. unfold weightSumOf. apply weights_pos.
  - intros E. pose proof (loessWindow_self values bandwidth i Hi Hm) as Hin.
    rewrite E in Hin. by apply elem_of_nil in Hin.
  - intros j Hj. by apply loessWindow_dist.
Qed.

Lemma Qpositive_true (q : Q) : (0 < q)%Q -> Qpositive q = true.
Proof.
  intros H. pose proof (proj1 (Qlt_alt 0 q) H) as E.
  unfold Qpositive. by rewrite E.
Qed.

(** At a valid index the loop body pushes the quotient of its two
    accumulators, which hold the weighted sum and the positive weight sum
    over the valid indices of the window. *)
Lemma loessAt_valid (values : list jsval) (bandwidth : Q) (i : Z) :
  0 <= i < Z.of_nat (length values) ->
  missing (valueAt values i) = false ->
  exists a b, loessAt values bandwidth i = JNum (a / b) /\
    (a == weightedSumOf values bandwidth i)%Q /\
    (b == weightSumOf values bandwidth i)%Q /\ (0 < b)%Q.
Proof.
  intros Hi Hm. unfold loessAt. fold (valueAt values i). rewrite Hm. cbv zeta.
  destruct (loessAcc_fold values (windowSizeOf (Z.of_nat (length values)) bandwidth) i
    (seqZ (Z.max 0 (i - windowSizeOf (Z.of_nat (length values)) bandwidth / 2))
          (Z.min (Z.of_nat (length values))
             (Z.max 0 (i - windowSizeOf (Z.of_nat (length values)) bandwidth / 2)
              + windowSizeOf (Z.of_nat (length values)) bandwidth)
           - Z.max 0 (i - windowSizeOf (Z.of_nat (length values)) bandwidth / 2)))
    0%Q 0%Q) as (a & b & Hf & Ha & Hb).
  rewrite Hf. rewrite <- loessWindow_eq in Ha, Hb by done.
  assert (b == weightSumOf values bandwidth i)%Q as Hb'
    by (rewrite Hb; unfold weightSumOf; ring).
  assert (0 < b)%Q as Hpos by (rewrite Hb'; by apply weightSumOf_pos).
  rewrite (Qpositive_true b Hpos). exists a, b. split; [done|].
  split; [|done]. rewrite Ha. unfold weightedSumOf. ring.
Qed.

Lemma calculateLOESS_lookup (data : list obj) (key : string) (bandwidth : Q)
    (i : nat) (d : obj) :
  data !! i = Some d ->
  calculateLOESS data key bandwidth !! i
  = Some (loessAt (List.map (fun d => get d key) data) bandwidth (Z.of_nat i)) /\
  valueAt (List.map (fun d => get d key) data) (Z.of_nat i) = get d key /\
  0 <= Z.of_nat i < Z.of_nat (length (List.map (fun d => get d key) data)).
Proof.
  intros Hd. pose proof (lookup_lt_Some _ _ _ Hd) as Hlt.
  unfold calculateLOESS. cbv zeta.
  change (List.map ?f ?l) with (f <$> l). rewrite !length_fmap.
  split; [|split; [|lia]].
  - rewrite list_lookup_fmap, lookup_seqZ_lt by lia. done.
  - unfold valueAt. rewrite Nat2Z.id, list_lookup_fmap, Hd. done.
Qed.

Lemma calculateLOESS_length (data : list obj) (key : string) (bandwidth : Q) :
  length (calculateLOESS data key bandwidth) = length data.
Proof.
  unfold calculateLOESS. cbv zeta. change (List.map ?f ?l) with (f <$> l).
  rewrite !length_fmap, length_seqZ. lia.
Qed.

(** C6. [calculateLOESS] returns one element per record. At an index
    whose value is null, undefined or NaN the element is null. At any other
    index i it is the weighted average of the valid values in the window:
    the indices j of the array with start <= j < start + windowSize, where
    windowSize = max(3, floor(n * bandwidth)) and
    start = max(0, i - floor(windowSize / 2)), each value weighted by
    (1 - (|i - j| / windowSize)^3)^3. *)
Theorem calculateLOESS_correct (data : list obj) (key : string) (bandwidth : Q)
    (i : nat) (d : obj) :
  data !! i = Some d ->
  length (calculateLOESS data key bandwidth) = length data /\
  (if missing (get d key) then calculateLOESS data key bandwidth !! i = Some JNull
   else exists q,
     calculateLOESS data key bandwidth !! i = Some (JNum q) /\
     (q == weightedAverage (List.map (fun d => get d key) data) bandwidth (Z.of_nat i))%Q) /\
  (forall (values : list jsval) (i j : Z),
     j ∈ loessWindow values bandwidth i <->
     0 <= j < Z.of_nat (length values) /\
     Z.max 0 (i - Z.max 3 (Qfloor (inject_Z (Z.of_nat (length values)) * bandwidth)) / 2)
       <= j
       < Z.max 0 (i - Z.max 3 (Qfloor (inject_Z (Z.of_nat (length values)) * bandwidth)) / 2)
         + Z.max 3 (Qfloor (inject_Z (Z.of_nat (length values)) * bandwidth)) /\
     missing (valueAt values j) = false) /\
  (forall (w i j : Z),
     tricube w i j = ((1 - (inject_Z (Z.abs (i - j)) / inject_Z w) ^ 3) ^ 3)%Q).
Proof.
  intros Hd. split; [apply calculateLOESS_length|]. split; [|split].
  - destruct (calculateLOESS_lookup data key bandwidth i d Hd) as (Hl & Hv & Hi).
    rewrite Hl. destruct (missing (get d key)) eqn:Hm.
    + unfold loessAt. fold (valueAt (List.map (fun d => get d key) data) (Z.of_nat i)).
      by rewrite Hv, Hm.
    + rewrite <- Hv in Hm.
      destruct (loessAt_valid _ bandwidth _ Hi Hm) as (a & b & -> & Ha & Hb & Hpos).
      exists (a / b)%Q. split; [done|]. unfold weightedAverage. by rewrite Ha, Hb.
  - intros values i' j. apply loessWindow_elem.
  - done.
Qed.

(** C10. At an index whose value is valid the element [calculateLOESS]
    returns is a number, never null: the index lies in its own window, at
    distance 0 its tricube weight is 1, all weights of the window are
    positive, so the weight sum tested by the code is positive. *)
Theorem calculateLOESS_valid_not_null (data : list obj) (key : string) (bandwidth : Q)
    (i : nat) (d : obj) :
  data !! i = Some d ->
  missing (get d key) = false ->
  Z.of_nat i ∈ loessWindow (List.map (fun d => get d key) data) bandwidth (Z.of_nat i) /\
  (tricube (windowSizeOf (Z.of_nat (length data)) bandwidth) (Z.of_nat i) (Z.of_nat i) == 1)%Q /\
  (0 < weightSumOf (List.map (fun d => get d key) data) bandwidth (Z.of_nat i))%Q /\
  (exists q, calculateLOESS data key bandwidth !! i = Some (JNum q)) /\
  calculateLOESS data key bandwidth !! i <> Some JNull.
Proof.
  intros Hd Hm.
  destruct (calculateLOESS_lookup data key bandwidth i d Hd) as (Hl & Hv & Hi).
  rewrite <- Hv in Hm.
  destruct (loessAt_valid _ bandwidth _ Hi Hm) as (a & b & Hq & _).
  split; [by apply loessWindow_self|]. split; [apply tricube_self|].
  split; [by apply weightSumOf_pos|]. rewrite Hl, Hq. split; [by eexists | done].
Qed.

(** ** Sorting and the date window *)

Lemma insertSorted_perm (x : obj) (l : list obj) : insertSorted x l ≡ₚ x :: l.
Proof.
  induction l as [|y l IH]; simpl; [done|].
  destruct (compareDates x y <=? 0); [done|].
  rewrite IH. apply Permutation_swap.
Qed.

Lemma sortByDate_perm (rawData : list obj) : sortByDate rawData ≡ₚ rawData.
Proof.
  unfold sortByDate. induction rawData as [|x l IH]; simpl; [done|].
  by rewrite insertSorted_perm, IH.
Qed.

Lemma sortByDate_elem (rawData : list obj) (d : obj) :
  d ∈ sortByDate rawData <-> d ∈ rawData.
Proof. by rewrite sortByDate_perm. Qed.

Lemma formatDate_invalid (v : jsval) :
  newDate v = None -> formatDate v = Throw rangeError.
Proof. intros H. unfold formatDate. by rewrite H. Qed.

Lemma formatDate_throws (v : jsval) (e : string) :
  formatDate v = Throw e -> newDate v = None /\ e = rangeError.
Proof.
  unfold formatDate. destruct (newDate v); simpl; [done|].
  intros [= <-]. done.
Qed.

Lemma inWindow_throws (dateFrom dateTo : string) (d : obj) (e : string) :
  inWindow dateFrom dateTo d = Throw e ->
  newDate (get d dateKey) = None /\ e = rangeError.
Proof.
  unfold inWindow. destruct (formatDate (get d dateKey)) as [iso|e'] eqn:Hf; simpl.
  - by repeat destruct (_ && _).
  - intros [= <-]. by apply formatDate_throws.
Qed.

(** A filter whose callback returns on every element keeps, in order,
    the elements on which it returns [true]. *)
Lemma filterC_normal {A : Type} (f : A -> completion bool) (l : list A) :
  (forall x, x ∈ l -> exists b, f x = Normal b) ->
  exists kept, filterC f l = Normal kept /\
    kept `sublist_of` l /\
    forall x, x ∈ kept <-> x ∈ l /\ f x = Normal true.
Proof.
  induction l as [|a l IH]; intros Hall; simpl.
  - exists []. split; [done|]. split; [done|]. intros x. split.
    + by intros ?%elem_of_nil.
    + by intros [?%elem_of_nil _].
  - destruct (Hall a ltac:(by left)) as [b Hb]. rewrite Hb. simpl.
    destruct IH as (kept & -> & Hsub & Hk).
    { intros x Hx. apply Hall. by right. }
    simpl. eexists. split; [done|]. destruct b.
    + split; [by apply sublist_skip|]. intros x. rewrite !elem_of_cons, Hk. split.
      * intros [->|[? ?]]; auto.
      * intros [[->|?] ?]; auto.
    + split; [by apply sublist_cons|]. intros x. rewrite elem_of_cons, Hk. split.
      * intros [? ?]; auto.
      * intros [[->|?] Hx]; [congruence | auto].
Qed.

(** A filter ends with the exception of the first element on which the
    callback throws. *)
Lemma filterC_throw {A : Type} (f : A -> completion bool) (l : list A) (e0 : string) :
  (forall x e, x ∈ l -> f x = Throw e -> e = e0) ->
  (exists x, x ∈ l /\ f x = Throw e0) ->
  filterC f l = Throw e0.
Proof.
  induction l as [|a l IH]; intros Hsame (x & Hx & Hfx).
  - by apply elem_of_nil in Hx.
  - simpl. destruct (f a) as [b|e] eqn:Hfa; simpl.
    + rewrite IH; [done | |].
      * intros y e Hy. apply Hsame. by right.
      * apply elem_of_cons in Hx as [->|Hx]; [congruence|]. by exists x.
    + f_equal. eapply Hsame; [|done]. by left.
Qed.

Lemma ltb_false_leb (s1 s2 : string) :
  String.ltb s1 s2 = false <-> String.leb s2 s1 = true.
Proof.
  unfold String.ltb, String.leb. rewrite (String.compare_antisym s1 s2).
  by destruct (String.compare s2 s1).
Qed.

Lemma isSet_false (bound : string) : isSet bound = false <-> bound = EmptyString.
Proof. unfold isSet. rewrite negb_false_iff. apply String.eqb_eq. Qed.

Lemma lower_bound_ok (dateFrom iso : string) :
  isSet dateFrom && String.ltb iso dateFrom = false <->
  dateFrom = EmptyString \/ String.leb dateFrom iso = true.
Proof. by rewrite andb_false_iff, isSet_false, ltb_false_leb. Qed.

Lemma upper_bound_ok (dateTo iso : string) :
  isSet dateTo && String.ltb dateTo iso = false <->
  dateTo = EmptyString \/ String.leb iso dateTo = true.
Proof. by rewrite andb_false_iff, isSet_false, ltb_false_leb. Qed.

(** The callback keeps a record exactly when its ISO date string is not
    below a set lower bound and not above a set upper bound. *)
Lemma inWindow_true (dateFrom dateTo : string) (d : obj) :
  inWindow dateFrom dateTo d = Normal true <->
  exists iso, formatDate (get d dateKey) = Normal iso /\
    (dateFrom = EmptyString \/ String.leb dateFrom iso = true) /\
    (dateTo = EmptyString \/ String.leb iso dateTo = true).
Proof.
  unfold inWindow. destruct (formatDate (get d dateKey)) as [iso|e]; cbn [bindC].
  - pose proof (lower_bound_ok dateFrom iso) as [B1 B1'].
    pose proof (upper_bound_ok dateTo iso) as [B2 B2'].
    split.
    + intros H. exists iso. split; [done|].
      destruct (isSet dateFrom && String.ltb iso dateFrom); [done|].
      destruct (isSet dateTo && String.ltb dateTo iso); [done|]. auto.
    + intros (iso' & [= <-] & H1 & H2). by rewrite (B1' H1), (B2' H2).
  - split; [done|]. by intros (iso & ? & _).
Qed.

(** When every record carries a date the Date constructor accepts, the
    filter returns, keeps the sorted order, and keeps a record exactly
    when the string [formatDate] gives for its date passes the bounds. *)
Lemma filter_by_formatDate (rawData : list obj) (dateFrom dateTo : string) :
  (forall d, d ∈ rawData -> newDate (get d dateKey) <> None) ->
  exists filtered,
    filterC (inWindow dateFrom dateTo) (sortByDate rawData) = Normal filtered /\
    trendData rawData dateFrom dateTo amount false false = Normal filtered /\
    filtered `sublist_of` sortByDate rawData /\
    forall d, d ∈ filtered <->
      d ∈ rawData /\
      exists iso, formatDate (get d dateKey) = Normal iso /\
        (dateFrom = EmptyString \/ String.leb dateFrom iso = true) /\
        (dateTo = EmptyString \/ String.leb iso dateTo = true).
Proof.
  intros Hvalid.
  destruct (filterC_normal (inWindow dateFrom dateTo) (sortByDate rawData))
    as (filtered & Hf & Hsub & Hk).
  { intros d Hd. apply (proj1 (sortByDate_elem _ _)) in Hd.
    destruct (inWindow dateFrom dateTo d) as [b|e] eqn:Hw; [by eexists|].
    apply inWindow_throws in Hw as [Hn _]. by apply Hvalid in Hd. }
  exists filtered. split; [done|]. split; [|split; [done|]].
  - unfold trendData. rewrite Hf. done.
  - intros d. by rewrite Hk, sortByDate_elem, inWindow_true.
Qed.

(** C3 (amended). A record whose date converts to the Invalid Date makes
    the pipeline throw: [formatDate] calls [toISOString], which raises a
    RangeError on the Invalid Date, and the filter formats the date of
    every record before it looks at the bounds. So the pipeline ends with
    that RangeError for every choice of bounds, mode and toggles. In the
    sort the comparator of such a record against any other gives 0
    (NaN read as 0): it is ordered neither before nor after it. *)
Theorem invalid_date_throws (rawData : list obj) (dateFrom dateTo : string)
    (mode : chartMode) (showEMA showLOESS : bool) (d : obj) :
  d ∈ rawData ->
  newDate (get d dateKey) = None ->
  trendData rawData dateFrom dateTo mode showEMA showLOESS = Throw rangeError /\
  inWindow dateFrom dateTo d = Throw rangeError /\
  (forall d', compareDates d d' = 0 /\ compareDates d' d = 0).
Proof.
  intros Hd Hn.
  assert (inWindow dateFrom dateTo d = Throw rangeError) as Hw.
  { unfold inWindow. by rewrite (formatDate_invalid _ Hn). }
  split; [|split; [done|]].
  - unfold trendData.
    rewrite (filterC_throw (inWindow dateFrom dateTo) (sortByDate rawData) rangeError).
    + done.
    + intros x e _ Hx. by apply inWindow_throws in Hx as [_ ->].
    + exists d. split; [by apply sortByDate_elem | done].
  - intros d'. unfold compareDates. rewrite Hn.
    split; [done | by destruct (newDate (get d' dateKey))].
Qed.

(** ** The calendar *)

Lemma DayFromYear_succ (y : Z) : DayFromYear (y + 1) = DayFromYear y + DaysInYear y.
Proof.
  unfold DayFromYear, DaysInYear, leapOf.
  destruct (y mod 4 =? 0) eqn:E4, (y mod 100 =? 0) eqn:E100,
           (y mod 400 =? 0) eqn:E400; simpl;
    rewrite ?Z.eqb_eq, ?Z.eqb_neq in *; Z.div_mod_to_equations; lia.
Qed.

Lemma DayFromYear_mono (a b : Z) : a <= b -> DayFromYear a <= DayFromYear b.
Proof. intros H. unfold DayFromYear. Z.div_mod_to_equations. lia. Qed.

(** [YearFromDay] returns the year the day falls in. *)
Lemma YearFromDay_spec (d : Z) :
  DayFromYear (YearFromDay d) <= d < DayFromYear (YearFromDay d + 1).
Proof.
  unfold YearFromDay.
  destruct (d <? DayFromYear (1970 + 400 * d / 146097)) eqn:E1;
    [|destruct (DayFromYear (1970 + 400 * d / 146097 + 1) <=? d) eqn:E2];
    rewrite ?Z.ltb_lt, ?Z.ltb_ge, ?Z.leb_le, ?Z.leb_gt in *;
    unfold DayFromYear in *; Z.div_mod_to_equations; lia.
Qed.

Lemma YearFromDay_unique (d y : Z) :
  DayFromYear y <= d < DayFromYear (y + 1) -> YearFromDay d = y.
Proof.
  intros Hy. pose proof (YearFromDay_spec d) as Hs.
  destruct (Z.lt_trichotomy (YearFromDay d) y) as [Hlt|[Heq|Hgt]]; [|done|].
  - pose proof (DayFromYear_mono (YearFromDay d + 1) y ltac:(lia)). lia.
  - pose proof (DayFromYear_mono (y + 1) (YearFromDay d) ltac:(lia)). lia.
Qed.

Lemma leapOf_cases (y : Z) : leapOf y = 0 \/ leapOf y = 1.
Proof. unfold leapOf. destruct (_ && _); auto. Qed.

Lemma DaysInMonth_bounds (y m : Z) : 0 <= m <= 11 -> 28 <= DaysInMonth y m <= 31.
Proof.
  intros Hm. unfold DaysInMonth. destruct (leapOf_cases y) as [-> | ->];
    assert (m = 0 \/ m = 1 \/ m = 2 \/ m = 3 \/ m = 4 \/ m = 5 \/ m = 6 \/ m = 7
            \/ m = 8 \/ m = 9 \/ m = 10 \/ m = 11) as Hc by lia;
    repeat (destruct Hc as [-> | Hc]); try subst m; simpl; lia.
Qed.

(** The day [MakeDay] gives for a date that exists is read back as that
    date. *)
Lemma MakeDay_fields (y m dt : Z) :
  0 <= m <= 11 -> 1 <= dt <= DaysInMonth y m ->
  YearFromDay (MakeDay y m dt) = y /\
  MonthFromDay (MakeDay y m dt) = m /\
  DateFromDay (MakeDay y m dt) = dt.
Proof.
  intros Hm Hdt.
  assert (MakeDay y m dt = DayFromYear y + monthStart m (leapOf y) + dt - 1) as Hmk.
  { unfold MakeDay. rewrite Z.div_small, Z.mod_small, Z.add_0_r by lia. done. }
  assert (0 <= monthStart m (leapOf y) + dt - 1 < DaysInYear y) as Hw.
  { unfold DaysInYear. unfold DaysInMonth in Hdt.
    destruct (leapOf_cases y) as [E | E]; rewrite E in *;
      assert (m = 0 \/ m = 1 \/ m = 2 \/ m = 3 \/ m = 4 \/ m = 5 \/ m = 6 \/ m = 7
              \/ m = 8 \/ m = 9 \/ m = 10 \/ m = 11) as Hc by lia;
      repeat (destruct Hc as [-> | Hc]); try subst m; simpl in *; lia. }
  assert (YearFromDay (MakeDay y m dt) = y) as Hy.
  { apply YearFromDay_unique. rewrite DayFromYear_succ, Hmk. lia. }
  assert (DayWithinYear (MakeDay y m dt) = monthStart m (leapOf y) + dt - 1) as Hd.
  { unfold DayWithinYear. rewrite Hy, Hmk. lia. }
  assert (MonthFromDay (MakeDay y m dt) = m) as Hmo.
  { unfold MonthFromDay. rewrite Hy, Hd. unfold DaysInMonth in Hdt.
    destruct (leapOf_cases y) as [E | E]; rewrite E in *;
      assert (m = 0 \/ m = 1 \/ m = 2 \/ m = 3 \/ m = 4 \/ m = 5 \/ m = 6 \/ m = 7
              \/ m = 8 \/ m = 9 \/ m = 10 \/ m = 11) as Hc by lia;
      repeat (destruct Hc as [-> | Hc]); try subst m; simpl in Hdt |- *;
      repeat match goal with
             | |- context [?a <? ?b] => destruct (Z.ltb_spec a b); try lia
             end. }
  split; [done|]. split; [done|].
  unfold DateFromDay. rewrite Hmo, Hy, Hd. lia.
Qed.

(** ** Printing a date *)

(** The first ten characters of [toISOString], in a year of four digits:
    the date of the UTC day, whatever the time of day. *)
Lemma toISOString_day (t : Z) :
  0 <= YearFromDay (Day t) <= 9999 ->
  bindC (toISOString (Some t)) (fun s => Normal (slice10 s))
  = Normal (isoOfDay (Day t)).
Proof.
  intros Hy. unfold toISOString.
  assert ((0 <=? YearFromDay (Day t)) && (YearFromDay (Day t) <=? 9999) = true) as ->
    by (apply andb_true_iff; split; lia).
  cbv zeta. cbn [bindC]. reflexivity.
Qed.

(** ** The fields of a day *)

Lemma DayWithinYear_bounds (d : Z) :
  0 <= DayWithinYear d < DaysInYear (YearFromDay d).
Proof.
  unfold DayWithinYear. pose proof (YearFromDay_spec d) as Hs.
  rewrite DayFromYear_succ in Hs. lia.
Qed.

Lemma MonthFromDay_bounds (d : Z) : 0 <= MonthFromDay d <= 11.
Proof.
  unfold MonthFromDay.
  repeat match goal with
         | |- context [?a <? ?b] => destruct (Z.ltb_spec a b); try lia
         end.
Qed.

Lemma DateFromDay_bounds (d : Z) : 1 <= DateFromDay d <= 31.
Proof.
  pose proof (DayWithinYear_bounds d) as Hw. unfold DateFromDay, MonthFromDay.
  unfold DaysInYear in Hw.
  destruct (leapOf_cases (YearFromDay d)) as [E|E]; rewrite E in *;
    repeat match goal with
           | |- context [?a <? ?b] => destruct (Z.ltb_spec a b); try (simpl; lia)
           end.
Qed.

(** ** Dates as strings: the order *)

Lemma string_append_cons (x : ascii) (a b : string) :
  (String x a ++ b = String x (a ++ b))%string.
Proof. reflexivity. Qed.

Lemma string_length_append (a b : string) :
  String.length (a ++ b) = (String.length a + String.length b)%nat.
Proof.
  induction a as [|x a IH]; [done|].
  rewrite string_append_cons. simpl. f_equal. exact IH.
Qed.

Lemma padDigits_length (w : nat) (n : Z) : String.length (padDigits w n) = w.
Proof.
  revert n. induction w as [|w IH]; intros n; [done|].
  cbn [padDigits]. rewrite string_length_append, IH. simpl. lia.
Qed.

(** Strings of equal length are compared before what follows them. *)
Lemma compare_append (p1 p2 s1 s2 : string) :
  String.length p1 = String.length p2 ->
  String.compare (p1 ++ s1) (p2 ++ s2)
  = match String.compare p1 p2 with
    | Eq => String.compare s1 s2
    | c => c
    end.
Proof.
  revert p2. induction p1 as [|c1 p1 IH]; intros [|c2 p2] Hlen; try done.
  rewrite !string_append_cons. cbn [String.compare].
  destruct (Ascii.compare c1 c2); [|done|done].
  apply IH. by injection Hlen.
Qed.

Lemma digitChar_compare (a b : Z) :
  0 <= a <= 9 -> 0 <= b <= 9 ->
  Ascii.compare (digitChar a) (digitChar b) = (a ?= b).
Proof.
  intros Ha Hb.
  assert (a = 0 \/ a = 1 \/ a = 2 \/ a = 3 \/ a = 4 \/ a = 5 \/ a = 6 \/ a = 7
          \/ a = 8 \/ a = 9) as Ca by lia.
  assert (b = 0 \/ b = 1 \/ b = 2 \/ b = 3 \/ b = 4 \/ b = 5 \/ b = 6 \/ b = 7
          \/ b = 8 \/ b = 9) as Cb by lia.
  repeat (destruct Ca as [-> | Ca]); try subst a;
    repeat (destruct Cb as [-> | Cb]); try subst b; reflexivity.
Qed.

Lemma digitChar_mod (n : Z) : digitChar n = digitChar (n mod 10).
Proof. unfold digitChar. by rewrite Z.mod_mod. Qed.

Lemma compare_div_mod (a b : Z) :
  match a / 10 ?= b / 10 with
  | Eq => a mod 10 ?= b mod 10
  | c => c
  end = (a ?= b).
Proof.
  destruct (Z.compare_spec (a / 10) (b / 10)) as [E|E|E];
    destruct (Z.compare_spec (a mod 10) (b mod 10)) as [E'|E'|E'];
    symmetry; rewrite ?Z.compare_eq_iff, ?Z.compare_lt_iff, ?Z.compare_gt_iff;
    Z.div_mod_to_equations; lia.
Qed.

(** Numbers printed with the same number of digits compare as strings
    the way they compare as numbers. *)
Lemma padDigits_compare (w : nat) :
  forall a b : Z, 0 <= a < 10 ^ Z.of_nat w -> 0 <= b < 10 ^ Z.of_nat w ->
    String.compare (padDigits w a) (padDigits w b) = (a ?= b).
Proof.
  induction w as [|w IH]; intros a b Ha Hb.
  - simpl in *. assert (a = 0) as -> by lia. assert (b = 0) as -> by lia. done.
  - rewrite Nat2Z.inj_succ, Z.pow_succ_r in Ha, Hb by lia.
    cbn [padDigits]. rewrite compare_append by (by rewrite !padDigits_length).
    rewrite IH by (Z.div_mod_to_equations; lia).
    rewrite <- (compare_div_mod a b).
    destruct (a / 10 ?= b / 10); [|done|done].
    cbn [String.compare]. rewrite (digitChar_mod a), (digitChar_mod b).
    rewrite digitChar_compare by (Z.div_mod_to_equations; lia).
    by destruct (a mod 10 ?= b mod 10).
Qed.

Lemma compare_dash (s1 s2 : string) :
  String.compare ("-" ++ s1) ("-" ++ s2) = String.compare s1 s2.
Proof. reflexivity. Qed.

Lemma isoDate_compare (y1 m1 d1 y2 m2 d2 : Z) :
  0 <= y1 <= 9999 -> 0 <= y2 <= 9999 ->
  0 <= m1 <= 99 -> 0 <= m2 <= 99 -> 0 <= d1 <= 99 -> 0 <= d2 <= 99 ->
  String.compare (isoDate y1 m1 d1) (isoDate y2 m2 d2)
  = match y1 ?= y2 with
    | Eq => match m1 ?= m2 with
            | Eq => d1 ?= d2
            | c => c
            end
    | c => c
    end.
Proof.
  intros. unfold isoDate.
  rewrite compare_append by (by rewrite !padDigits_length).
  rewrite (padDigits_compare 4) by (simpl; lia).
  destruct (y1 ?= y2); [|done|done].
  rewrite compare_dash.
  rewrite compare_append by (by rewrite !padDigits_length).
  rewrite (padDigits_compare 2) by (simpl; lia).
  destruct (m1 ?= m2); [|done|done].
  rewrite compare_dash.
  apply (padDigits_compare 2); simpl; lia.
Qed.

Lemma monthStart_mono (m1 m2 leap : Z) :
  0 <= m1 -> m1 <= m2 -> m2 <= 11 -> 0 <= leap <= 1 ->
  monthStart m1 leap <= monthStart m2 leap.
Proof.
  intros H1 H12 H2 Hl.
  assert (m1 = 0 \/ m1 = 1 \/ m1 = 2 \/ m1 = 3 \/ m1 = 4 \/ m1 = 5 \/ m1 = 6 \/ m1 = 7
          \/ m1 = 8 \/ m1 = 9 \/ m1 = 10 \/ m1 = 11) as C1 by lia.
  assert (m2 = 0 \/ m2 = 1 \/ m2 = 2 \/ m2 = 3 \/ m2 = 4 \/ m2 = 5 \/ m2 = 6 \/ m2 = 7
          \/ m2 = 8 \/ m2 = 9 \/ m2 = 10 \/ m2 = 11) as C2 by lia.
  repeat (destruct C1 as [-> | C1]); try subst m1;
    repeat (destruct C2 as [-> | C2]); try subst m2; simpl; lia.
Qed.

(** The day within the year lies in the month [MonthFromDay] names. *)
Lemma month_bracket (D : Z) :
  monthStart (MonthFromDay D) (leapOf (YearFromDay D)) <= DayWithinYear D /\
  (MonthFromDay D < 11 ->
   DayWithinYear D < monthStart (MonthFromDay D + 1) (leapOf (YearFromDay D))).
Proof.
  pose proof (DayWithinYear_bounds D) as Hw. unfold MonthFromDay.
  destruct (leapOf_cases (YearFromDay D)) as [E|E]; rewrite E in *;
    repeat match goal with
           | |- context [?a <? ?b] => destruct (Z.ltb_spec a b); try (simpl; lia)
           end.
Qed.

(** A later day has a later date. *)
Lemma fields_lt (D1 D2 : Z) :
  D1 < D2 ->
  YearFromDay D1 < YearFromDay D2 \/
  YearFromDay D1 = YearFromDay D2 /\
  (MonthFromDay D1 < MonthFromDay D2 \/
   MonthFromDay D1 = MonthFromDay D2 /\ DateFromDay D1 < DateFromDay D2).
Proof.
  intros Hlt.
  pose proof (YearFromDay_spec D1) as S1. pose proof (YearFromDay_spec D2) as S2.
  destruct (Z.lt_trichotomy (YearFromDay D1) (YearFromDay D2)) as [Hy|[Hy|Hy]];
    [by left| |].
  2:{ pose proof (DayFromYear_mono (YearFromDay D2 + 1) (YearFromDay D1) ltac:(lia)).
      lia. }
  right. split; [done|].
  pose proof (month_bracket D1) as [B1 B1']. pose proof (month_bracket D2) as [B2 B2'].
  pose proof (MonthFromDay_bounds D1) as M1. pose proof (MonthFromDay_bounds D2) as M2.
  assert (DayWithinYear D1 < DayWithinYear D2) as Hw
    by (unfold DayWithinYear; rewrite Hy; lia).
  unfold DateFromDay. rewrite <- Hy in *.
  set (leap := leapOf (YearFromDay D1)) in *.
  assert (0 <= leap <= 1) as Hl by (unfold leap; destruct (leapOf_cases (YearFromDay D1)); lia).
  destruct (Z.lt_trichotomy (MonthFromDay D1) (MonthFromDay D2)) as [Hm|[Hm|Hm]];
    [by left| |].
  - right. split; [done|]. rewrite Hm in *. lia.
  - pose proof (monthStart_mono (MonthFromDay D2 + 1) (MonthFromDay D1) leap
                  ltac:(lia) ltac:(lia) ltac:(lia) Hl).
    specialize (B2' ltac:(lia)). lia.
Qed.

(** The ISO strings of two days in years 0..9999 compare the way the days
    do. *)
Lemma isoOfDay_compare (D1 D2 : Z) :
  0 <= YearFromDay D1 <= 9999 -> 0 <= YearFromDay D2 <= 9999 ->
  String.compare (isoOfDay D1) (isoOfDay D2) = (D1 ?= D2).
Proof.
  intros Hy1 Hy2. unfold isoOfDay.
  pose proof (MonthFromDay_bounds D1). pose proof (MonthFromDay_bounds D2).
  pose proof (DateFromDay_bounds D1). pose proof (DateFromDay_bounds D2).
  rewrite isoDate_compare by lia.
  destruct (Z.compare_spec D1 D2) as [->|Hlt|Hgt].
  - by rewrite !Z.compare_refl.
  - destruct (fields_lt D1 D2 Hlt) as [Hy|[Hy [Hm|[Hm Hd]]]].
    + by rewrite (proj2 (Z.compare_lt_iff _ _) Hy).
    + rewrite Hy, Z.compare_refl.
      assert ((MonthFromDay D1 + 1 ?= MonthFromDay D2 + 1) = Lt) as ->
        by (apply Z.compare_lt_iff; lia).
      done.
    + rewrite Hy, Hm, !Z.compare_refl. by apply Z.compare_lt_iff.
  - destruct (fields_lt D2 D1 Hgt) as [Hy|[Hy [Hm|[Hm Hd]]]].
    + by rewrite (proj2 (Z.compare_gt_iff _ _) Hy).
    + rewrite Hy, Z.compare_refl.
      assert ((MonthFromDay D1 + 1 ?= MonthFromDay D2 + 1) = Gt) as ->
        by (apply Z.compare_gt_iff; lia).
      done.
    + rewrite Hy, Hm, !Z.compare_refl. by apply Z.compare_gt_iff.
Qed.

(** [formatDate] prints the UTC day of a time value and drops the time
    of day. *)
Lemma formatDate_day (v : jsval) (t : Z) :
  newDate v = Some t -> 0 <= YearFromDay (Day t) <= 9999 ->
  formatDate v = Normal (isoOfDay (Day t)).
Proof.
  intros Hv Hy. unfold formatDate, toISOString. rewrite Hv.
  assert ((0 <=? YearFromDay (Day t)) && (YearFromDay (Day t) <=? 9999) = true) as ->
    by (apply andb_true_iff; split; lia).
  cbv zeta. cbn [bindC]. reflexivity.
Qed.

Lemma isoOfDay_isSet (D : Z) : isSet (isoOfDay D) = true.
Proof. reflexivity. Qed.

Lemma isoOfDay_length (D : Z) : String.length (isoOfDay D) = 10%nat.
Proof.
  unfold isoOfDay, isoDate.
  rewrite !string_length_append, !padDigits_length. reflexivity.
Qed.

(** ** The date filter, by the ISO date *)

(** C7 (amended). When every record carries a date the Date constructor
    accepts, in a year 0..9999, the filter returns, keeps the sorted order,
    and keeps a record exactly when the ISO date of the UTC day of its
    date, the ten characters YYYY-MM-DD of [isoOfDay], is not below
    [dateFrom] unless [dateFrom] is empty, and not above [dateTo] unless
    [dateTo] is empty, both compared as strings. The time of day of the
    record plays no part. In amount mode without smoothing this is the
    whole result. A list with a date that does not parse has no filtered
    series: the filter throws. *)
Theorem date_filter_correct (rawData : list obj) (dateFrom dateTo : string) :
  (forall d, d ∈ rawData ->
     exists t, newDate (get d dateKey) = Some t /\ 0 <= YearFromDay (Day t) <= 9999) ->
  exists filtered,
    filterC (inWindow dateFrom dateTo) (sortByDate rawData) = Normal filtered /\
    trendData rawData dateFrom dateTo amount false false = Normal filtered /\
    filtered `sublist_of` sortByDate rawData /\
    forall d, d ∈ filtered <->
      d ∈ rawData /\
      exists t, newDate (get d dateKey) = Some t /\
        String.length (isoOfDay (Day t)) = 10%nat /\
        (dateFrom = EmptyString \/ String.leb dateFrom (isoOfDay (Day t)) = true) /\
        (dateTo = EmptyString \/ String.leb (isoOfDay (Day t)) dateTo = true).
Proof.
  intros Hvalid.
  destruct (filter_by_formatDate rawData dateFrom dateTo)
    as (filtered & Hf & Ht & Hsub & Hk).
  { intros d Hd. destruct (Hvalid d Hd) as (t & -> & _). done. }
  exists filtered. split; [done|]. split; [done|]. split; [done|].
  intros d. rewrite Hk. split.
  - intros (Hd & iso & Hiso & H1 & H2). split; [done|].
    destruct (Hvalid d Hd) as (t & Hnew & Hy). exists t. split; [done|].
    rewrite (formatDate_day _ _ Hnew Hy) in Hiso. injection Hiso as <-.
    split; [apply isoOfDay_length | done].
  - intros (Hd & t & Hnew & _ & H1 & H2). split; [done|].
    destruct (Hvalid d Hd) as (t' & Hnew' & Hy).
    assert (t' = t) as -> by congruence.
    exists (isoOfDay (Day t)). split; [by apply formatDate_day | done].
Qed.

(** ** Future dates *)

Lemma mapC_normal {A B : Type} (f : A -> completion B) (g : A -> B) (l : list A) :
  (forall x, x ∈ l -> f x = Normal (g x)) -> mapC f l = Normal (g <$> l).
Proof.
  induction l as [|a l IH]; intros Hf; simpl; [done|].
  rewrite (Hf a) by (by left). simpl. rewrite IH; [done|].
  intros x Hx. apply Hf. by right.
Qed.

Lemma monthStart_bounds (m leap : Z) :
  0 <= m <= 11 -> 0 <= leap <= 1 -> 0 <= monthStart m leap <= 335.
Proof.
  intros Hm Hl.
  assert (m = 0 \/ m = 1 \/ m = 2 \/ m = 3 \/ m = 4 \/ m = 5 \/ m = 6 \/ m = 7
          \/ m = 8 \/ m = 9 \/ m = 10 \/ m = 11) as Hc by lia.
  repeat (destruct Hc as [-> | Hc]); try subst m; simpl; lia.
Qed.

(** [MakeDay] carries a month beyond December into the year. *)
Lemma MakeDay_carry (y m dt : Z) :
  MakeDay y m dt = MakeDay (y + m / 12) (m mod 12) dt.
Proof.
  unfold MakeDay. rewrite Z.mod_mod by lia.
  rewrite (Z.div_small (m mod 12)) by (apply Z.mod_pos_bound; lia).
  by rewrite Z.add_0_r.
Qed.

(** [MakeDay] runs a day past the end of a month on into the next one. *)
Lemma MakeDay_overflow (y m dt : Z) :
  0 <= m < 11 ->
  MakeDay y m dt = MakeDay y (m + 1) (dt - DaysInMonth y m).
Proof.
  intros Hm. unfold MakeDay, DaysInMonth.
  rewrite !Z.div_small, !Z.mod_small, !Z.add_0_r by lia.
  destruct (Z.eqb_spec m 11); lia.
Qed.

(** The date read back from the day [MakeDay] gives for day [dt] of
    month [m]: that day if the month has it, else the run-on day of the
    following month. *)
Lemma MakeDay_read (y m dt : Z) :
  0 <= m <= 11 -> 1 <= dt <= 31 -> 0 <= y <= 9999 ->
  YearFromDay (MakeDay y m dt) = y /\
  isoDate (YearFromDay (MakeDay y m dt)) (MonthFromDay (MakeDay y m dt) + 1)
          (DateFromDay (MakeDay y m dt))
  = (if dt <=? DaysInMonth y m then isoDate y (m + 1) dt
     else isoDate y (m + 2) (dt - DaysInMonth y m)) /\
  -1000000 <= MakeDay y m dt <= 4000000.
Proof.
  intros Hm Hdt Hy.
  pose proof (DaysInMonth_bounds y m Hm) as Hb.
  assert (-1000000 <= MakeDay y m dt <= 4000000) as Hr.
  { unfold MakeDay. rewrite Z.div_small, Z.mod_small, Z.add_0_r by lia.
    pose proof (monthStart_bounds m (leapOf y) Hm ltac:(destruct (leapOf_cases y); lia)).
    unfold DayFromYear. Z.div_mod_to_equations. lia. }
  destruct (Z.leb_spec dt (DaysInMonth y m)) as [Hle|Hgt].
  - destruct (MakeDay_fields y m dt Hm ltac:(lia)) as (-> & -> & ->). done.
  - assert (m < 11) as Hm'.
    { destruct (Z.eq_dec m 11) as [->|]; [|lia]. unfold DaysInMonth in Hgt.
      simpl in Hgt. lia. }
    rewrite (MakeDay_overflow y m dt) in * by lia.
    pose proof (DaysInMonth_bounds y (m + 1) ltac:(lia)).
    destruct (MakeDay_fields y (m + 1) (dt - DaysInMonth y m) ltac:(lia) ltac:(lia))
      as (-> & -> & ->).
    split; [done|]. split; [|done]. by replace (m + 1 + 1) with (m + 2) by lia.
Qed.

(** [setMonth] on midnight UTC of an existing date, in a zone that is at
    or east of Greenwich at that instant: the local date is the UTC date,
    and the result is the instant of the local time [monthTarget]. *)
Lemma setMonthPlus_midnight (y m dt i : Z) :
  0 <= LocalTZA (MakeDate (MakeDay y (m - 1) dt) 0) true < msPerDay ->
  - msPerDay <= LocalTZA (monthTarget y m dt i) false <= msPerDay ->
  1 <= m <= 12 -> 1 <= dt <= DaysInMonth y (m - 1) ->
  -1000000 <= MakeDay y (m - 1 + i) dt <= 4000000 ->
  setMonthPlus (Some (MakeDate (MakeDay y (m - 1) dt) 0)) i
  = Some (UTC (monthTarget y m dt i)).
Proof.
  intros Htz Htz' Hm Hdt Hr. unfold setMonthPlus, LocalTime.
  assert (Day (MakeDate (MakeDay y (m - 1) dt) 0
               + LocalTZA (MakeDate (MakeDay y (m - 1) dt) 0) true)
          = MakeDay y (m - 1) dt) as ->.
  { revert Htz. generalize (LocalTZA (MakeDate (MakeDay y (m - 1) dt) 0) true).
    intros o Ho. unfold MakeDate, Day, msPerDay in *. Z.div_mod_to_equations. lia. }
  assert (TimeWithinDay (MakeDate (MakeDay y (m - 1) dt) 0
                         + LocalTZA (MakeDate (MakeDay y (m - 1) dt) 0) true)
          = LocalTZA (MakeDate (MakeDay y (m - 1) dt) 0) true) as ->.
  { revert Htz. generalize (LocalTZA (MakeDate (MakeDay y (m - 1) dt) 0) true).
    intros o Ho. unfold MakeDate, TimeWithinDay, msPerDay in *.
    Z.div_mod_to_equations. lia. }
  destruct (MakeDay_fields y (m - 1) dt ltac:(lia) Hdt) as (-> & -> & ->).
  change (MakeDate (MakeDay y (m - 1 + i) dt)
                   (LocalTZA (MakeDate (MakeDay y (m - 1) dt) 0) true))
    with (monthTarget y m dt i).
  unfold TimeClip, UTC.
  destruct (Z.ltb_spec 8640000000000000
              (Z.abs (monthTarget y m dt i - LocalTZA (monthTarget y m dt i) false)))
    as [Hbig|_]; [|done].
  exfalso. revert Htz Htz' Hbig. unfold monthTarget.
  generalize (LocalTZA (MakeDate (MakeDay y (m - 1) dt) 0) true). intros o.
  generalize (LocalTZA (MakeDate (MakeDay y (m - 1 + i) dt) o) false).
  intros o' Ho Ho' Hbig. unfold MakeDate, msPerDay in *. lia.
Qed.

Lemma YearFromDay_ge (d k : Z) : DayFromYear k <= d -> k <= YearFromDay d.
Proof.
  intros H. pose proof (YearFromDay_spec d) as Hs.
  destruct (Z.le_gt_cases k (YearFromDay d)) as [|Hlt]; [done|].
  pose proof (DayFromYear_mono (YearFromDay d + 1) k ltac:(lia)). lia.
Qed.

Lemma YearFromDay_lt (d k : Z) : d < DayFromYear k -> YearFromDay d < k.
Proof.
  intros H. pose proof (YearFromDay_spec d) as Hs.
  destruct (Z.lt_ge_cases (YearFromDay d) k) as [|Hge]; [done|].
  pose proof (DayFromYear_mono k (YearFromDay d) ltac:(lia)). lia.
Qed.

(** A day of February or later lies after the first day of its year. *)
Lemma MakeDay_after_january (y m dt : Z) :
  1 <= m <= 11 -> 1 <= dt -> DayFromYear y < MakeDay y m dt.
Proof.
  intros Hm Hdt. unfold MakeDay.
  rewrite Z.div_small, Z.mod_small, Z.add_0_r by lia.
  destruct (leapOf_cases y) as [-> | ->];
    assert (m = 1 \/ m = 2 \/ m = 3 \/ m = 4 \/ m = 5 \/ m = 6 \/ m = 7
            \/ m = 8 \/ m = 9 \/ m = 10 \/ m = 11) as Hc by lia;
    repeat (destruct Hc as [-> | Hc]); try subst m; simpl; lia.
Qed.

(** C1 (amended). For a last date that is midnight UTC of day [dt] of
    month [m] of year [y], with all years involved in 0..9999, on a host
    that is at or east of Greenwich at the last date and at the local
    times [setMonth] builds, [generateFutureDates] returns M dates. The
    i-th (i = 1..M) is the date i months later under the carry of
    [setMonth]: day [dt] of the target month when that month has such a
    day, and otherwise the date as many days into the following month as
    [dt] exceeds the target month's length; the day is not clamped to the
    end of the target month. This is so when the offset in force at the
    target is not greater than the one at the last date, as in every zone
    without daylight saving; when it is greater (the last date in winter
    time, the target in summer time) the i-th date is the day before. *)
Theorem generateFutureDates_rolls_over (lastDate : string) (y m dt : Z) (M : nat) :
  DateParse lastDate = Some (MakeDate (MakeDay y (m - 1) dt) 0) ->
  0 <= LocalTZA (MakeDate (MakeDay y (m - 1) dt) 0) true < msPerDay ->
  (forall i : nat, (1 <= i <= M)%nat ->
     0 <= LocalTZA (monthTarget y m dt (Z.of_nat i)) false < msPerDay) ->
  1 <= m <= 12 -> 1 <= dt <= DaysInMonth y (m - 1) ->
  0 <= y -> y + (m - 1 + Z.of_nat M) / 12 <= 9999 ->
  exists dates,
    generateFutureDates (JStr lastDate) M = Normal dates /\
    length dates = M /\
    forall i : nat, (1 <= i <= M)%nat ->
      dates !! (i - 1)%nat
      = Some (if LocalTZA (monthTarget y m dt (Z.of_nat i)) false
                 <=? LocalTZA (MakeDate (MakeDay y (m - 1) dt) 0) true
              then rolledDate y m dt (Z.of_nat i)
              else isoOfDay (MakeDay y (m - 1 + Z.of_nat i) dt - 1)).
Proof.
  clear NumberToString. intros Hparse Htz Htz' Hm Hdt Hy0 Hy1.
  exists ((fun i : nat =>
             if LocalTZA (monthTarget y m dt (Z.of_nat i)) false
                <=? LocalTZA (MakeDate (MakeDay y (m - 1) dt) 0) true
             then rolledDate y m dt (Z.of_nat i)
             else isoOfDay (MakeDay y (m - 1 + Z.of_nat i) dt - 1)) <$> seq 1 M).
  split; [|split].
  - unfold generateFutureDates. cbn [newDate]. rewrite Hparse.
    apply mapC_normal. intros i Hi. apply elem_of_seq in Hi.
    specialize (Htz' i ltac:(lia)).
    pose proof (DaysInMonth_bounds y (m - 1) ltac:(lia)) as Hb.
    assert (0 <= (m - 1 + Z.of_nat i) mod 12 <= 11) as Hm'
      by (pose proof (Z.mod_pos_bound (m - 1 + Z.of_nat i) 12); lia).
    assert (0 <= y + (m - 1 + Z.of_nat i) / 12 <= 9999) as Hy'
      by (Z.div_mod_to_equations; lia).
    destruct (MakeDay_read (y + (m - 1 + Z.of_nat i) / 12)
                ((m - 1 + Z.of_nat i) mod 12) dt Hm' ltac:(lia) Hy')
      as (Hyr & Hiso & Hr).
    assert (DayFromYear 0 < MakeDay (y + (m - 1 + Z.of_nat i) / 12)
                                    ((m - 1 + Z.of_nat i) mod 12) dt) as Hfirst.
    { destruct (Z.eq_dec (y + (m - 1 + Z.of_nat i) / 12) 0) as [E|E].
      - rewrite E. apply MakeDay_after_january; [|lia].
        Z.div_mod_to_equations. lia.
      - pose proof (YearFromDay_spec
                      (MakeDay (y + (m - 1 + Z.of_nat i) / 12)
                               ((m - 1 + Z.of_nat i) mod 12) dt)) as Hs.
        rewrite Hyr in Hs.
        pose proof (DayFromYear_mono 1 (y + (m - 1 + Z.of_nat i) / 12) ltac:(lia)).
        assert (DayFromYear 0 < DayFromYear 1) by (vm_compute; reflexivity). lia. }
    rewrite <- MakeDay_carry in Hyr, Hiso, Hr, Hfirst.
    rewrite setMonthPlus_midnight by (done || lia).
    unfold rolledDate. cbv zeta. rewrite <- Hiso.
    set (D := MakeDay y (m - 1 + Z.of_nat i) dt) in *.
    assert (monthTarget y m dt (Z.of_nat i)
            = D * msPerDay + LocalTZA (MakeDate (MakeDay y (m - 1) dt) 0) true) as Ht
      by reflexivity.
    unfold UTC. revert Htz'. generalize (LocalTZA (monthTarget y m dt (Z.of_nat i)) false).
    rewrite Ht. revert Htz. generalize (LocalTZA (MakeDate (MakeDay y (m - 1) dt) 0) true).
    intros o Ho o' Ho'.
    destruct (Z.leb_spec o' o) as [Hle|Hgt].
    + assert (Day (D * msPerDay + o - o') = D) as HD
        by (unfold Day, msPerDay in *; Z.div_mod_to_equations; lia).
      rewrite toISOString_day by (rewrite HD; lia). by rewrite HD.
    + assert (Day (D * msPerDay + o - o') = D - 1) as HD
        by (unfold Day, msPerDay in *; Z.div_mod_to_equations; lia).
      pose proof (YearFromDay_spec D) as Hs. rewrite Hyr in Hs.
      pose proof (YearFromDay_ge (D - 1) 0 ltac:(lia)).
      pose proof (YearFromDay_lt (D - 1) (y + (m - 1 + Z.of_nat i) / 12 + 1) ltac:(lia)).
      rewrite toISOString_day by (rewrite HD; lia). by rewrite HD.
  - by rewrite length_fmap, length_seq.
  - intros i Hi. rewrite list_lookup_fmap, lookup_seq_lt by lia.
    replace (1 + (i - 1))%nat with i by lia. done.
Qed.

(** ** The pipeline on the store *)

(** Allocation leaves every array of the store as it is. *)
Lemma allocArray_spec (h0 h : store) (a : list obj) :
  h0 ⊆ h ->
  exists l, allocArray a h = (Normal l, <[l := a]> h) /\
    h !! l = None /\ h0 !! l = None /\ h0 ⊆ <[l := a]> h.
Proof.
  intros Hsub. exists (fresh (dom h)). split; [done|].
  assert (h !! fresh (dom h) = None) as Hn
    by (apply not_elem_of_dom, is_fresh).
  assert (h0 !! fresh (dom h) = None) as Hn0
    by (eapply lookup_weaken_None; done).
  split; [done|]. split; [done|]. by apply insert_subseteq_r.
Qed.

Lemma bindM_run {A B : Type} (m : M A) (k : A -> M B) (h h' : store) (a : A) :
  m h = (Normal a, h') -> bindM m k h = k a h'.
Proof. intros H. unfold bindM. by rewrite H. Qed.

Lemma readArray_run (r : loc) (h : store) (a : list obj) :
  h !! r = Some a -> readArray r h = (Normal a, h).
Proof. intros H. unfold readArray. by rewrite H. Qed.

(** One round of the smoothing loop: [processedData] ends bound to an
    array outside the initial store, holding what the pure step gives. *)
Lemma smoothKeyM_spec (showEMA showLOESS : bool) (h0 : store) (key : string)
    (st : smoothState) (r : loc) (h : store) :
  h0 ⊆ h -> h0 !! r = None -> h !! r = Some (processedData st) ->
  exists r' h',
    smoothKeyM showEMA showLOESS (mkRefs r (emaByKey st) (loessByKey st)) key h
    = (Normal (mkRefs r' (emaByKey (smoothKey showEMA showLOESS st key))
                         (loessByKey (smoothKey showEMA showLOESS st key))), h') /\
    h0 ⊆ h' /\ h0 !! r' = None /\
    h' !! r' = Some (processedData (smoothKey showEMA showLOESS st key)).
Proof.
  intros Hsub Hr0 Hr. unfold smoothKeyM, smoothKey.
  destruct showEMA, showLOESS; cbv iota; cbn [processedRef emaByKeyR loessByKeyR
    processedData emaByKey loessByKey].
  - destruct (allocArray_spec h0 h
      (attach (emaName key) (calculateEMA (processedData st) key 10) (processedData st))
      Hsub) as (l1 & Ha1 & _ & Hl1 & Hsub1).
    destruct (allocArray_spec h0 _
      (attach (loessName key)
         (calculateLOESS (attach (emaName key) (calculateEMA (processedData st) key 10)
                            (processedData st)) key (3 # 10))
         (attach (emaName key) (calculateEMA (processedData st) key 10) (processedData st)))
      Hsub1) as (l2 & Ha2 & _ & Hl2 & Hsub2).
    eexists _, _. split; [|split; [exact Hsub2 | split; [exact Hl2|]]].
    + erewrite (bindM_run (bindM (readArray _) _)); cycle 1.
      { erewrite bindM_run by (by apply readArray_run).
        erewrite bindM_run by exact Ha1. reflexivity. }
      cbn [processedRef emaByKeyR loessByKeyR].
      erewrite bindM_run by (apply readArray_run, lookup_insert_eq).
      erewrite bindM_run by exact Ha2. reflexivity.
    + by rewrite lookup_insert_eq.
  - destruct (allocArray_spec h0 h
      (attach (emaName key) (calculateEMA (processedData st) key 10) (processedData st))
      Hsub) as (l1 & Ha1 & _ & Hl1 & Hsub1).
    eexists _, _. split; [|split; [exact Hsub1 | split; [exact Hl1|]]].
    + erewrite (bindM_run (bindM (readArray _) _)); cycle 1.
      { erewrite bindM_run by (by apply readArray_run).
        erewrite bindM_run by exact Ha1. reflexivity. }
      reflexivity.
    + by rewrite lookup_insert_eq.
  - destruct (allocArray_spec h0 h
      (attach (loessName key) (calculateLOESS (processedData st) key (3 # 10))
         (processedData st))
      Hsub) as (l1 & Ha1 & _ & Hl1 & Hsub1).
    eexists _, _. split; [|split; [exact Hsub1 | split; [exact Hl1|]]].
    + erewrite (bindM_run (retM _)) by reflexivity.
      cbn [processedRef emaByKeyR loessByKeyR].
      erewrite bindM_run by (by apply readArray_run).
      erewrite bindM_run by exact Ha1. reflexivity.
    + by rewrite lookup_insert_eq.
  - exists r, h. split; [|by destruct st]. by destruct st.
Qed.

Lemma smoothLoop_spec (showEMA showLOESS : bool) (h0 : store) (keys : list string) :
  forall (st : smoothState) (r : loc) (h : store),
    h0 ⊆ h -> h0 !! r = None -> h !! r = Some (processedData st) ->
    exists r' h',
      forEachM (smoothKeyM showEMA showLOESS) keys
               (mkRefs r (emaByKey st) (loessByKey st)) h
      = (Normal (mkRefs r'
           (emaByKey (fold_left (smoothKey showEMA showLOESS) keys st))
           (loessByKey (fold_left (smoothKey showEMA showLOESS) keys st))), h') /\
      h0 ⊆ h' /\ h0 !! r' = None /\
      h' !! r' = Some (processedData (fold_left (smoothKey showEMA showLOESS) keys st)).
Proof.
  induction keys as [|key keys IH]; intros st r h Hsub Hr0 Hr; simpl.
  - by exists r, h.
  - destruct (smoothKeyM_spec showEMA showLOESS h0 key st r h Hsub Hr0 Hr)
      as (r1 & h1 & Hrun & Hsub1 & Hr1 & Hp1).
    unfold bindM at 1. rewrite Hrun. by apply IH.
Qed.

Lemma futurePointOf_view (showEMA showLOESS : bool) (keys : list string)
    (st : smoothState) (idx : nat) (futureDate : string) :
  futurePointOf showEMA showLOESS keys
    (mkSmooth [] (emaByKey st) (loessByKey st)) idx futureDate
  = futurePointOf showEMA showLOESS keys st idx futureDate.
Proof. by destruct st. Qed.

(** The forecast loop pushes its points, in order, onto the array
    [processedData] is bound to, and touches no other array. *)
Lemma pushLoop_spec (showEMA showLOESS : bool) (keys : list string) (h0 : store)
    (st : smoothState) (r : loc) (dates : list string) :
  forall (idx : nat) (p : list obj) (h : store),
    h0 ⊆ h -> h0 !! r = None -> h !! r = Some p ->
    exists h',
      forEachM (pushFutureM showEMA showLOESS keys
                  (mkRefs r (emaByKey st) (loessByKey st))) dates idx h
      = (Normal (idx + length dates)%nat, h') /\
      h0 ⊆ h' /\
      h' !! r = Some (p ++ imap (fun i => futurePointOf showEMA showLOESS keys st (idx + i))
                                dates).
Proof.
  induction dates as [|fd dates IH]; intros idx p h Hsub Hr0 Hr.
  - exists h. simpl. rewrite Nat.add_0_r, app_nil_r. done.
  - destruct (IH (S idx)
      (p ++ [futurePointOf showEMA showLOESS keys st idx fd])
      (<[r := p ++ [futurePointOf showEMA showLOESS keys st idx fd]]> h))
      as (h' & Hrun & Hsub' & Hr').
    { by apply insert_subseteq_r. }
    { done. }
    { by rewrite lookup_insert_eq. }
    exists h'. split; [|split; [done|]].
    + cbn [forEachM]. erewrite bindM_run; cycle 1.
      { unfold pushFutureM. cbn [processedRef emaByKeyR loessByKeyR].
        erewrite bindM_run; cycle 1.
        { unfold pushM. erewrite bindM_run by (by apply readArray_run).
          rewrite futurePointOf_view. reflexivity. }
        reflexivity. }
      rewrite Hrun. do 2 f_equal. simpl. lia.
    + rewrite Hr'. rewrite <- app_assoc. do 2 f_equal. simpl.
      rewrite Nat.add_0_r. f_equal. apply imap_ext. intros i x _. simpl.
      f_equal. lia.
Qed.

(** The run on the store computes what the pure pipeline computes, in an
    array that did not exist before, and leaves every array of the
    initial store, [rawData] among them, with its content. *)
Lemma trendDataM_refines (rawLoc : loc) (h : store) (rawData : list obj)
    (dateFrom dateTo : string) (mode : chartMode) (showEMA showLOESS : bool) :
  h !! rawLoc = Some rawData ->
  exists h', h ⊆ h' /\
    match trendData rawData dateFrom dateTo mode showEMA showLOESS with
    | Normal out => exists r,
        trendDataM rawLoc dateFrom dateTo mode showEMA showLOESS h = (Normal r, h') /\
        h !! r = None /\ h' !! r = Some out
    | Throw err =>
        trendDataM rawLoc dateFrom dateTo mode showEMA showLOESS h = (Throw err, h')
    end.
Proof.
  intros Hraw. unfold trendDataM, trendData.
  erewrite bindM_run by (by apply readArray_run).
  destruct (allocArray_spec h h rawData (reflexivity _)) as (l1 & Ha1 & _ & Hl1 & Hsub1).
  erewrite bindM_run by exact Ha1.
  erewrite bindM_run by (apply readArray_run, lookup_insert_eq).
  erewrite (bindM_run (writeArray _ _)) by reflexivity.
  erewrite bindM_run by (apply readArray_run, lookup_insert_eq).
  assert (h ⊆ <[l1 := sortByDate rawData]> (<[l1 := rawData]> h)) as Hsub2
    by (by apply insert_subseteq_r).
  set (h2 := <[l1 := sortByDate rawData]> (<[l1 := rawData]> h)) in *.
  destruct (filterC (inWindow dateFrom dateTo) (sortByDate rawData))
    as [filtered|err] eqn:Hf; cbn [bindC].
  2:{ exists h2. split; [done|]. reflexivity. }
  erewrite (bindM_run (liftC _)) by reflexivity.
  destruct (allocArray_spec h h2 filtered Hsub2) as (l2 & Ha2 & _ & Hl2 & Hsub3).
  erewrite bindM_run by exact Ha2.
  set (h3 := <[l2 := filtered]> h2) in *.
  assert (exists r0 h4,
    (match mode with
     | amount => retM l2
     | ratio => bindM (readArray l2) (fun f => allocArray (List.map percentRecord f))
     end) h3 = (Normal r0, h4) /\ h ⊆ h4 /\ h !! r0 = None /\
    h4 !! r0 = Some (match mode with
                     | amount => filtered
                     | ratio => List.map percentRecord filtered
                     end)) as (r0 & h4 & Hmode & Hsub4 & Hr0 & Hp0).
  { destruct mode.
    - exists l2, h3. split; [done|]. split; [done|]. split; [done|].
      unfold h3. by rewrite lookup_insert_eq.
    - destruct (allocArray_spec h h3 (List.map percentRecord filtered) Hsub3)
        as (l3 & Ha3 & _ & Hl3 & Hsub4).
      exists l3, (<[l3 := List.map percentRecord filtered]> h3).
      split; [|split; [done|split; [done|by rewrite lookup_insert_eq]]].
      erewrite bindM_run; [exact Ha3|].
      apply readArray_run. unfold h3. by rewrite lookup_insert_eq. }
  erewrite bindM_run by exact Hmode.
  set (keys := match mode with amount => amountKeys | ratio => ratioKeys end).
  set (p0 := match mode with
             | amount => filtered
             | ratio => List.map percentRecord filtered
             end) in *.
  destruct (smoothLoop_spec showEMA showLOESS h keys (mkSmooth p0 ∅ ∅) r0 h4
              Hsub4 Hr0 Hp0) as (r1 & h5 & Hloop & Hsub5 & Hr1 & Hp1).
  cbn [emaByKey loessByKey] in Hloop.
  erewrite bindM_run by exact Hloop. cbn [processedRef].
  erewrite bindM_run by (by apply readArray_run).
  set (st := fold_left (smoothKey showEMA showLOESS) keys (mkSmooth p0 ∅ ∅)) in *.
  destruct ((showEMA || showLOESS) && (0 <? length (processedData st))%nat).
  2:{ exists h5. split; [done|]. exists r1. done. }
  destruct (generateFutureDates
              (get (default ∅ (last (processedData st))) dateKey) 3)
    as [futureDates|err] eqn:Hg; cbn [bindC].
  2:{ exists h5. split; [done|]. reflexivity. }
  erewrite (bindM_run (liftC _)) by reflexivity.
  destruct (pushLoop_spec showEMA showLOESS keys h st r1 futureDates
              0%nat (processedData st) h5 Hsub5 Hr1 Hp1)
    as (h6 & Hpush & Hsub6 & Hp6).
  exists h6. split; [done|]. exists r1.
  erewrite bindM_run by exact Hpush. done.
Qed.

(** C9. The pipeline is a function of its inputs and keeps no state. Run
    on a store that holds [rawData], it returns the array the pure
    function [trendData] of (records, bounds, mode, toggles) describes
    and leaves every array that existed before, [rawData] among them,
    unchanged; a second run on the resulting store, with the same inputs,
    returns an array with the same content (or ends with the same
    exception), and does not touch the array the first run returned. *)
Theorem trendData_idempotent (rawLoc : loc) (h : store) (rawData : list obj)
    (dateFrom dateTo : string) (mode : chartMode) (showEMA showLOESS : bool) :
  h !! rawLoc = Some rawData ->
  exists c1 h1 c2 h2,
    trendDataM rawLoc dateFrom dateTo mode showEMA showLOESS h = (c1, h1) /\
    trendDataM rawLoc dateFrom dateTo mode showEMA showLOESS h1 = (c2, h2) /\
    h ⊆ h1 /\ h1 ⊆ h2 /\
    h1 !! rawLoc = Some rawData /\ h2 !! rawLoc = Some rawData /\
    match c1, c2 with
    | Normal r1, Normal r2 => exists out,
        trendData rawData dateFrom dateTo mode showEMA showLOESS = Normal out /\
        h1 !! r1 = Some out /\ h2 !! r2 = Some out /\ h2 !! r1 = Some out
    | Throw e1, Throw e2 =>
        e1 = e2 /\
        trendData rawData dateFrom dateTo mode showEMA showLOESS = Throw e1
    | _, _ => False
    end.
Proof.
  intros Hraw.
  destruct (trendDataM_refines rawLoc h rawData dateFrom dateTo mode showEMA showLOESS
              Hraw) as (h1 & Hsub1 & Hrun1).
  pose proof (lookup_weaken _ _ _ _ Hraw Hsub1) as Hraw1.
  destruct (trendDataM_refines rawLoc h1 rawData dateFrom dateTo mode showEMA showLOESS
              Hraw1) as (h2 & Hsub2 & Hrun2).
  pose proof (lookup_weaken _ _ _ _ Hraw1 Hsub2) as Hraw2.
  destruct (trendData rawData dateFrom dateTo mode showEMA showLOESS) as [out|err].
  - destruct Hrun1 as (r1 & Hrun1 & _ & Hout1).
    destruct Hrun2 as (r2 & Hrun2 & _ & Hout2).
    exists (Normal r1), h1, (Normal r2), h2.
    repeat (split; [done|]). exists out. repeat (split; [done|]).
    by eapply lookup_weaken.
  - exists (Throw err), h1, (Throw err), h2. repeat (split; [done|]). done.
Qed.

(** ** Forecast values at the edge *)

(** C5. With a single valid value that is 0 the projection is null at
    every position, where a flat projection at 0 is expected: the code
    writes [validValues[validValues.length - 1] || null], and 0 is falsy.
    A single valid value other than 0 is projected flat, and the flat
    projection of [predictEMA] keeps a 0. *)
Theorem predictLOESS_single_zero :
  predictLOESS [JNum 0] 3 = [JNull; JNull; JNull] /\
  predictLOESS [JNull; JNum 0; JNaN] 3 = [JNull; JNull; JNull] /\
  predictLOESS [JNum 5] 3 = [JNum 5; JNum 5; JNum 5] /\
  predictEMA (JNum 0) 3 = [JNum 0; JNum 0; JNum 0].
Proof. repeat split; reflexivity. Qed.

(** * Further properties *)

(** ** The sort *)

Lemma insertSorted_sorted (x : obj) (l : list obj) :
  is_Some (newDate (get x dateKey)) ->
  Forall (fun d => is_Some (newDate (get d dateKey))) l ->
  StronglySorted notAfter l ->
  StronglySorted notAfter (insertSorted x l).
Proof.
  intros [tx Hx] Hall Hs. induction Hs as [|y l Hs IH Hy]; simpl.
  - repeat constructor.
  - apply Forall_cons in Hall as [[ty Hty] Hall].
    destruct (Z.leb_spec (compareDates x y) 0) as [Hle|Hgt].
    + constructor; [by constructor|]. constructor.
      * exists tx, ty. unfold compareDates in Hle. rewrite Hx, Hty in Hle.
        repeat split; [done|done|lia].
      * eapply Forall_impl; [exact Hy|]. intros z (ty' & tz & Hy' & Hz & Hle').
        exists tx, tz. unfold compareDates in Hle. rewrite Hx, Hty in Hle.
        rewrite Hty in Hy'. injection Hy' as <-. repeat split; [done|done|lia].
    + constructor; [by apply IH|].
      apply (Forall_forall (notAfter y)). intros z Hz.
      rewrite (insertSorted_perm x l) in Hz. apply elem_of_cons in Hz as [->|Hz].
      * exists ty, tx. unfold compareDates in Hgt. rewrite Hx, Hty in Hgt.
        repeat split; [done|done|lia].
      * by apply (proj1 (Forall_forall (notAfter y) l) Hy).
Qed.

(** X1. The sort returns the records it was given, each as often as it
    occurs, and, when every record carries a valid date, in ascending order
    of the time value of the date. *)
Theorem sortByDate_sorted (rawData : list obj) :
  Forall (fun d => is_Some (newDate (get d dateKey))) rawData ->
  sortByDate rawData ≡ₚ rawData /\
  StronglySorted notAfter (sortByDate rawData).
Proof.
  intros Hall. split; [apply sortByDate_perm|].
  unfold sortByDate. induction Hall as [|x l Hx Hall IH]; simpl; [constructor|].
  apply insertSorted_sorted; [done| |done].
  apply Forall_forall. intros d Hd. rewrite (sortByDate_perm l) in Hd.
  by apply (proj1 (Forall_forall _ l) Hall).
Qed.

(** ** The pipeline without smoothing *)

(** X3. With both smoothing toggles off the pipeline returns exactly what
    the earlier component computes: the sorted and filtered records, in
    ratio mode with the two ratio fields in percent; no derived field is
    attached and no future point is appended. *)
Theorem trendData_without_smoothing (rawData : list obj) (dateFrom dateTo : string)
    (mode : chartMode) :
  trendData rawData dateFrom dateTo mode false false
  = trendDataBasic rawData dateFrom dateTo mode.
Proof.
  unfold trendData, trendDataBasic.
  destruct (filterC (inWindow dateFrom dateTo) (sortByDate rawData)); [|done].
  by destruct mode.
Qed.

Lemma Forall_valid_dec (l : list obj) :
  Forall (fun d => is_Some (newDate (get d dateKey))) l \/
  exists d, d ∈ l /\ newDate (get d dateKey) = None.
Proof.
  induction l as [|x l [IH|(d & Hd & Hn)]].
  - left. constructor.
  - destruct (newDate (get x dateKey)) as [t|] eqn:E.
    + left. constructor; [by rewrite E|done].
    + right. exists x. split; [by left|done].
  - right. exists d. split; [by right|done].
Qed.

(** X4. Without smoothing the pipeline returns normally exactly when every
    record carries a valid date; otherwise it ends with the RangeError of
    [toISOString]. *)
Theorem trendData_returns_iff_valid (rawData : list obj) (dateFrom dateTo : string)
    (mode : chartMode) :
  ((exists points, trendData rawData dateFrom dateTo mode false false = Normal points)
   <-> Forall (fun d => is_Some (newDate (get d dateKey))) rawData) /\
  (forall e, trendData rawData dateFrom dateTo mode false false = Throw e ->
             e = rangeError).
Proof.
  split; [split|].
  - intros [points Hp]. destruct (Forall_valid_dec rawData) as [H|(d & Hd & Hn)]; [done|].
    exfalso. unfold trendData in Hp.
    rewrite (filterC_throw (inWindow dateFrom dateTo) (sortByDate rawData) rangeError)
      in Hp; [done| |].
    + intros x e _ Hx. by apply inWindow_throws in Hx as [_ ->].
    + exists d. split; [by apply sortByDate_elem|].
      unfold inWindow. by rewrite (formatDate_invalid _ Hn).
  - intros Hall.
    destruct (filterC_normal (inWindow dateFrom dateTo) (sortByDate rawData))
      as (filtered & Hf & _).
    { intros d Hd. apply (proj1 (sortByDate_elem _ _)) in Hd.
      destruct (inWindow dateFrom dateTo d) as [b|e] eqn:Hw; [by eexists|].
      apply inWindow_throws in Hw as [Hn _].
      apply (proj1 (Forall_forall _ _) Hall) in Hd. rewrite Hn in Hd.
      by destruct Hd. }
    unfold trendData. rewrite Hf. destruct mode; by eexists.
  - intros e He. unfold trendData in He.
    destruct (filterC (inWindow dateFrom dateTo) (sortByDate rawData)) as [f|e'] eqn:Hf.
    + by destruct mode.
    + injection He as <-. clear -Hf.
      induction (sortByDate rawData) as [|a l IH]; [done|]. simpl in Hf.
      destruct (inWindow dateFrom dateTo a) as [b|e1] eqn:Ha; simpl in Hf.
      * destruct (filterC (inWindow dateFrom dateTo) l); [done|].
        injection Hf as <-. by apply IH.
      * injection Hf as <-. by apply inWindow_throws in Ha as [_ ->].
Qed.

(** ** What smoothing leaves alone *)

Lemma get_insert_ne (d : obj) (name k : string) (v : jsval) :
  k <> name -> get (<[name := v]> d) k = get d k.
Proof. intros Hne. unfold get. by rewrite lookup_insert_ne. Qed.

Lemma get_insert_eq (d : obj) (name : string) (v : jsval) :
  get (<[name := v]> d) name = v.
Proof. unfold get. by rewrite lookup_insert_eq. Qed.

Lemma Forall2_imap_same {A B : Type} (R : A -> B -> Prop) (l : list A) :
  forall f : nat -> A -> B, (forall i x, R x (f i x)) -> Forall2 R l (imap f l).
Proof.
  induction l as [|x l IH]; intros f Hf; simpl; constructor; [done|].
  apply IH. intros i y. apply Hf.
Qed.

Lemma attach_sameOn (name : string) (series : list jsval) (p : list obj) :
  Forall2 (sameOn (fun k => k <> name)) p (attach name series p).
Proof.
  unfold attach. apply Forall2_imap_same. intros i d k Hk. by apply get_insert_ne.
Qed.

Lemma sameOn_trans (K : string -> Prop) (l1 l2 l3 : list obj) :
  Forall2 (sameOn K) l1 l2 -> Forall2 (sameOn K) l2 l3 -> Forall2 (sameOn K) l1 l3.
Proof.
  intros H12. revert l3. induction H12 as [|a b l1 l2 Hab _ IH]; intros l3 H23.
  - by inversion H23.
  - inversion H23 as [|b' c l2' l3' Hbc H23']; subst. constructor; [|by apply IH].
    intros k Hk. by rewrite (Hbc k Hk), (Hab k Hk).
Qed.

Lemma sameOn_weaken (K K' : string -> Prop) (l1 l2 : list obj) :
  (forall k, K' k -> K k) -> Forall2 (sameOn K) l1 l2 -> Forall2 (sameOn K') l1 l2.
Proof.
  intros HK H. eapply Forall2_impl; [exact H|].
  intros d d' Hd k Hk. apply Hd, HK, Hk.
Qed.

Lemma sameOn_refl (K : string -> Prop) (l : list obj) : Forall2 (sameOn K) l l.
Proof. induction l; constructor; [by intros k _|done]. Qed.

(** One round of the smoothing loop changes no field but the two derived
    ones of its key. *)
Lemma smoothKey_sameOn (showEMA showLOESS : bool) (st : smoothState) (key : string) :
  Forall2 (sameOn (fun k => k <> emaName key /\ k <> loessName key))
          (processedData st) (processedData (smoothKey showEMA showLOESS st key)).
Proof.
  unfold smoothKey. destruct showEMA, showLOESS; cbn [processedData].
  - eapply sameOn_trans.
    + eapply sameOn_weaken; [|apply (attach_sameOn (emaName key))]. by intros k [? _].
    + eapply sameOn_weaken; [|apply (attach_sameOn (loessName key))]. by intros k [_ ?].
  - eapply sameOn_weaken; [|apply (attach_sameOn (emaName key))]. by intros k [? _].
  - eapply sameOn_weaken; [|apply (attach_sameOn (loessName key))]. by intros k [_ ?].
  - apply sameOn_refl.
Qed.

Lemma smoothFold_sameOn (showEMA showLOESS : bool) (keys : list string) :
  forall st : smoothState,
    Forall2 (sameOn (underived keys)) (processedData st)
            (processedData (fold_left (smoothKey showEMA showLOESS) keys st)).
Proof.
  induction keys as [|key keys IH]; intros st; simpl; [apply sameOn_refl|].
  eapply sameOn_trans.
  - eapply sameOn_weaken; [|apply (smoothKey_sameOn showEMA showLOESS st key)].
    intros k Hk. apply Hk. by left.
  - eapply sameOn_weaken; [|apply IH]. intros k Hk key' Hin. apply Hk. by right.
Qed.

(** No field of a bid record is a derived name. *)
Lemma originalKeys_underived (k : string) :
  k ∈ originalKeys -> underived (amountKeys ++ ratioKeys) k.
Proof.
  intros Hk key Hkey.
  assert (forallb (fun k => forallb (fun key =>
            negb (String.eqb k (emaName key)) && negb (String.eqb k (loessName key)))
            (amountKeys ++ ratioKeys)) originalKeys = true) as Hb by (vm_compute; reflexivity).
  rewrite forallb_forall in Hb. apply list_elem_of_In in Hk. specialize (Hb k Hk).
  rewrite forallb_forall in Hb. apply list_elem_of_In in Hkey. specialize (Hb key Hkey).
  apply andb_true_iff in Hb as [H1 H2].
  apply negb_true_iff in H1, H2. by apply String.eqb_neq in H1, H2.
Qed.

Lemma forecastKey_get (showEMA showLOESS : bool) (st : smoothState) (idx : nat)
    (point : obj) (key k : string) :
  k <> emaName key -> k <> loessName key ->
  get (forecastKey showEMA showLOESS st idx point key) k = get point k.
Proof.
  intros H1 H2. unfold forecastKey.
  destruct (emaByKey st !! key), (loessByKey st !! key), showEMA, showLOESS;
    rewrite ?get_insert_ne by done; done.
Qed.

Lemma futurePointOf_get (showEMA showLOESS : bool) (keys : list string)
    (st : smoothState) (idx : nat) (futureDate k : string) :
  underived keys k ->
  get (futurePointOf showEMA showLOESS keys st idx futureDate) k
  = get (emptyFuturePoint futureDate) k.
Proof.
  unfold futurePointOf. generalize (emptyFuturePoint futureDate).
  induction keys as [|key keys IH]; intros point Hk; simpl; [done|].
  rewrite IH.
  - apply forecastKey_get; apply (Hk key); by left.
  - intros key' Hin. apply Hk. by right.
Qed.

Lemma emptyFuturePoint_get (futureDate k : string) :
  k ∈ originalKeys ->
  get (emptyFuturePoint futureDate) k
  = if String.eqb k dateKey then JStr futureDate else JNull.
Proof.
  intros Hk. unfold originalKeys, amountKeys, ratioKeys in Hk.
  repeat (apply elem_of_cons in Hk as [->|Hk]); [reflexivity..|].
  by apply elem_of_nil in Hk.
Qed.

Lemma percentRecord_get (d : obj) (k : string) :
  get (percentRecord d) k
  = if String.eqb k "기초/낙찰" || String.eqb k "추정/낙찰"
    then toPercent (get d k) else get d k.
Proof.
  unfold percentRecord.
  destruct (String.eqb_spec k "추정/낙찰") as [->|H1].
  - by rewrite get_insert_eq.
  - rewrite get_insert_ne by done. destruct (String.eqb_spec k "기초/낙찰") as [->|H2].
    + by rewrite get_insert_eq.
    + by rewrite get_insert_ne.
Qed.

Lemma mapC_length {A B : Type} (f : A -> completion B) (l : list A) (r : list B) :
  mapC f l = Normal r -> length r = length l.
Proof.
  revert r. induction l as [|a l IH]; intros r; simpl.
  - by intros [= <-].
  - destruct (f a); simpl; [|done]. destruct (mapC f l); simpl; [|done].
    intros [= <-]. simpl. f_equal. by apply IH.
Qed.

Lemma generateFutureDates_length (lastDate : jsval) (months : nat) (dates : list string) :
  generateFutureDates lastDate months = Normal dates -> length dates = months.
Proof.
  unfold generateFutureDates. intros H%mapC_length. by rewrite length_seq in H.
Qed.

Lemma underived_modeKeys (mode : chartMode) (k : string) :
  k ∈ originalKeys ->
  underived (match mode with amount => amountKeys | ratio => ratioKeys end) k.
Proof.
  intros Hk key Hkey. apply (originalKeys_underived k Hk).
  apply elem_of_app. destruct mode; auto.
Qed.

(** The shape of a result: the filtered records with fields added, then
    the future points. *)
Lemma trendData_shape (rawData : list obj) (dateFrom dateTo : string)
    (mode : chartMode) (showEMA showLOESS : bool) (points : list obj) :
  trendData rawData dateFrom dateTo mode showEMA showLOESS = Normal points ->
  exists filtered,
    filterC (inWindow dateFrom dateTo) (sortByDate rawData) = Normal filtered /\
    length points
    = (length filtered
       + if (showEMA || showLOESS) && (0 <? length filtered)%nat then 3 else 0)%nat /\
    Forall2 (fun d p => forall k, k ∈ originalKeys ->
               get p k = get (match mode with amount => d | ratio => percentRecord d end) k)
            filtered (take (length filtered) points) /\
    Forall (fun p => (exists futureDate, get p dateKey = JStr futureDate) /\
                     forall k, k ∈ amountKeys ++ ratioKeys -> get p k = JNull)
           (drop (length filtered) points).
Proof.
  unfold trendData.
  destruct (filterC (inWindow dateFrom dateTo) (sortByDate rawData))
    as [filtered|] eqn:Hf; [|done].
  cbn [bindC]. intros Hp. exists filtered. split; [done|].
  set (keys := match mode with amount => amountKeys | ratio => ratioKeys end) in *.
  set (p0 := match mode with
             | amount => filtered
             | ratio => List.map percentRecord filtered
             end) in *.
  set (st := fold_left (smoothKey showEMA showLOESS) keys (mkSmooth p0 ∅ ∅)) in *.
  pose proof (smoothFold_sameOn showEMA showLOESS keys (mkSmooth p0 ∅ ∅)) as Hsame.
  fold st in Hsame. cbn [processedData] in Hsame.
  assert (length p0 = length filtered) as Hlen0.
  { unfold p0. destruct mode; [done|]. apply length_map. }
  pose proof (Forall2_length _ _ _ Hsame) as Hlen. rewrite Hlen0 in Hlen.
  assert (Forall2 (fun d p => forall k, k ∈ originalKeys ->
             get p k = get (match mode with amount => d | ratio => percentRecord d end) k)
            filtered (processedData st)) as Hhist.
  { apply Forall2_same_length_lookup. split; [done|]. intros i d p Hd Hpi k Hk.
    assert (p0 !! i = Some (match mode with amount => d | ratio => percentRecord d end))
      as Hp0.
    { unfold p0. destruct mode; [done|].
      change (List.map ?f ?l) with (f <$> l). by rewrite list_lookup_fmap, Hd. }
    rewrite (Forall2_lookup_lr _ _ _ _ _ _ Hsame Hp0 Hpi k); [done|].
    by apply underived_modeKeys. }
  rewrite <- Hlen in Hp.
  destruct ((showEMA || showLOESS) && (0 <? length filtered)%nat) eqn:Hc.
  - destruct (generateFutureDates _ 3) as [futureDates|] eqn:Hg; [|done].
    cbn [bindC] in Hp. injection Hp as <-.
    apply generateFutureDates_length in Hg.
    rewrite length_app, length_imap, Hg, <- Hlen.
    split; [done|].
    rewrite (take_app_length' _ _ _ Hlen), (drop_app_length' _ _ _ Hlen).
    split; [done|].
    apply Forall_forall. intros p Hin.
    apply list_elem_of_lookup in Hin as [i Hi].
    apply list_lookup_imap_Some in Hi as (fd & _ & ->). split.
    + exists fd. rewrite futurePointOf_get, emptyFuturePoint_get.
      * done.
      * by left.
      * apply underived_modeKeys. by left.
    + intros k Hk. assert (k ∈ originalKeys) as Hk' by (by right).
      rewrite futurePointOf_get, emptyFuturePoint_get by
        (done || by apply underived_modeKeys).
      unfold amountKeys, ratioKeys in Hk. simpl in Hk.
      repeat (apply elem_of_cons in Hk as [->|Hk]); [reflexivity..|].
      by apply elem_of_nil in Hk.
  - injection Hp as <-. rewrite <- Hlen, Nat.add_0_r. split; [done|].
    rewrite take_ge, drop_ge by lia. split; [done|constructor].
Qed.

(** X5. Whatever the toggles, when the pipeline returns, its result is one
    point per filtered record, in order, followed by exactly three future
    points if a toggle is on and a record passed the filter, and by nothing
    otherwise. A historical point carries the date and the five value
    fields of its record (in ratio mode of its percent copy) unchanged:
    smoothing only adds fields. A future point carries a string date and
    null in all five value fields. *)
Theorem trendData_structure (rawData : list obj) (dateFrom dateTo : string)
    (mode : chartMode) (showEMA showLOESS : bool) (points : list obj) :
  trendData rawData dateFrom dateTo mode showEMA showLOESS = Normal points ->
  exists filtered,
    filterC (inWindow dateFrom dateTo) (sortByDate rawData) = Normal filtered /\
    length points
    = (length filtered
       + if (showEMA || showLOESS) && (0 <? length filtered)%nat then 3 else 0)%nat /\
    Forall2 (fun d p => forall k, k ∈ originalKeys ->
               get p k = get (match mode with amount => d | ratio => percentRecord d end) k)
            filtered (take (length filtered) points) /\
    Forall (fun p => (exists futureDate, get p dateKey = JStr futureDate) /\
                     forall k, k ∈ amountKeys ++ ratioKeys -> get p k = JNull)
           (drop (length filtered) points).
Proof. apply trendData_shape. Qed.

(** ** Statistics of a result *)

Lemma numericValues_app (l1 l2 : list obj) (k : string) :
  numericValues (l1 ++ l2) k = numericValues l1 k ++ numericValues l2 k.
Proof.
  induction l1 as [|d l1 IH]; simpl; [done|].
  destruct (get d k); simpl; by rewrite ?IH.
Qed.

Lemma numericValues_ext (l1 l2 : list obj) (k : string) :
  Forall2 (fun a b => get b k = get a k) l1 l2 ->
  numericValues l2 k = numericValues l1 k.
Proof.
  induction 1 as [|a b l1 l2 Hab _ IH]; simpl; [done|].
  rewrite Hab. destruct (get a k); by rewrite ?IH.
Qed.

Lemma numericValues_null (l : list obj) (k : string) :
  Forall (fun p => get p k = JNull) l -> numericValues l k = [].
Proof. induction 1 as [|p l Hp _ IH]; simpl; [done|]. by rewrite Hp. Qed.

Lemma computeStats_ext (l1 l2 : list obj) (keys : list string) :
  (forall k, k ∈ keys -> numericValues l1 k = numericValues l2 k) ->
  computeStats l1 keys = computeStats l2 keys.
Proof.
  intros H. apply map_eq. intros k. rewrite !computeStats_lookup.
  destruct (decide (k ∈ keys)) as [Hk|]; [|done].
  unfold statsOf. by rewrite !statValues_numericValues, (H k Hk).
Qed.

(** X6. The statistics do not depend on the smoothing toggles: over any of
    the five value fields, the result with smoothing holds the same
    numeric values, in the same order, as the result without, so
    [computeStats] gives the same entries. The derived fields and the
    future points never enter the statistics of a value field. *)
Theorem stats_independent_of_smoothing (rawData : list obj) (dateFrom dateTo : string)
    (mode : chartMode) (showEMA showLOESS : bool) (points points0 : list obj)
    (keys : list string) :
  trendData rawData dateFrom dateTo mode showEMA showLOESS = Normal points ->
  trendData rawData dateFrom dateTo mode false false = Normal points0 ->
  keys ⊆ amountKeys ++ ratioKeys ->
  (forall k, k ∈ keys -> numericValues points k = numericValues points0 k) /\
  computeStats points keys = computeStats points0 keys.
Proof.
  intros Hp Hp0 Hkeys.
  assert (forall k, k ∈ keys -> numericValues points k = numericValues points0 k) as Hnv.
  { intros k Hk. apply Hkeys in Hk.
    assert (k ∈ originalKeys) as Hk' by (by right).
    destruct (trendData_shape _ _ _ _ _ _ _ Hp) as (filtered & Hf & _ & Hhist & Hfut).
    destruct (trendData_shape _ _ _ _ _ _ _ Hp0) as (filtered0 & Hf0 & Hlen0 & Hhist0 & _).
    rewrite Hf in Hf0. injection Hf0 as <-.
    simpl in Hlen0. rewrite Nat.add_0_r in Hlen0.
    rewrite take_ge in Hhist0 by lia.
    rewrite <- (take_drop (length filtered) points), numericValues_app.
    rewrite (numericValues_null (drop _ _)), app_nil_r.
    - apply numericValues_ext. apply Forall2_same_length_lookup. split.
      + rewrite Hlen0. apply (Forall2_length _ _ _ Hhist).
      + intros i a b Ha Hb.
        destruct (Forall2_lookup_r _ _ _ _ _ Hhist0 Ha) as (d & Hd & Had).
        pose proof (Forall2_lookup_lr _ _ _ _ _ _ Hhist Hd Hb) as Hdb.
        by rewrite (Hdb k Hk'), (Had k Hk').
    - eapply Forall_impl; [exact Hfut|]. intros p [_ Hn]. by apply Hn. }
  split; [done|]. by apply computeStats_ext.
Qed.

Lemma visibleKeys_elem (mode : chartMode) (checked : gmap string bool) (k : string) :
  k ∈ visibleKeys mode checked <->
  k ∈ (match mode with amount => amountKeys | ratio => ratioKeys end) /\
  isChecked checked k = true.
Proof.
  unfold visibleKeys. by rewrite list_elem_of_In, filter_In, <- list_elem_of_In.
Qed.

(** X8. The statistics hold an entry for a field exactly when the field
    belongs to the current mode and is checked, so the statistics card of
    every visible field finds its entry; and checking a field twice gives
    back the visible fields and the statistics there were. *)
Theorem chartStats_entries (data : list obj) (mode : chartMode)
    (checked : gmap string bool) (k : string) :
  (is_Some (chartStats data mode checked !! k) <->
   k ∈ (match mode with amount => amountKeys | ratio => ratioKeys end) /\
   isChecked checked k = true) /\
  visibleKeys mode (toggleChecked k (toggleChecked k checked)) = visibleKeys mode checked /\
  chartStats data mode (toggleChecked k (toggleChecked k checked))
  = chartStats data mode checked.
Proof.
  assert (forall k', isChecked (toggleChecked k (toggleChecked k checked)) k'
                     = isChecked checked k') as Htw.
  { intros k'. unfold toggleChecked, isChecked.
    destruct (decide (k' = k)) as [->|Hne].
    - rewrite !lookup_insert_eq. simpl. apply negb_involutive.
    - by rewrite !lookup_insert_ne. }
  assert (visibleKeys mode (toggleChecked k (toggleChecked k checked))
          = visibleKeys mode checked) as Hv.
  { unfold visibleKeys. apply filter_ext. exact Htw. }
  split; [|split; [done|]].
  - unfold chartStats. rewrite computeStats_lookup, <- visibleKeys_elem.
    destruct (decide (k ∈ visibleKeys mode checked)) as [Hin|Hn].
    + split; [done | by eexists].
    + split; [by intros [? ?] | done].
  - unfold chartStats. by rewrite Hv.
Qed.

(** ** The LOESS projection *)

Lemma predictLOESS_length (loessValues : list jsval) (months : nat) :
  length (predictLOESS loessValues months) = months.
Proof.
  unfold predictLOESS. destruct (_ <? 2)%nat.
  - apply length_replicate.
  - by rewrite length_map, length_seq.
Qed.

(** X11. A series without a valid value is projected as null at every
    position; and whatever the series, the projections of [predictLOESS]
    and [predictEMA] have exactly [months] elements. *)
Theorem predictLOESS_no_valid (loessValues : list jsval) (months : nat) :
  Forall (fun v => valid v = false) loessValues ->
  predictLOESS loessValues months = replicate months JNull /\
  (forall (series : list jsval) (lastEMA : jsval),
     length (predictLOESS series months) = months /\
     length (predictEMA lastEMA months) = months).
Proof.
  intros Hnone. split.
  - unfold predictLOESS.
    assert (List.filter valid loessValues = []) as ->.
    { induction Hnone as [|v l Hv _ IH]; simpl; [done|]. by rewrite Hv. }
    reflexivity.
  - intros series lastEMA. split; [apply predictLOESS_length|].
    apply length_replicate.
Qed.

(** X12. A series whose valid values lie on a line is projected along
    that line: if the n >= 2 valid values are a, a + b, ..., a + (n-1) b,
    the k-th projection is a + (n - 1 + k) b. Null and NaN entries between
    them do not matter. *)
Theorem predictLOESS_linear (loessValues : list jsval) (a b : Q) (n months : nat) :
  (2 <= n)%nat ->
  Forall2 (fun (j : nat) (v : jsval) =>
             exists q, v = JNum q /\ (q == a + b * inject_Z (Z.of_nat j))%Q)
          (seq 0 n) (List.filter valid loessValues) ->
  Forall2 (fun (k : nat) (o : jsval) =>
             exists q, o = JNum q /\ (q == a + b * inject_Z (Z.of_nat (n - 1 + k)))%Q)
          (seq 1 months) (predictLOESS loessValues months).
Proof.
  intros Hn Hvals. unfold predictLOESS.
  set (vs := List.filter valid loessValues) in *.
  assert (length vs = n) as Hlen
    by (by rewrite <- (Forall2_length _ _ _ Hvals), length_seq).
  assert (forall j : nat, (j < n)%nat ->
            exists q, vs !! j = Some (JNum q) /\
                      (q == a + b * inject_Z (Z.of_nat j))%Q) as Hat.
  { intros j Hj.
    destruct (Forall2_lookup_l _ _ _ j j Hvals) as (v & Hv & q & -> & Hq).
    - by apply lookup_seq_lt.
    - by exists q. }
  rewrite Hlen. destruct (Nat.ltb_spec n 2) as [?|_]; [lia|].
  set (lastN := Nat.min 5 n).
  assert (2 <= lastN <= n)%nat as HlastN by (unfold lastN; lia).
  clearbody lastN.
  destruct (Hat (n - 1)%nat ltac:(lia)) as (q1 & Hq1 & E1).
  destruct (Hat (n - lastN)%nat ltac:(lia)) as (q0 & Hq0 & E0).
  assert (lastElem vs = JNum q1) as Hlast.
  { unfold lastElem. rewrite last_lookup, Hlen.
    replace (pred n) with (n - 1)%nat by lia. by rewrite Hq1. }
  assert (lastElem (sliceLast lastN vs) = JNum q1) as Hrlast.
  { unfold lastElem, sliceLast. rewrite last_lookup, lookup_drop, length_drop, Hlen.
    replace (n - lastN + pred (n - (n - lastN)))%nat with (n - 1)%nat by lia.
    by rewrite Hq1. }
  assert (head (sliceLast lastN vs) = Some (JNum q0)) as Hhead.
  { unfold sliceLast. rewrite head_lookup, lookup_drop, Hlen.
    replace (n - lastN + 0)%nat with (n - lastN)%nat by lia. done. }
  rewrite Hlast, Hrlast, Hhead. cbn [default from_option]. unfold id.
  change (List.map ?g ?l) with (g <$> l).
  apply Forall2_fmap_r, Forall2_same_length_lookup. split; [done|].
  intros i k k' Hk Hk'. rewrite Hk in Hk'. injection Hk' as <-.
  apply lookup_seq in Hk as [-> Hi]. cbn.
  eexists. split; [reflexivity|].
  assert (~ (inject_Z (Z.of_nat lastN - 1) == 0)%Q) as Hnz.
  { change 0%Q with (inject_Z 0). rewrite inject_Z_injective. lia. }
  assert (inject_Z (Z.of_nat (n - 1))
          == inject_Z (Z.of_nat (n - lastN)) + inject_Z (Z.of_nat lastN - 1))%Q as E2.
  { rewrite <- inject_Z_plus. apply inject_Z_injective. lia. }
  assert (inject_Z (Z.of_nat (n - 1 + (1 + i)))
          == inject_Z (Z.of_nat (n - 1)) + inject_Z (Z.of_nat (1 + i)))%Q as E3.
  { rewrite <- inject_Z_plus. apply inject_Z_injective. lia. }
  rewrite E3, E1, E0, E2. change (1 + i)%nat with (S i).
  revert Hnz. generalize (inject_Z (Z.of_nat lastN - 1)) as L.
  generalize (inject_Z (Z.of_nat (n - lastN))) as x.
  generalize (inject_Z (Z.of_nat (S i))) as K.
  intros K x L Hnz. field. exact Hnz.
Qed.

(** ** Future dates at the edge *)

(** X13. On a last date that is the Invalid Date, [generateFutureDates]
    throws the RangeError of [toISOString] as soon as one date is asked
    for, and returns the empty list when none is. *)
Theorem generateFutureDates_invalid (lastDate : jsval) (months : nat) :
  newDate lastDate = None ->
  generateFutureDates lastDate (S months) = Throw rangeError /\
  generateFutureDates lastDate 0 = Normal [].
Proof.
  intros Hn. unfold generateFutureDates. rewrite Hn. split; reflexivity.
Qed.

(** [setMonth] stays within the range of time values when the local year
    is one of 0..9998 and at most twelve months are added. *)
Lemma setMonthPlus_in_range (t i : Z) :
  (forall u isUTC, - msPerDay <= LocalTZA u isUTC <= msPerDay) ->
  0 <= YearFromDay (Day (LocalTime t)) <= 9998 ->
  0 <= i <= 12 ->
  is_Some (setMonthPlus (Some t) i).
Proof.
  intros Htz Hy Hi. unfold setMonthPlus.
  set (D := Day (LocalTime t)) in *.
  pose proof (MonthFromDay_bounds D) as Hm.
  pose proof (DateFromDay_bounds D) as Hd.
  assert (0 <= TimeWithinDay (LocalTime t) < msPerDay) as Hw
    by (unfold TimeWithinDay; apply Z.mod_pos_bound; done).
  set (m := MonthFromDay D + i) in *.
  assert (-1000000 <= MakeDay (YearFromDay D) m (DateFromDay D) <= 4000000) as Hr.
  { unfold MakeDay.
    pose proof (Z.mod_pos_bound m 12 ltac:(lia)) as Hmn.
    assert (0 <= m / 12 <= 1) as Hq by (unfold m; Z.div_mod_to_equations; lia).
    pose proof (monthStart_bounds (m mod 12)
                  (leapOf (YearFromDay D + m / 12)) ltac:(lia)
                  ltac:(destruct (leapOf_cases (YearFromDay D + m / 12)); lia)) as Hms.
    assert (-720000 <= DayFromYear (YearFromDay D + m / 12) <= 3000000) as Hdy.
    { assert (0 <= YearFromDay D + m / 12 <= 9999) as Hy' by lia.
      revert Hy'. generalize (YearFromDay D + m / 12) as y'.
      intros y' Hy'. unfold DayFromYear. Z.div_mod_to_equations. lia. }
    lia. }
  unfold TimeClip, UTC.
  set (target := MakeDate (MakeDay (YearFromDay D) m (DateFromDay D))
                          (TimeWithinDay (LocalTime t))).
  destruct (Z.ltb_spec 8640000000000000 (Z.abs (target - LocalTZA target false)))
    as [Hbig|_]; [|by eexists].
  pose proof (Htz target false) as Ho. revert Ho Hbig.
  generalize (LocalTZA target false). unfold target, MakeDate. clear target.
  revert Hw. generalize (TimeWithinDay (LocalTime t)).
  intros w Hw o Ho Hbig. unfold msPerDay in *. lia.
Qed.

Lemma mapC_returns {A B : Type} (f : A -> completion B) (l : list A) :
  (forall x, x ∈ l -> exists y, f x = Normal y) -> exists r, mapC f l = Normal r.
Proof.
  induction l as [|a l IH]; intros Hf; simpl; [by eexists|].
  destruct (Hf a ltac:(by left)) as [y ->]. simpl.
  destruct IH as [r ->]; [intros x Hx; apply Hf; by right|]. simpl. by eexists.
Qed.

(** The date of a smoothed record is the date of a filtered record. *)
Lemma smoothed_dates (mode : chartMode) (showEMA showLOESS : bool)
    (filtered : list obj) (p : obj) :
  p ∈ processedData
        (fold_left (smoothKey showEMA showLOESS)
           (match mode with amount => amountKeys | ratio => ratioKeys end)
           (mkSmooth (match mode with
                      | amount => filtered
                      | ratio => List.map percentRecord filtered
                      end) ∅ ∅)) ->
  exists d, d ∈ filtered /\ get p dateKey = get d dateKey.
Proof.
  intros Hp.
  pose proof (smoothFold_sameOn showEMA showLOESS
                (match mode with amount => amountKeys | ratio => ratioKeys end)
                (mkSmooth (match mode with
                           | amount => filtered
                           | ratio => List.map percentRecord filtered
                           end) ∅ ∅)) as Hsame.
  cbn [processedData] in Hsame.
  apply list_elem_of_lookup in Hp as [i Hi].
  destruct (Forall2_lookup_r _ _ _ _ _ Hsame Hi) as (d0 & Hd0 & Hrel).
  assert (dateKey ∈ originalKeys) as Hk by (by left).
  rewrite (Hrel dateKey (underived_modeKeys mode dateKey Hk)).
  destruct mode.
  - exists d0. split; [by eapply list_elem_of_lookup_2 | done].
  - change (List.map ?f ?l) with (f <$> l) in Hd0.
    rewrite list_lookup_fmap in Hd0.
    destruct (filtered !! i) as [d|] eqn:Hd; [|done]. injection Hd0 as <-.
    exists d. split; [by eapply list_elem_of_lookup_2|].
    by rewrite percentRecord_get.
Qed.

(** X14. In a time zone whose offset stays within a day of UTC, with or
    without daylight saving, the pipeline returns normally, whatever the
    bounds, mode and toggles, when every record carries a valid date whose
    local year is one of 0..9998. *)
Theorem trendData_returns (rawData : list obj) (dateFrom dateTo : string)
    (mode : chartMode) (showEMA showLOESS : bool) :
  (forall u isUTC, - msPerDay <= LocalTZA u isUTC <= msPerDay) ->
  (forall d, d ∈ rawData ->
     exists t, newDate (get d dateKey) = Some t /\
               0 <= YearFromDay (Day (LocalTime t)) <= 9998) ->
  exists points,
    trendData rawData dateFrom dateTo mode showEMA showLOESS = Normal points.
Proof.
  intros Htz Hvalid.
  destruct (filterC_normal (inWindow dateFrom dateTo) (sortByDate rawData))
    as (filtered & Hf & _ & Hk).
  { intros d Hd. apply (proj1 (sortByDate_elem _ _)) in Hd.
    destruct (inWindow dateFrom dateTo d) as [b|e] eqn:Hw; [by eexists|].
    apply inWindow_throws in Hw as [Hn _].
    destruct (Hvalid d Hd) as (t & Ht & _). congruence. }
  unfold trendData. rewrite Hf. cbn [bindC].
  set (st := fold_left _ _ _).
  destruct ((showEMA || showLOESS) && _) eqn:Hc; [|by eexists].
  apply andb_true_iff in Hc as [_ Hc]. apply Nat.ltb_lt in Hc.
  assert (exists t, newDate (get (default ∅ (last (processedData st))) dateKey) = Some t /\
                    0 <= YearFromDay (Day (LocalTime t)) <= 9998) as (t & Ht & Hy).
  { destruct (last (processedData st)) as [p|] eqn:Hlast.
    - apply last_Some_elem_of in Hlast. cbn [default from_option]. unfold id.
      destruct (smoothed_dates mode showEMA showLOESS filtered p Hlast)
        as (d & Hd & ->).
      apply Hvalid. apply (proj1 (Hk d)) in Hd as [Hd _].
      by apply sortByDate_elem.
    - apply last_None in Hlast. rewrite Hlast in Hc. simpl in Hc. lia. }
  destruct (mapC_returns
    (fun i : nat => bindC (toISOString (setMonthPlus (Some t) (Z.of_nat i)))
                          (fun s => Normal (slice10 s))) (seq 1 3)) as [dates Hd].
  { intros i Hi. apply elem_of_seq in Hi.
    destruct (setMonthPlus_in_range t (Z.of_nat i) Htz Hy ltac:(lia)) as [u ->].
    by eexists. }
  unfold generateFutureDates. rewrite Ht, Hd. by eexists.
Qed.

(** ** The date window, by day *)

(** X15. For dates in years 0..9999 the comparison of ISO date strings is
    the comparison of days: with the bounds set to the ISO strings of the
    days [dayFrom] and [dayTo], the filter keeps a record exactly when the
    UTC day of its date lies between them, both included, whatever its
    time of day; and two dates are printed alike exactly when they fall on
    the same UTC day. *)
Theorem date_window_by_day (d : obj) (t dayFrom dayTo : Z) :
  newDate (get d dateKey) = Some t ->
  0 <= YearFromDay (Day t) <= 9999 ->
  0 <= YearFromDay dayFrom <= 9999 ->
  0 <= YearFromDay dayTo <= 9999 ->
  (inWindow (isoOfDay dayFrom) (isoOfDay dayTo) d = Normal true
   <-> dayFrom <= Day t <= dayTo) /\
  (forall (v : jsval) (t' : Z),
     newDate v = Some t' -> 0 <= YearFromDay (Day t') <= 9999 ->
     (formatDate v = formatDate (get d dateKey) <-> Day t' = Day t)).
Proof.
  intros Ht Hy Hyf Hyt. split.
  - unfold inWindow. rewrite (formatDate_day _ _ Ht Hy). cbn [bindC].
    rewrite !isoOfDay_isSet. cbn [andb]. unfold String.ltb.
    rewrite !isoOfDay_compare by done.
    destruct (Z.compare_spec (Day t) dayFrom) as [E1|E1|E1];
      destruct (Z.compare_spec dayTo (Day t)) as [E2|E2|E2];
      split; try done; lia.
  - intros v t' Hv Hy'.
    rewrite (formatDate_day _ _ Hv Hy'), (formatDate_day _ _ Ht Hy). split.
    + intros E. apply Z.compare_eq.
      rewrite <- isoOfDay_compare by done.
      assert (isoOfDay (Day t') = isoOfDay (Day t)) as ->.
      { apply (f_equal (fun c => match c with
                                 | Normal s => s
                                 | Throw _ => EmptyString
                                 end)) in E. exact E. }
      rewrite isoOfDay_compare by done. apply Z.compare_refl.
    + by intros ->.
Qed.

(** ** Percent values and wire records *)

Lemma toPercent_numeric (v : jsval) :
  (forall s, v <> JStr s) ->
  numOf (toPercent v) = (fun q => (q * 100)%Q) <$> numOf v.
Proof. intros Hs. destruct v; try done. by destruct (Hs s). Qed.

Lemma numericValues_cons (d : obj) (l : list obj) (k : string) :
  numericValues (d :: l) k
  = match numOf (get d k) with
    | Some q => q :: numericValues l k
    | None => numericValues l k
    end.
Proof. simpl. by destruct (get d k). Qed.

Lemma ratioKeys_eqb (k : string) :
  String.eqb k "기초/낙찰" || String.eqb k "추정/낙찰" = bool_decide (k ∈ ratioKeys).
Proof.
  unfold ratioKeys.
  destruct (String.eqb_spec k "기초/낙찰") as [->|H1].
  { symmetry. apply bool_decide_eq_true. by left. }
  destruct (String.eqb_spec k "추정/낙찰") as [->|H2].
  { symmetry. apply bool_decide_eq_true. right. by left. }
  symmetry. apply bool_decide_eq_false.
  intros H. repeat (apply elem_of_cons in H as [H|H]; [done|]).
  by apply elem_of_nil in H.
Qed.

(** X16. In ratio mode the numeric values of a ratio field are 100 times
    those of the records, in the same order, provided no value of that
    ratio field is a string (a numeric string would be converted and
    counted); the numeric values of every other field are unchanged,
    whatever the records hold. *)
Theorem percent_values (data : list obj) (k : string) :
  (k ∈ ratioKeys -> forall d s, d ∈ data -> get d k <> JStr s) ->
  numericValues (percentRecord <$> data) k
  = if bool_decide (k ∈ ratioKeys)
    then (fun q => (q * 100)%Q) <$> numericValues data k
    else numericValues data k.
Proof.
  intros Hs. induction data as [|d data IH].
  - by case_bool_decide.
  - assert (k ∈ ratioKeys -> forall d' s, d' ∈ data -> get d' k <> JStr s) as Hs'
      by (intros Hk d' s Hd; apply (Hs Hk); by right).
    specialize (IH Hs'). rewrite fmap_cons, !numericValues_cons, IH.
    rewrite percentRecord_get, ratioKeys_eqb.
    case_bool_decide as Hk; [|done].
    rewrite toPercent_numeric by (intros s; apply (Hs Hk d s); by left).
    by destruct (numOf (get d k)).
Qed.

Lemma orNull_numeric (v : jsval) : numOf (orNull v) = numOf v.
Proof. by destruct v. Qed.

Lemma mapBid_get (b : obj) (k w : string) :
  (k, w) ∈ wireFields -> get (mapBidToTrendItem b) k = orNull (get b w).
Proof.
  intros H. unfold wireFields in H.
  repeat (apply elem_of_cons in H as [[= -> ->]|H]); [reflexivity..|].
  by apply elem_of_nil in H.
Qed.

(** X17. [mapBidToTrendItem] gives a record with exactly the six chart
    fields; the date is the wire date as it is, a value field is the wire
    value with undefined turned into null, so it is never undefined; and
    the numeric values of a chart field over the mapped items are those of
    its wire field over the items. *)
Theorem mapBidToTrendItem_fields (items : list obj) (b : obj) (k w : string) :
  (k, w) ∈ wireFields ->
  dom (mapBidToTrendItem b) = list_to_set originalKeys /\
  get (mapBidToTrendItem b) dateKey = get b "bid_date" /\
  get (mapBidToTrendItem b) k = orNull (get b w) /\
  get (mapBidToTrendItem b) k <> JUndefined /\
  numericValues (mapBidToTrendItem <$> items) k = numericValues items w.
Proof.
  intros Hkw. split; [|split; [reflexivity|split; [by apply mapBid_get|split]]].
  - unfold mapBidToTrendItem, originalKeys, amountKeys, ratioKeys, dateKey.
    rewrite !dom_insert_L, dom_empty_L. simpl. set_solver.
  - rewrite (mapBid_get b k w Hkw). unfold orNull. by destruct (get b w).
  - induction items as [|i items IH]; [done|].
    rewrite fmap_cons, !numericValues_cons, IH, (mapBid_get i k w Hkw), orNull_numeric.
    done.
Qed.

(** ** The attached series *)

Lemma emaLoop_ext (alpha : Q) (key : string) (l1 l2 : list obj) :
  Forall2 (fun a b => get b key = get a key) l1 l2 ->
  forall ema, emaLoop alpha key ema l2 = emaLoop alpha key ema l1.
Proof.
  induction 1 as [|a b l1 l2 Hab _ IH]; intros ema; simpl; [done|].
  unfold emaStep. rewrite Hab. destruct (missing (get a key)); by rewrite IH.
Qed.

Lemma column_ext (key : string) (l1 l2 : list obj) :
  Forall2 (fun a b => get b key = get a key) l1 l2 ->
  List.map (fun d => get d key) l2 = List.map (fun d => get d key) l1.
Proof. induction 1 as [|a b l1 l2 Hab _ IH]; simpl; [done|]. by rewrite Hab, IH. Qed.

Lemma calculateLOESS_ext (key : string) (bandwidth : Q) (l1 l2 : list obj) :
  Forall2 (fun a b => get b key = get a key) l1 l2 ->
  calculateLOESS l2 key bandwidth = calculateLOESS l1 key bandwidth.
Proof. intros H. unfold calculateLOESS. by rewrite (column_ext key l1 l2 H). Qed.

Lemma sameOn_column (K : string -> Prop) (key : string) (l1 l2 : list obj) :
  K key -> Forall2 (sameOn K) l1 l2 ->
  Forall2 (fun a b => get b key = get a key) l1 l2.
Proof. intros Hk H. eapply Forall2_impl; [exact H|]. intros a b Hab. by apply Hab. Qed.

Lemma attach_lookup (name : string) (series : list jsval) (p : list obj) (i : nat)
    (d : obj) :
  attach name series p !! i = Some d ->
  get d name = default JUndefined (series !! i).
Proof.
  unfold attach. intros (d0 & _ & ->)%list_lookup_imap_Some. apply get_insert_eq.
Qed.

(** One round of the loop attaches the two series of its key, both
    computed from the column the key had before the round. *)
Lemma smoothKey_attached (showEMA showLOESS : bool) (st : smoothState) (key : string)
    (i : nat) (p : obj) :
  key <> emaName key -> emaName key <> loessName key ->
  processedData (smoothKey showEMA showLOESS st key) !! i = Some p ->
  (showEMA = true ->
   get p (emaName key) = default JUndefined (calculateEMA (processedData st) key 10 !! i)) /\
  (showLOESS = true ->
   get p (loessName key)
   = default JUndefined (calculateLOESS (processedData st) key (3 # 10) !! i)).
Proof.
  intros Hk Hne. unfold smoothKey.
  destruct showEMA, showLOESS; cbn [processedData]; intros Hp; split; try done; intros _.
  - unfold attach at 1 in Hp. apply list_lookup_imap_Some in Hp as (d0 & Hd0 & ->).
    rewrite get_insert_ne by done. by apply (attach_lookup _ _ _ _ _ Hd0).
  - rewrite (attach_lookup _ _ _ _ _ Hp). f_equal. f_equal.
    apply calculateLOESS_ext.
    eapply sameOn_column; [|apply (attach_sameOn (emaName key))]. done.
  - by apply (attach_lookup _ _ _ _ _ Hp).
  - by apply (attach_lookup _ _ _ _ _ Hp).
Qed.

Lemma smoothFold_attached (showEMA showLOESS : bool) (all : list string)
    (p0 : list obj) (keys : list string) :
  distinctNames all -> (forall key, key ∈ all -> underived all key) ->
  keys ⊆ all -> NoDup keys ->
  forall st : smoothState,
    Forall2 (sameOn (underived all)) p0 (processedData st) ->
    forall (key : string) (i : nat) (p : obj),
      key ∈ keys ->
      processedData (fold_left (smoothKey showEMA showLOESS) keys st) !! i = Some p ->
      (showEMA = true ->
       get p (emaName key) = default JUndefined (calculateEMA p0 key 10 !! i)) /\
      (showLOESS = true ->
       get p (loessName key) = default JUndefined (calculateLOESS p0 key (3 # 10) !! i)).
Proof.
  intros Hdist Hund. induction keys as [|k keys IH]; intros Hsub Hnd st Hsame key i p Hkey Hp.
  { by apply elem_of_nil in Hkey. }
  apply NoDup_cons in Hnd as [Hk Hnd].
  assert (k ∈ all) as Hkall by (apply Hsub; by left).
  assert (keys ⊆ all) as Hsub' by (intros x Hx; apply Hsub; by right).
  assert (Forall2 (sameOn (underived all)) p0
            (processedData (smoothKey showEMA showLOESS st k))) as Hsame1.
  { eapply sameOn_trans; [exact Hsame|].
    eapply sameOn_weaken; [|apply smoothKey_sameOn]. intros n Hn. by apply Hn. }
  simpl in Hp. apply elem_of_cons in Hkey as [->|Hkey]; [|by eapply IH].
  pose proof (smoothFold_sameOn showEMA showLOESS keys
                (smoothKey showEMA showLOESS st k)) as Hrest.
  destruct (Forall2_lookup_r _ _ _ _ _ Hrest Hp) as (p1 & Hp1 & Hrel).
  assert (underived keys (emaName k) /\ underived keys (loessName k)) as [He Hl].
  { split; intros key' Hin; assert (key' ∈ all) as Hin' by (by apply Hsub');
      assert (k <> key') as Hne by (intros ->; done);
      destruct (Hdist k key' Hkall Hin') as [H1 H2];
      destruct (Hdist key' k Hin' Hkall) as [H3 _];
      destruct (H2 Hne) as [H4 H5]; split; congruence. }
  rewrite (Hrel _ He), (Hrel _ Hl).
  destruct (smoothKey_attached showEMA showLOESS st k i p1) as [HE HL]; [| |done|].
  - apply (Hund k Hkall k Hkall).
  - apply (Hdist k k Hkall Hkall).
  - pose proof (sameOn_column _ k _ _ (Hund k Hkall) Hsame) as Hcol.
    split; intros Ht.
    + rewrite (HE Ht). unfold calculateEMA. by rewrite (emaLoop_ext _ _ _ _ Hcol).
    + rewrite (HL Ht). by rewrite (calculateLOESS_ext _ _ _ _ Hcol).
Qed.

Lemma modeKeys_names (mode : chartMode) :
  distinctNames (match mode with amount => amountKeys | ratio => ratioKeys end) /\
  NoDup (match mode with amount => amountKeys | ratio => ratioKeys end) /\
  (forall key, key ∈ (match mode with amount => amountKeys | ratio => ratioKeys end) ->
     underived (match mode with amount => amountKeys | ratio => ratioKeys end) key).
Proof.
  split; [|split].
  - intros key key' Hk Hk'.
    assert (forallb (fun key => forallb (fun key' =>
              negb (String.eqb (emaName key) (loessName key')) &&
              (String.eqb key key' ||
               negb (String.eqb (emaName key) (emaName key')) &&
               negb (String.eqb (loessName key) (loessName key'))))
              (amountKeys ++ ratioKeys)) (amountKeys ++ ratioKeys) = true) as Hb
      by (vm_compute; reflexivity).
    assert (key ∈ amountKeys ++ ratioKeys /\ key' ∈ amountKeys ++ ratioKeys) as [Ha Ha']
      by (rewrite !elem_of_app; destruct mode; auto).
    rewrite forallb_forall in Hb. apply list_elem_of_In in Ha. specialize (Hb key Ha).
    rewrite forallb_forall in Hb. apply list_elem_of_In in Ha'. specialize (Hb key' Ha').
    apply andb_true_iff in Hb as [H1 H2]. apply negb_true_iff, String.eqb_neq in H1.
    split; [done|]. intros Hne.
    apply orb_true_iff in H2 as [H2|H2]; [by apply String.eqb_eq in H2|].
    apply andb_true_iff in H2 as [H2 H3].
    by apply negb_true_iff, String.eqb_neq in H2, H3.
  - destruct mode; unfold amountKeys, ratioKeys;
      repeat (constructor;
              [intros H;
               repeat (apply elem_of_cons in H as [H|H]; [discriminate H|]);
               by apply elem_of_nil in H|]);
      constructor.
  - intros key Hkey. apply underived_modeKeys. right.
    apply elem_of_app. destruct mode; auto.
Qed.

(** X18. The derived fields of a historical point hold the smoothed series
    of the field itself: with EMA on, [<key>_EMA] of point i is element i
    of the EMA of the field over the filtered (in ratio mode percent)
    records, and with LOESS on, [<key>_LOESS] is element i of their LOESS.
    Neither depends on the other toggle, on the order of the two
    smoothers, or on the fields attached for other keys. *)
Theorem smoothing_fields (rawData : list obj) (dateFrom dateTo : string)
    (mode : chartMode) (showEMA showLOESS : bool) (points filtered : list obj)
    (key : string) (i : nat) (p : obj) :
  trendData rawData dateFrom dateTo mode showEMA showLOESS = Normal points ->
  filterC (inWindow dateFrom dateTo) (sortByDate rawData) = Normal filtered ->
  key ∈ (match mode with amount => amountKeys | ratio => ratioKeys end) ->
  (i < length filtered)%nat ->
  points !! i = Some p ->
  (showEMA = true ->
   get p (emaName key)
   = default JUndefined
       (calculateEMA (match mode with
                      | amount => filtered
                      | ratio => List.map percentRecord filtered
                      end) key 10 !! i)) /\
  (showLOESS = true ->
   get p (loessName key)
   = default JUndefined
       (calculateLOESS (match mode with
                        | amount => filtered
                        | ratio => List.map percentRecord filtered
                        end) key (3 # 10) !! i)).
Proof.
  intros Hp Hf Hkey Hi Hpi. unfold trendData in Hp. rewrite Hf in Hp. cbn [bindC] in Hp.
  set (keys := match mode with amount => amountKeys | ratio => ratioKeys end) in *.
  set (p0 := match mode with
             | amount => filtered
             | ratio => List.map percentRecord filtered
             end) in *.
  set (st := fold_left (smoothKey showEMA showLOESS) keys (mkSmooth p0 ∅ ∅)) in *.
  destruct (modeKeys_names mode) as (Hdist & Hnd & Hund). fold keys in Hdist, Hnd, Hund.
  assert (length (processedData st) = length filtered) as Hlen.
  { pose proof (smoothFold_sameOn showEMA showLOESS keys (mkSmooth p0 ∅ ∅)) as Hs.
    apply Forall2_length in Hs. fold st in Hs. cbn [processedData] in Hs.
    rewrite <- Hs. unfold p0. destruct mode; [done|]. apply length_map. }
  assert (processedData st !! i = Some p) as Hst.
  { destruct ((showEMA || showLOESS) && _).
    - destruct (generateFutureDates _ 3); [|done]. cbn [bindC] in Hp.
      injection Hp as <-. rewrite lookup_app_l in Hpi by lia. done.
    - by injection Hp as <-. }
  apply (smoothFold_attached showEMA showLOESS keys p0 keys Hdist Hund
           (reflexivity _) Hnd (mkSmooth p0 ∅ ∅) (sameOn_refl _ _) key i p Hkey Hst).
Qed.

(** ** The fields of a future point *)

(** What one round of the smoothing loop records under the keys. *)
Lemma smoothKey_byKey (showEMA showLOESS : bool) (st : smoothState) (key k : string) :
  k <> emaName k ->
  emaByKey (smoothKey showEMA showLOESS st k) !! key
  = (if showEMA && bool_decide (key = k)
     then Some (calculateEMA (processedData st) k 10) else emaByKey st !! key) /\
  loessByKey (smoothKey showEMA showLOESS st k) !! key
  = (if showLOESS && bool_decide (key = k)
     then Some (calculateLOESS (processedData st) k (3 # 10)) else loessByKey st !! key).
Proof.
  intros Hk.
  assert (calculateLOESS (attach (emaName k) (calculateEMA (processedData st) k 10)
                                 (processedData st)) k (3 # 10)
          = calculateLOESS (processedData st) k (3 # 10)) as Hext.
  { apply calculateLOESS_ext.
    eapply sameOn_column; [|apply (attach_sameOn (emaName k))]. done. }
  unfold smoothKey.
  destruct showEMA, showLOESS; cbn [emaByKey loessByKey processedData andb];
    try case_bool_decide; subst;
    rewrite ?lookup_insert_eq, ?lookup_insert_ne by done; rewrite ?Hext; done.
Qed.

Lemma smoothFold_byKey (showEMA showLOESS : bool) (all : list string) (p0 : list obj)
    (keys : list string) :
  (forall key, key ∈ all -> underived all key) -> keys ⊆ all ->
  forall st : smoothState,
    Forall2 (sameOn (underived all)) p0 (processedData st) ->
    forall key : string,
      emaByKey (fold_left (smoothKey showEMA showLOESS) keys st) !! key
      = (if showEMA && bool_decide (key ∈ keys)
         then Some (calculateEMA p0 key 10) else emaByKey st !! key) /\
      loessByKey (fold_left (smoothKey showEMA showLOESS) keys st) !! key
      = (if showLOESS && bool_decide (key ∈ keys)
         then Some (calculateLOESS p0 key (3 # 10)) else loessByKey st !! key).
Proof.
  intros Hund. induction keys as [|k keys IH]; intros Hsub st Hsame key.
  { simpl. rewrite !andb_false_r. done. }
  assert (k ∈ all) as Hkall by (apply Hsub; by left).
  assert (keys ⊆ all) as Hsub' by (intros x Hx; apply Hsub; by right).
  assert (Forall2 (sameOn (underived all)) p0
            (processedData (smoothKey showEMA showLOESS st k))) as Hsame1.
  { eapply sameOn_trans; [exact Hsame|].
    eapply sameOn_weaken; [|apply smoothKey_sameOn]. intros n Hn. by apply Hn. }
  simpl. destruct (IH Hsub' _ Hsame1 key) as [HE HL]. rewrite HE, HL.
  destruct (smoothKey_byKey showEMA showLOESS st key k) as [HE1 HL1].
  { apply (Hund k Hkall k Hkall). }
  rewrite HE1, HL1.
  pose proof (sameOn_column _ k _ _ (Hund k Hkall) Hsame) as Hcol.
  assert (calculateEMA (processedData st) k 10 = calculateEMA p0 k 10) as HcE.
  { unfold calculateEMA. by rewrite (emaLoop_ext _ _ _ _ Hcol). }
  rewrite HcE, (calculateLOESS_ext _ _ _ _ Hcol).
  split.
  - destruct showEMA; [|done]. cbn [andb].
    destruct (decide (key ∈ keys)) as [Hin|Hnin].
    + rewrite bool_decide_true by done. rewrite bool_decide_true by (by right). done.
    + rewrite (bool_decide_false _ Hnin). destruct (decide (key = k)) as [->|Hne].
      * rewrite bool_decide_true by done. rewrite bool_decide_true by (by left). done.
      * rewrite (bool_decide_false _ Hne). rewrite bool_decide_false; [done|].
        intros [?|?]%elem_of_cons; done.
  - destruct showLOESS; [|done]. cbn [andb].
    destruct (decide (key ∈ keys)) as [Hin|Hnin].
    + rewrite bool_decide_true by done. rewrite bool_decide_true by (by right). done.
    + rewrite (bool_decide_false _ Hnin). destruct (decide (key = k)) as [->|Hne].
      * rewrite bool_decide_true by done. rewrite bool_decide_true by (by left). done.
      * rewrite (bool_decide_false _ Hne). rewrite bool_decide_false; [done|].
        intros [?|?]%elem_of_cons; done.
Qed.

Lemma forecastFold_other (showEMA showLOESS : bool) (st : smoothState) (idx : nat)
    (keys : list string) (n : string) :
  underived keys n ->
  forall point : obj,
    get (fold_left (forecastKey showEMA showLOESS st idx) keys point) n = get point n.
Proof.
  induction keys as [|key keys IH]; intros Hn point; simpl; [done|].
  rewrite IH.
  - apply forecastKey_get; apply (Hn key); by left.
  - intros key' Hin. apply Hn. by right.
Qed.

(** What one round of the forecast loop writes under the names of its key. *)
Lemma forecastKey_own (showEMA showLOESS : bool) (st : smoothState) (idx : nat)
    (point : obj) (key : string) :
  emaName key <> loessName key ->
  get (forecastKey showEMA showLOESS st idx point key) (emaName key)
  = match emaByKey st !! key with
    | Some emaValues =>
        if showEMA then default JUndefined (predictEMA (lastElem emaValues) 3 !! idx)
        else get point (emaName key)
    | None => get point (emaName key)
    end /\
  get (forecastKey showEMA showLOESS st idx point key) (loessName key)
  = match loessByKey st !! key with
    | Some loessValues =>
        if showLOESS then default JUndefined (predictLOESS loessValues 3 !! idx)
        else get point (loessName key)
    | None => get point (loessName key)
    end.
Proof.
  intros Hne. unfold forecastKey.
  destruct (emaByKey st !! key), (loessByKey st !! key), showEMA, showLOESS;
    rewrite ?get_insert_eq, ?get_insert_ne, ?get_insert_eq by done; done.
Qed.

Lemma forecastFold_own (showEMA showLOESS : bool) (st : smoothState) (idx : nat)
    (all keys : list string) :
  distinctNames all -> keys ⊆ all -> NoDup keys ->
  forall (point : obj) (key : string),
    key ∈ keys ->
    get (fold_left (forecastKey showEMA showLOESS st idx) keys point) (emaName key)
    = match emaByKey st !! key with
      | Some emaValues =>
          if showEMA then default JUndefined (predictEMA (lastElem emaValues) 3 !! idx)
          else get point (emaName key)
      | None => get point (emaName key)
      end /\
    get (fold_left (forecastKey showEMA showLOESS st idx) keys point) (loessName key)
    = match loessByKey st !! key with
      | Some loessValues =>
          if showLOESS then default JUndefined (predictLOESS loessValues 3 !! idx)
          else get point (loessName key)
      | None => get point (loessName key)
      end.
Proof.
  intros Hdist. induction keys as [|k keys IH]; intros Hsub Hnd point key Hkey.
  { by apply elem_of_nil in Hkey. }
  apply NoDup_cons in Hnd as [Hk Hnd].
  assert (k ∈ all) as Hkall by (apply Hsub; by left).
  assert (keys ⊆ all) as Hsub' by (intros x Hx; apply Hsub; by right).
  simpl. apply elem_of_cons in Hkey as [->|Hkey].
  - assert (underived keys (emaName k) /\ underived keys (loessName k)) as [He Hl].
    { split; intros key' Hin; assert (key' ∈ all) as Hin' by (by apply Hsub');
        assert (k <> key') as Hne by (intros ->; done);
        destruct (Hdist k key' Hkall Hin') as [H1 H2];
        destruct (Hdist key' k Hin' Hkall) as [H3 _];
        destruct (H2 Hne) as [H4 H5]; split; congruence. }
    rewrite !forecastFold_other by done.
    apply forecastKey_own. apply (Hdist k k Hkall Hkall).
  - assert (key ∈ all) as Hkeyall by (by apply Hsub').
    assert (key <> k) as Hne by (intros ->; done).
    destruct (IH Hsub' Hnd (forecastKey showEMA showLOESS st idx point k) key Hkey)
      as [HE HL].
    rewrite HE, HL.
    destruct (Hdist key k Hkeyall Hkall) as [H1 H2]. destruct (H2 Hne) as [H3 H4].
    destruct (Hdist k key Hkall Hkeyall) as [H5 _].
    rewrite !(forecastKey_get showEMA showLOESS st idx point k) by congruence.
    done.
Qed.

Lemma emptyFuturePoint_derived (futureDate n : string) :
  n ∉ originalKeys -> get (emptyFuturePoint futureDate) n = JUndefined.
Proof.
  intros Hn. unfold emptyFuturePoint.
  rewrite !get_insert_ne.
  - unfold get. by rewrite lookup_empty.
  - intros ->. apply Hn. by left.
  - intros ->. apply Hn. unfold originalKeys, amountKeys. do 1 right. by left.
  - intros ->. apply Hn. unfold originalKeys, amountKeys. do 2 right. by left.
  - intros ->. apply Hn. unfold originalKeys, amountKeys. do 3 right. by left.
  - intros ->. apply Hn. unfold originalKeys, amountKeys, ratioKeys. simpl.
    do 4 right. by left.
  - intros ->. apply Hn. unfold originalKeys, amountKeys, ratioKeys. simpl.
    do 5 right. by left.
Qed.

Lemma derived_not_original (mode : chartMode) (key : string) :
  key ∈ (match mode with amount => amountKeys | ratio => ratioKeys end) ->
  (emaName key ∉ originalKeys) /\ (loessName key ∉ originalKeys).
Proof.
  intros Hkey.
  assert (key ∈ amountKeys ++ ratioKeys) as Hall
    by (apply elem_of_app; destruct mode; auto).
  split; intros Hin; destruct (originalKeys_underived _ Hin key Hall); done.
Qed.

Lemma predictEMA_lookup (lastEMA : jsval) (months idx : nat) :
  (idx < months)%nat -> predictEMA lastEMA months !! idx = Some lastEMA.
Proof. intros H. unfold predictEMA, fill. by apply lookup_replicate_2. Qed.

Lemma calculateEMA_length (data : list obj) (key : string) (span : Q) :
  length (calculateEMA data key span) = length data.
Proof. apply emaLoop_length. Qed.

(** X19. The derived fields of a future point hold the projections: with
    EMA on, [<key>_EMA] of each of the three future points is the last
    element of the EMA of the field, which is also what the last
    historical point carries, so the EMA line goes on flat; with LOESS on,
    [<key>_LOESS] of the j-th future point is element j of [predictLOESS]
    on the LOESS of the field. With a toggle off the field is absent. The
    date of the j-th future point is element j of [generateFutureDates] on
    the date of the last filtered record. *)
Theorem forecast_fields (rawData : list obj) (dateFrom dateTo : string)
    (mode : chartMode) (showEMA showLOESS : bool) (points filtered : list obj)
    (key : string) (j : nat) (p : obj) :
  trendData rawData dateFrom dateTo mode showEMA showLOESS = Normal points ->
  filterC (inWindow dateFrom dateTo) (sortByDate rawData) = Normal filtered ->
  key ∈ (match mode with amount => amountKeys | ratio => ratioKeys end) ->
  points !! (length filtered + j)%nat = Some p ->
  (exists futureDates futureDate,
     generateFutureDates (get (default ∅ (last filtered)) dateKey) 3 = Normal futureDates /\
     futureDates !! j = Some futureDate /\
     get p dateKey = JStr futureDate) /\
  get p (emaName key)
  = (if showEMA
     then lastElem (calculateEMA (match mode with
                                  | amount => filtered
                                  | ratio => List.map percentRecord filtered
                                  end) key 10)
     else JUndefined) /\
  get p (loessName key)
  = (if showLOESS
     then default JUndefined
            (predictLOESS (calculateLOESS (match mode with
                                           | amount => filtered
                                           | ratio => List.map percentRecord filtered
                                           end) key (3 # 10)) 3 !! j)
     else JUndefined) /\
  (showEMA = true ->
   forall lastPoint, points !! (length filtered - 1)%nat = Some lastPoint ->
                     get p (emaName key) = get lastPoint (emaName key)).
Proof.
  intros Hp Hf Hkey Hpj. unfold trendData in Hp. rewrite Hf in Hp. cbn [bindC] in Hp.
  set (keys := match mode with amount => amountKeys | ratio => ratioKeys end) in *.
  set (p0 := match mode with
             | amount => filtered
             | ratio => List.map percentRecord filtered
             end) in *.
  set (st := fold_left (smoothKey showEMA showLOESS) keys (mkSmooth p0 ∅ ∅)) in *.
  destruct (modeKeys_names mode) as (Hdist & Hnd & Hund). fold keys in Hdist, Hnd, Hund.
  assert (length p0 = length filtered) as Hlen0.
  { unfold p0. destruct mode; [done|]. apply length_map. }
  pose proof (smoothFold_sameOn showEMA showLOESS keys (mkSmooth p0 ∅ ∅)) as Hs.
  fold st in Hs. cbn [processedData] in Hs.
  assert (length (processedData st) = length filtered) as Hlen.
  { apply Forall2_length in Hs. by rewrite <- Hs. }
  destruct ((showEMA || showLOESS) && (0 <? length (processedData st))%nat) eqn:Hc.
  2:{ injection Hp as <-. apply lookup_lt_Some in Hpj. lia. }
  apply andb_true_iff in Hc as [_ Hpos]. apply Nat.ltb_lt in Hpos.
  destruct (generateFutureDates _ 3) as [futureDates|] eqn:Hg; [|done].
  cbn [bindC] in Hp. injection Hp as <-.
  rewrite lookup_app_r in Hpj by lia.
  replace (length filtered + j - length (processedData st))%nat with j in Hpj by lia.
  apply list_lookup_imap_Some in Hpj as (fd & Hfd & ->).
  assert (j < 3)%nat as Hj.
  { apply lookup_lt_Some in Hfd. by rewrite (generateFutureDates_length _ _ _ Hg) in Hfd. }
  assert (get (default ∅ (last (processedData st))) dateKey
          = get (default ∅ (last filtered)) dateKey) as Hlast.
  { rewrite !last_lookup, Hlen.
    destruct (lookup_lt_is_Some_2 filtered (pred (length filtered))) as [d Hd]; [lia|].
    assert (p0 !! pred (length filtered)
            = Some (match mode with amount => d | ratio => percentRecord d end)) as Hp0.
    { unfold p0. destruct mode; [done|].
      change (List.map ?f ?l) with (f <$> l). by rewrite list_lookup_fmap, Hd. }
    destruct (Forall2_lookup_l _ _ _ _ _ Hs Hp0) as (q & Hq & Hrel).
    rewrite Hq, Hd. cbn [default from_option]. unfold id.
    rewrite (Hrel dateKey); [|apply underived_modeKeys; by left].
    destruct mode; [done|]. by rewrite percentRecord_get. }
  rewrite Hlast in Hg.
  destruct (derived_not_original mode key Hkey) as [HnE HnL].
  destruct (smoothFold_byKey showEMA showLOESS keys p0 keys Hund (reflexivity _)
              (mkSmooth p0 ∅ ∅) (sameOn_refl _ _) key) as [HE HL].
  fold st in HE, HL. cbn [emaByKey loessByKey] in HE, HL.
  rewrite (bool_decide_true _ Hkey), !andb_true_r, !lookup_empty in HE, HL.
  destruct (forecastFold_own showEMA showLOESS st j keys keys Hdist (reflexivity _) Hnd
              (emptyFuturePoint fd) key Hkey) as [HfE HfL].
  assert (get (futurePointOf showEMA showLOESS keys st j fd) (emaName key)
          = if showEMA then lastElem (calculateEMA p0 key 10) else JUndefined) as HrE.
  { unfold futurePointOf. rewrite HfE, HE. destruct showEMA.
    - by rewrite (predictEMA_lookup _ 3 j Hj).
    - by apply emptyFuturePoint_derived. }
  split; [|split; [exact HrE|split]].
  - exists futureDates, fd. split; [done|]. split; [done|].
    rewrite futurePointOf_get, emptyFuturePoint_get.
    + done.
    + by left.
    + apply underived_modeKeys. by left.
  - unfold futurePointOf. rewrite HfL, HL. destruct showLOESS; [done|].
    by apply emptyFuturePoint_derived.
  - intros -> lastPoint Hlp. rewrite HrE.
    rewrite lookup_app_l in Hlp by lia.
    destruct (smoothFold_attached true showLOESS keys p0 keys Hdist Hund
                (reflexivity _) Hnd (mkSmooth p0 ∅ ∅) (sameOn_refl _ _) key
                (length filtered - 1) lastPoint Hkey Hlp) as [HaE _].
    rewrite (HaE eq_refl). unfold lastElem. rewrite last_lookup.
    rewrite calculateEMA_length, Hlen0. do 2 f_equal. lia.
Qed.

End Host.

(** * The properties on sample inputs *)

Lemma computeStats_correct_witness :
  winningKey ∈ [winningKey] /\
  ((exists st, computeStats gapSeries [winningKey] !! winningKey = Some st /\
      match numericValues gapSeries winningKey with
      | [] => st = mkStats JNull JNull JNull
      | vs => exists a mn mx,
          st = mkStats (JNum a) (JNum mn) (JNum mx) /\
          (a == arithmeticMean vs)%Q /\
          mn ∈ vs /\ (forall v, v ∈ vs -> (mn <= v)%Q) /\
          mx ∈ vs /\ (forall v, v ∈ vs -> (v <= mx)%Q)
      end) /\
   computeStats [] [winningKey] !! winningKey = Some (mkStats JNull JNull JNull)).
Proof.
  split; [constructor|].
  apply (computeStats_correct gapSeries [winningKey] winningKey). constructor.
Defined.

Lemma calculateEMA_correct_witness :
  ~ (2 + 1 == 0)%Q /\
  gapSeries !! 2%nat = Some (bid "2024-01-03" (JNum 20)) /\
  (length (calculateEMA digitsToNumber gapSeries winningKey 2) = length gapSeries /\
   (if missing digitsToNumber (get (bid "2024-01-03" (JNum 20)) winningKey)
    then calculateEMA digitsToNumber gapSeries winningKey 2 !! 2%nat = Some JNull
    else
      match lastNonNull (take 2 (calculateEMA digitsToNumber gapSeries winningKey 2)) with
      | None => calculateEMA digitsToNumber gapSeries winningKey 2 !! 2%nat
                = Some (get (bid "2024-01-03" (JNum 20)) winningKey)
      | Some e => exists v a,
          ToNumber digitsToNumber (get (bid "2024-01-03" (JNum 20)) winningKey) = Some v /\
          ToNumber digitsToNumber e = Some a /\
          calculateEMA digitsToNumber gapSeries winningKey 2 !! 2%nat
          = Some (JNum (2 / (2 + 1) * v + (1 - 2 / (2 + 1)) * a)%Q)
      end) /\
   (exists q,
      calculateEMA digitsToNumber
        [ {[winningKey := JNum 10]}; {[winningKey := JNull]}; {[winningKey := JNum 20]} ]
        winningKey 2
      = [JNum 10; JNull; JNum q] /\
      (q == 50 # 3)%Q /\ (1666 # 100 < q)%Q /\ (q < 1667 # 100)%Q)).
Proof.
  split; [intros H; discriminate H|]. split; [reflexivity|].
  apply (calculateEMA_correct digitsToNumber gapSeries winningKey 2 2
           (bid "2024-01-03" (JNum 20))).
  - intros H. discriminate H.
  - reflexivity.
Defined.

Lemma calculateLOESS_correct_witness :
  gapSeries !! 2%nat = Some (bid "2024-01-03" (JNum 20)) /\
  (length (calculateLOESS digitsToNumber gapSeries winningKey (3 # 10)) = length gapSeries /\
   (if missing digitsToNumber (get (bid "2024-01-03" (JNum 20)) winningKey)
    then calculateLOESS digitsToNumber gapSeries winningKey (3 # 10) !! 2%nat = Some JNull
    else exists q,
      calculateLOESS digitsToNumber gapSeries winningKey (3 # 10) !! 2%nat = Some (JNum q) /\
      (q == weightedAverage digitsToNumber
              (List.map (fun d => get d winningKey) gapSeries) (3 # 10) (Z.of_nat 2))%Q) /\
   (forall (values : list jsval) (i j : Z),
      j ∈ loessWindow digitsToNumber values (3 # 10) i <->
      0 <= j < Z.of_nat (length values) /\
      Z.max 0 (i - Z.max 3 (Qfloor (inject_Z (Z.of_nat (length values)) * (3 # 10))) / 2)
        <= j
        < Z.max 0 (i - Z.max 3 (Qfloor (inject_Z (Z.of_nat (length values)) * (3 # 10))) / 2)
          + Z.max 3 (Qfloor (inject_Z (Z.of_nat (length values)) * (3 # 10))) /\
      missing digitsToNumber (valueAt values j) = false) /\
   (forall (w i j : Z),
      tricube w i j = ((1 - (inject_Z (Z.abs (i - j)) / inject_Z w) ^ 3) ^ 3)%Q)).
Proof.
  split; [reflexivity|].
  apply (calculateLOESS_correct digitsToNumber gapSeries winningKey (3 # 10) 2
           (bid "2024-01-03" (JNum 20))).
  reflexivity.
Defined.

Lemma calculateLOESS_valid_not_null_witness :
  gapSeries !! 0%nat = Some (bid "2024-01-01" (JNum 10)) /\
  missing digitsToNumber (get (bid "2024-01-01" (JNum 10)) winningKey) = false /\
  (Z.of_nat 0 ∈ loessWindow digitsToNumber
                  (List.map (fun d => get d winningKey) gapSeries) (3 # 10) (Z.of_nat 0) /\
   (tricube (windowSizeOf (Z.of_nat (length gapSeries)) (3 # 10))
            (Z.of_nat 0) (Z.of_nat 0) == 1)%Q /\
   (0 < weightSumOf digitsToNumber
          (List.map (fun d => get d winningKey) gapSeries) (3 # 10) (Z.of_nat 0))%Q /\
   (exists q, calculateLOESS digitsToNumber gapSeries winningKey (3 # 10) !! 0%nat
              = Some (JNum q)) /\
   calculateLOESS digitsToNumber gapSeries winningKey (3 # 10) !! 0%nat <> Some JNull).
Proof.
  split; [reflexivity|]. split; [reflexivity|].
  apply (calculateLOESS_valid_not_null digitsToNumber gapSeries winningKey (3 # 10) 0
           (bid "2024-01-01" (JNum 10))); reflexivity.
Defined.

(** The sample dates are valid, in the year 2024. *)
Lemma gapSeries_dated (d : obj) :
  d ∈ gapSeries ->
  exists t, newDate digitsToNumber isoDateOnly (get d dateKey) = Some t /\
            0 <= YearFromDay (Day t) <= 9999.
Proof.
  intros Hd. unfold gapSeries in Hd.
  repeat (apply elem_of_cons in Hd as [->|Hd]); [..|by apply elem_of_nil in Hd];
    (eexists; split; [reflexivity | vm_compute; split; discriminate]).
Defined.

Lemma date_filter_correct_witness :
  (forall d, d ∈ gapSeries ->
     exists t, newDate digitsToNumber isoDateOnly (get d dateKey) = Some t /\
               0 <= YearFromDay (Day t) <= 9999) /\
  (exists filtered,
     filterC (inWindow digitsToNumber isoDateOnly "2024-01-02" "2024-01-03")
             (sortByDate digitsToNumber isoDateOnly gapSeries) = Normal filtered /\
     trendData digitsToNumber integerToString isoDateOnly utcZone gapSeries
               "2024-01-02" "2024-01-03" amount false false = Normal filtered /\
     filtered `sublist_of` sortByDate digitsToNumber isoDateOnly gapSeries /\
     forall d, d ∈ filtered <->
       d ∈ gapSeries /\
       exists t, newDate digitsToNumber isoDateOnly (get d dateKey) = Some t /\
         String.length (isoOfDay (Day t)) = 10%nat /\
         ("2024-01-02"%string = EmptyString
          \/ String.leb "2024-01-02" (isoOfDay (Day t)) = true) /\
         ("2024-01-03"%string = EmptyString
          \/ String.leb (isoOfDay (Day t)) "2024-01-03" = true)).
Proof.
  split; [exact gapSeries_dated|].
  apply (date_filter_correct digitsToNumber integerToString isoDateOnly utcZone gapSeries
           "2024-01-02" "2024-01-03" gapSeries_dated).
Defined.

(** C7, as stated for all records, fails on a list with a date that does
    not parse: the bid of 1 June 2024 lies within the bounds, but the
    filter ends in the RangeError and there is no filtered series for it
    to be included in. *)
Lemma date_filter_counterexample :
  formatDate digitsToNumber isoDateOnly (get (bid "2024-06-01" (JNum 10)) dateKey)
  = Normal "2024-06-01"%string /\
  String.leb "2024-01-01" "2024-06-01" = true /\
  String.leb "2024-06-01" "2024-12-31" = true /\
  filterC (inWindow digitsToNumber isoDateOnly "2024-01-01" "2024-12-31")
          (sortByDate digitsToNumber isoDateOnly [bid "2024-06-01" (JNum 10); undatedBid])
  = Throw rangeError /\
  trendData digitsToNumber integerToString isoDateOnly utcZone
            [bid "2024-06-01" (JNum 10); undatedBid]
            "2024-01-01" "2024-12-31" amount false false
  = Throw rangeError.
Proof. repeat split; reflexivity. Qed.

(** Beyond the year 9999 the first ten characters of [toISOString] are no
    date: the first instant of the year 10000 is printed with a sign and
    six digits of year, and compares below every date of four digits. *)
Example formatDate_year_10000 :
  formatDate digitsToNumber isoDateOnly (JNum 253402300800000) = Normal "+010000-01"%string /\
  String.ltb "+010000-01" "2024-01-01" = true.
Proof. split; reflexivity. Qed.

Lemma invalid_date_throws_witness :
  undatedBid ∈ [bid "2024-01-01" (JNum 10); undatedBid] /\
  newDate digitsToNumber isoDateOnly (get undatedBid dateKey) = None /\
  (trendData digitsToNumber integerToString isoDateOnly utcZone
             [bid "2024-01-01" (JNum 10); undatedBid] "" "" amount false false
   = Throw rangeError /\
   inWindow digitsToNumber isoDateOnly "" "" undatedBid = Throw rangeError /\
   (forall d', compareDates digitsToNumber isoDateOnly undatedBid d' = 0 /\
               compareDates digitsToNumber isoDateOnly d' undatedBid = 0)).
Proof.
  split; [right; left|]. split; [reflexivity|].
  apply (invalid_date_throws digitsToNumber integerToString isoDateOnly utcZone
           [bid "2024-01-01" (JNum 10); undatedBid] "" "" amount false false undatedBid).
  - right; left.
  - reflexivity.
Defined.

(** C3, as stated, fails: a record with an unparseable date is enough for
    the pipeline to throw, with or without bounds. *)
Lemma invalid_date_counterexample :
  newDate digitsToNumber isoDateOnly (get undatedBid dateKey) = None /\
  trendData digitsToNumber integerToString isoDateOnly utcZone [undatedBid]
            "" "" amount false false = Throw rangeError /\
  trendData digitsToNumber integerToString isoDateOnly utcZone [undatedBid]
            "2024-01-01" "2024-12-31" amount false false = Throw rangeError.
Proof. repeat split; reflexivity. Qed.

Lemma generateFutureDates_rolls_over_witness :
  isoDateOnly "2024-01-31" = Some (MakeDate (MakeDay 2024 (1 - 1) 31) 0) /\
  0 <= centralEurope2024 (MakeDate (MakeDay 2024 (1 - 1) 31) 0) true < msPerDay /\
  (forall i : nat, (1 <= i <= 3)%nat ->
     0 <= centralEurope2024 (monthTarget centralEurope2024 2024 1 31 (Z.of_nat i)) false
       < msPerDay) /\
  1 <= 1 <= 12 /\ 1 <= 31 <= DaysInMonth 2024 (1 - 1) /\
  0 <= 2024 /\ 2024 + (1 - 1 + Z.of_nat 3) / 12 <= 9999 /\
  (exists dates,
     generateFutureDates digitsToNumber isoDateOnly centralEurope2024 (JStr "2024-01-31") 3
     = Normal dates /\
     length dates = 3%nat /\
     forall i : nat, (1 <= i <= 3)%nat ->
       dates !! (i - 1)%nat
       = Some (if centralEurope2024 (monthTarget centralEurope2024 2024 1 31 (Z.of_nat i))
                                    false
                  <=? centralEurope2024 (MakeDate (MakeDay 2024 (1 - 1) 31) 0) true
               then rolledDate 2024 1 31 (Z.of_nat i)
               else isoOfDay (MakeDay 2024 (1 - 1 + Z.of_nat i) 31 - 1))).
Proof.
  assert (0 <= centralEurope2024 (MakeDate (MakeDay 2024 (1 - 1) 31) 0) true < msPerDay)
    as H1 by (vm_compute; split; [discriminate | reflexivity]).
  assert (forall i : nat, (1 <= i <= 3)%nat ->
            0 <= centralEurope2024
                   (monthTarget centralEurope2024 2024 1 31 (Z.of_nat i)) false
              < msPerDay) as H1'.
  { intros i Hi. assert (i = 1 \/ i = 2 \/ i = 3)%nat as [-> | [-> | ->]] by lia;
      vm_compute; split; discriminate || reflexivity. }
  assert (1 <= 31 <= DaysInMonth 2024 (1 - 1)) as H2 by (vm_compute; split; discriminate).
  assert (2024 + (1 - 1 + Z.of_nat 3) / 12 <= 9999) as H3 by (vm_compute; discriminate).
  split; [reflexivity|]. split; [exact H1|]. split; [exact H1'|]. split; [lia|].
  split; [exact H2|]. split; [lia|]. split; [exact H3|].
  apply (generateFutureDates_rolls_over digitsToNumber isoDateOnly centralEurope2024
           "2024-01-31" 2024 1 31 3 eq_refl H1 H1' ltac:(lia) H2 ltac:(lia) H3).
Defined.

(** C1, as stated, fails: advancing 31 January 2024 gives 2 March, 31
    March and 1 May, in UTC and in Korean time alike, and 2 March, 31
    March and 30 April in central European time, not the clamped
    29 February, 31 March and 30 April. *)
Lemma generateFutureDates_counterexample :
  generateFutureDates digitsToNumber isoDateOnly utcZone (JStr "2024-01-31") 3
  = Normal ["2024-03-02"; "2024-03-31"; "2024-05-01"]%string /\
  generateFutureDates digitsToNumber isoDateOnly (fixedZone 32400000) (JStr "2024-01-31") 3
  = Normal ["2024-03-02"; "2024-03-31"; "2024-05-01"]%string /\
  generateFutureDates digitsToNumber isoDateOnly centralEurope2024 (JStr "2024-01-31") 3
  = Normal ["2024-03-02"; "2024-03-31"; "2024-04-30"]%string /\
  generateFutureDates digitsToNumber isoDateOnly utcZone (JStr "2024-01-31") 3
  <> Normal ["2024-02-29"; "2024-03-31"; "2024-04-30"]%string.
Proof.
  assert (generateFutureDates digitsToNumber isoDateOnly utcZone (JStr "2024-01-31") 3
          = Normal ["2024-03-02"; "2024-03-31"; "2024-05-01"]%string) as E
    by reflexivity.
  split; [exact E|]. split; [reflexivity|]. split; [reflexivity|]. rewrite E. intros H.
  injection H as H _. discriminate H.
Qed.

(** Where the clock is moved forward between the last date and a target,
    the date falls on the day before: in central European time 15 January
    2024 gives 15 February, 15 March and 14 April. *)
Example generateFutureDates_summer_time :
  generateFutureDates digitsToNumber isoDateOnly centralEurope2024 (JStr "2024-01-15") 3
  = Normal ["2024-02-15"; "2024-03-15"; "2024-04-14"]%string.
Proof. reflexivity. Qed.

Lemma trendData_idempotent_witness :
  ({[ 0%nat := endGapSeries ]} : gmap loc (list obj)) !! 0%nat = Some endGapSeries /\
  (exists c1 h1 c2 h2,
     trendDataM digitsToNumber integerToString isoDateOnly utcZone
                0%nat "" "" amount true true {[ 0%nat := endGapSeries ]} = (c1, h1) /\
     trendDataM digitsToNumber integerToString isoDateOnly utcZone
                0%nat "" "" amount true true h1 = (c2, h2) /\
     ({[ 0%nat := endGapSeries ]} : gmap loc (list obj)) ⊆ h1 /\ h1 ⊆ h2 /\
     h1 !! 0%nat = Some endGapSeries /\ h2 !! 0%nat = Some endGapSeries /\
     match c1, c2 with
     | Normal r1, Normal r2 => exists out,
         trendData digitsToNumber integerToString isoDateOnly utcZone
                   endGapSeries "" "" amount true true = Normal out /\
         h1 !! r1 = Some out /\ h2 !! r2 = Some out /\ h2 !! r1 = Some out
     | Throw e1, Throw e2 =>
         e1 = e2 /\
         trendData digitsToNumber integerToString isoDateOnly utcZone
                   endGapSeries "" "" amount true true = Throw e1
     | _, _ => False
     end).
Proof.
  split; [reflexivity|].
  apply (trendData_idempotent digitsToNumber integerToString isoDateOnly utcZone
           0%nat {[ 0%nat := endGapSeries ]} endGapSeries "" "" amount true true).
  reflexivity.
Defined.

(** West of Greenwich the local date of a date-only string is the day
    before, and the month is advanced from there: five hours west,
    1 March 2024 gives 30 March, 30 April and 30 May. *)
Example generateFutureDates_west_of_utc :
  generateFutureDates digitsToNumber isoDateOnly (fixedZone (-18000000)) (JStr "2024-03-01") 3
  = Normal ["2024-03-30"; "2024-04-30"; "2024-05-30"]%string.
Proof. reflexivity. Qed.

(** C2. On two bids of which the last has no winning price, with EMA on,
    the pipeline appends three points dated one, two and three months
    after the last bid, with null original fields; their EMA forecast is
    null, although the last valid EMA output is 100: the forecast is read
    from the last element of the EMA series, which is null at a gap, not
    from its last valid element. *)
Theorem ema_forecast_after_gap :
  calculateEMA digitsToNumber endGapSeries winningKey 10 = [JNum 100; JNull] /\
  column dateKey
    (trendData digitsToNumber integerToString isoDateOnly utcZone
               endGapSeries "" "" amount true false)
  = Normal [JStr "2024-01-01"; JStr "2024-01-02";
            JStr "2024-02-02"; JStr "2024-03-02"; JStr "2024-04-02"] /\
  column winningKey
    (trendData digitsToNumber integerToString isoDateOnly utcZone
               endGapSeries "" "" amount true false)
  = Normal [JNum 100; JNull; JNull; JNull; JNull] /\
  column (emaName winningKey)
    (trendData digitsToNumber integerToString isoDateOnly utcZone
               endGapSeries "" "" amount true false)
  = Normal [JNum 100; JNull; JNull; JNull; JNull].
Proof. repeat split; vm_compute; reflexivity. Qed.

(** * The further properties on sample inputs *)

Lemma gapSeries_valid :
  Forall (fun d => is_Some (newDate digitsToNumber isoDateOnly (get d dateKey))) gapSeries.
Proof. repeat constructor; by eexists. Defined.

Lemma sortByDate_sorted_witness :
  Forall (fun d => is_Some (newDate digitsToNumber isoDateOnly (get d dateKey))) gapSeries /\
  (sortByDate digitsToNumber isoDateOnly gapSeries ≡ₚ gapSeries /\
   StronglySorted (notAfter digitsToNumber isoDateOnly)
                  (sortByDate digitsToNumber isoDateOnly gapSeries)).
Proof.
  split; [exact gapSeries_valid|].
  apply (sortByDate_sorted digitsToNumber isoDateOnly gapSeries gapSeries_valid).
Defined.

(** The sample pipeline results exist. *)
Lemma sample_returns (mode : chartMode) (showEMA showLOESS : bool) :
  exists points,
    trendData digitsToNumber integerToString isoDateOnly utcZone
              gapSeries "" "" mode showEMA showLOESS = Normal points.
Proof.
  assert (match trendData digitsToNumber integerToString isoDateOnly utcZone
                          gapSeries "" "" mode showEMA showLOESS with
          | Normal _ => true
          | Throw _ => false
          end = true) as H
    by (destruct mode, showEMA, showLOESS; vm_compute; reflexivity).
  destruct (trendData _ _ _ _ _ _ _ _ _ _) as [points|]; [by exists points | discriminate H].
Defined.

Lemma trendData_structure_witness :
  exists points,
    trendData digitsToNumber integerToString isoDateOnly utcZone
              gapSeries "" "" ratio true true = Normal points /\
    exists filtered,
      filterC (inWindow digitsToNumber isoDateOnly "" "")
              (sortByDate digitsToNumber isoDateOnly gapSeries) = Normal filtered /\
      length points
      = (length filtered
         + if (true || true) && (0 <? length filtered)%nat then 3 else 0)%nat /\
      Forall2 (fun d p => forall k, k ∈ originalKeys ->
                 get p k = get (percentRecord digitsToNumber d) k)
              filtered (take (length filtered) points) /\
      Forall (fun p => (exists futureDate, get p dateKey = JStr futureDate) /\
                       forall k, k ∈ amountKeys ++ ratioKeys -> get p k = JNull)
             (drop (length filtered) points).
Proof.
  destruct (sample_returns ratio true true) as [points Hp].
  exists points. split; [exact Hp|].
  apply (trendData_structure digitsToNumber integerToString isoDateOnly utcZone
           gapSeries "" "" ratio true true points Hp).
Defined.

Lemma stats_independent_of_smoothing_witness :
  exists points points0,
    trendData digitsToNumber integerToString isoDateOnly utcZone
              gapSeries "" "" amount true true = Normal points /\
    trendData digitsToNumber integerToString isoDateOnly utcZone
              gapSeries "" "" amount false false = Normal points0 /\
    [winningKey] ⊆ amountKeys ++ ratioKeys /\
    (forall k, k ∈ [winningKey] -> numericValues points k = numericValues points0 k) /\
    computeStats points [winningKey] = computeStats points0 [winningKey].
Proof.
  destruct (sample_returns amount true true) as [points Hp].
  destruct (sample_returns amount false false) as [points0 Hp0].
  assert ([winningKey] ⊆ amountKeys ++ ratioKeys) as Hsub.
  { intros k Hk. apply list_elem_of_singleton in Hk as ->.
    do 2 right. left. }
  exists points, points0. split; [exact Hp|]. split; [exact Hp0|]. split; [exact Hsub|].
  apply (stats_independent_of_smoothing digitsToNumber integerToString isoDateOnly utcZone
           gapSeries "" "" amount true true points points0 [winningKey] Hp Hp0 Hsub).
Defined.

Lemma predictLOESS_no_valid_witness :
  Forall (fun v => valid digitsToNumber v = false) [JNull; JNaN; JUndefined] /\
  predictLOESS digitsToNumber integerToString [JNull; JNaN; JUndefined] 3
  = replicate 3 JNull /\
  (forall (series : list jsval) (lastEMA : jsval),
     length (predictLOESS digitsToNumber integerToString series 3) = 3%nat /\
     length (predictEMA lastEMA 3) = 3%nat).
Proof.
  assert (Forall (fun v => valid digitsToNumber v = false) [JNull; JNaN; JUndefined]) as H
    by (repeat constructor).
  split; [exact H|].
  apply (predictLOESS_no_valid digitsToNumber integerToString [JNull; JNaN; JUndefined] 3 H).
Defined.

Lemma predictLOESS_linear_witness :
  (2 <= 3)%nat /\
  Forall2 (fun (j : nat) (v : jsval) =>
             exists q, v = JNum q /\ (q == 1 + 2 * inject_Z (Z.of_nat j))%Q)
          (seq 0 3)
          (List.filter (valid digitsToNumber) [JNum 1; JNull; JNum 3; JNaN; JNum 5]) /\
  Forall2 (fun (k : nat) (o : jsval) =>
             exists q, o = JNum q /\ (q == 1 + 2 * inject_Z (Z.of_nat (3 - 1 + k)))%Q)
          (seq 1 3)
          (predictLOESS digitsToNumber integerToString
                        [JNum 1; JNull; JNum 3; JNaN; JNum 5] 3).
Proof.
  assert (Forall2 (fun (j : nat) (v : jsval) =>
             exists q, v = JNum q /\ (q == 1 + 2 * inject_Z (Z.of_nat j))%Q)
          (seq 0 3)
          (List.filter (valid digitsToNumber) [JNum 1; JNull; JNum 3; JNaN; JNum 5])) as H.
  { simpl. repeat constructor; eexists; (split; [reflexivity|reflexivity]). }
  split; [lia|]. split; [exact H|].
  apply (predictLOESS_linear digitsToNumber integerToString
           [JNum 1; JNull; JNum 3; JNaN; JNum 5] 1 2 3 3 ltac:(lia) H).
Defined.

Lemma generateFutureDates_invalid_witness :
  newDate digitsToNumber isoDateOnly (JStr "not-a-date") = None /\
  generateFutureDates digitsToNumber isoDateOnly utcZone (JStr "not-a-date") (S 2)
  = Throw rangeError /\
  generateFutureDates digitsToNumber isoDateOnly utcZone (JStr "not-a-date") 0 = Normal [].
Proof.
  split; [reflexivity|].
  apply (generateFutureDates_invalid digitsToNumber isoDateOnly utcZone (JStr "not-a-date") 2).
  reflexivity.
Defined.

(** The sample dates are valid, in local year 2024 in central Europe. *)
Lemma gapSeries_years (d : obj) :
  d ∈ gapSeries ->
  exists t, newDate digitsToNumber isoDateOnly (get d dateKey) = Some t /\
            0 <= YearFromDay (Day (LocalTime centralEurope2024 t)) <= 9998.
Proof.
  intros Hd. unfold gapSeries in Hd.
  repeat (apply elem_of_cons in Hd as [->|Hd]); [..|by apply elem_of_nil in Hd];
    (eexists; split; [reflexivity | vm_compute; split; discriminate]).
Defined.

Lemma centralEurope2024_bounds (u : Z) (isUTC : bool) :
  - msPerDay <= centralEurope2024 u isUTC <= msPerDay.
Proof.
  unfold centralEurope2024. cbv zeta.
  destruct isUTC; destruct (_ && _); unfold msPerDay; lia.
Defined.

Lemma trendData_returns_witness :
  (forall u isUTC, - msPerDay <= centralEurope2024 u isUTC <= msPerDay) /\
  (forall d, d ∈ gapSeries ->
     exists t, newDate digitsToNumber isoDateOnly (get d dateKey) = Some t /\
               0 <= YearFromDay (Day (LocalTime centralEurope2024 t)) <= 9998) /\
  exists points,
    trendData digitsToNumber integerToString isoDateOnly centralEurope2024
              gapSeries "2024-01-02" "" ratio true true = Normal points.
Proof.
  split; [exact centralEurope2024_bounds|]. split; [exact gapSeries_years|].
  apply (trendData_returns digitsToNumber integerToString isoDateOnly centralEurope2024
           gapSeries "2024-01-02" "" ratio true true
           centralEurope2024_bounds gapSeries_years).
Defined.

Lemma date_window_by_day_witness :
  newDate digitsToNumber isoDateOnly (get (bid "2024-01-02" JNull) dateKey)
  = Some (MakeDate (MakeDay 2024 0 2) 0) /\
  0 <= YearFromDay (Day (MakeDate (MakeDay 2024 0 2) 0)) <= 9999 /\
  0 <= YearFromDay (MakeDay 2024 0 1) <= 9999 /\
  0 <= YearFromDay (MakeDay 2024 0 3) <= 9999 /\
  (inWindow digitsToNumber isoDateOnly
            (isoOfDay (MakeDay 2024 0 1)) (isoOfDay (MakeDay 2024 0 3))
            (bid "2024-01-02" JNull) = Normal true
   <-> MakeDay 2024 0 1 <= Day (MakeDate (MakeDay 2024 0 2) 0) <= MakeDay 2024 0 3) /\
  (forall (v : jsval) (t' : Z),
     newDate digitsToNumber isoDateOnly v = Some t' ->
     0 <= YearFromDay (Day t') <= 9999 ->
     (formatDate digitsToNumber isoDateOnly v
      = formatDate digitsToNumber isoDateOnly (get (bid "2024-01-02" JNull) dateKey)
      <-> Day t' = Day (MakeDate (MakeDay 2024 0 2) 0))).
Proof.
  assert (0 <= YearFromDay (Day (MakeDate (MakeDay 2024 0 2) 0)) <= 9999) as H1
    by (vm_compute; split; discriminate).
  assert (0 <= YearFromDay (MakeDay 2024 0 1) <= 9999) as H2
    by (vm_compute; split; discriminate).
  assert (0 <= YearFromDay (MakeDay 2024 0 3) <= 9999) as H3
    by (vm_compute; split; discriminate).
  split; [reflexivity|]. split; [exact H1|]. split; [exact H2|]. split; [exact H3|].
  apply (date_window_by_day digitsToNumber isoDateOnly (bid "2024-01-02" JNull)
           (MakeDate (MakeDay 2024 0 2) 0) (MakeDay 2024 0 1) (MakeDay 2024 0 3)
           eq_refl H1 H2 H3).
Defined.

(** No ratio of the sample is a string. *)
Lemma ratioSeries_no_strings (k : string) :
  k ∈ ratioKeys -> forall (d : obj) (s : string), d ∈ ratioSeries -> get d k <> JStr s.
Proof.
  intros Hk d s Hd. unfold ratioKeys in Hk. unfold ratioSeries in Hd.
  repeat (apply elem_of_cons in Hk as [->|Hk]); [..|by apply elem_of_nil in Hk];
    repeat (apply elem_of_cons in Hd as [->|Hd]); try discriminate;
    by apply elem_of_nil in Hd.
Defined.

Lemma percent_values_witness :
  ("기초/낙찰"%string ∈ ratioKeys ->
   forall d s, d ∈ ratioSeries -> get d "기초/낙찰" <> JStr s) /\
  numericValues ratioSeries "기초/낙찰" = [7 # 8; 5 # 4]%Q /\
  numericValues (percentRecord digitsToNumber <$> ratioSeries) "기초/낙찰"
  = if bool_decide ("기초/낙찰"%string ∈ ratioKeys)
    then (fun q => (q * 100)%Q) <$> numericValues ratioSeries "기초/낙찰"
    else numericValues ratioSeries "기초/낙찰".
Proof.
  split; [exact (ratioSeries_no_strings "기초/낙찰")|]. split; [reflexivity|].
  apply (percent_values digitsToNumber ratioSeries "기초/낙찰"
           (ratioSeries_no_strings "기초/낙찰")).
Defined.

Lemma mapBidToTrendItem_fields_witness :
  ("낙찰금액", "winning_price")%string ∈ wireFields /\
  (dom (mapBidToTrendItem {[ "winning_price" := JNum 5 ]}) = list_to_set originalKeys /\
   get (mapBidToTrendItem {[ "winning_price" := JNum 5 ]}) dateKey
   = get ({[ "winning_price" := JNum 5 ]} : gmap string jsval) "bid_date" /\
   get (mapBidToTrendItem {[ "winning_price" := JNum 5 ]}) "낙찰금액"
   = orNull (get ({[ "winning_price" := JNum 5 ]} : gmap string jsval) "winning_price") /\
   get (mapBidToTrendItem {[ "winning_price" := JNum 5 ]}) "낙찰금액" <> JUndefined /\
   numericValues (mapBidToTrendItem <$> [ {[ "winning_price" := JNum 5 ]}; ∅ ]) "낙찰금액"
   = numericValues [ {[ "winning_price" := JNum 5 ]}; ∅ ] "winning_price").
Proof.
  assert (("낙찰금액", "winning_price")%string ∈ wireFields) as H
    by (unfold wireFields; do 2 right; left).
  split; [exact H|].
  apply (mapBidToTrendItem_fields [ {[ "winning_price" := JNum 5 ]}; ∅ ]
           {[ "winning_price" := JNum 5 ]} "낙찰금액" "winning_price" H).
Defined.

Lemma smoothing_fields_witness :
  exists points filtered p,
    trendData digitsToNumber integerToString isoDateOnly utcZone
              gapSeries "" "" amount true true = Normal points /\
    filterC (inWindow digitsToNumber isoDateOnly "" "")
            (sortByDate digitsToNumber isoDateOnly gapSeries) = Normal filtered /\
    winningKey ∈ amountKeys /\
    (2 < length filtered)%nat /\
    points !! 2%nat = Some p /\
    (true = true ->
     get p (emaName winningKey)
     = default JUndefined (calculateEMA digitsToNumber filtered winningKey 10 !! 2%nat)) /\
    (true = true ->
     get p (loessName winningKey)
     = default JUndefined
         (calculateLOESS digitsToNumber filtered winningKey (3 # 10) !! 2%nat)).
Proof.
  destruct (sample_returns amount true true) as [points Hp].
  assert (filterC (inWindow digitsToNumber isoDateOnly "" "")
            (sortByDate digitsToNumber isoDateOnly gapSeries) = Normal gapSeries) as Hf
    by reflexivity.
  assert (winningKey ∈ amountKeys) as Hk by (do 2 right; left).
  assert (2 < length gapSeries)%nat as Hl by (simpl; lia).
  assert (exists p, points !! 2%nat = Some p) as [p Hpi].
  { apply lookup_lt_is_Some.
    destruct (trendData_shape digitsToNumber integerToString isoDateOnly utcZone
                _ _ _ _ _ _ _ Hp) as (f & Hf' & Hlen & _).
    rewrite Hf in Hf'. injection Hf' as <-. rewrite Hlen. simpl. lia. }
  exists points, gapSeries, p.
  split; [exact Hp|]. split; [exact Hf|]. split; [exact Hk|]. split; [exact Hl|].
  split; [exact Hpi|].
  apply (smoothing_fields digitsToNumber integerToString isoDateOnly utcZone
           gapSeries "" "" amount true true points gapSeries winningKey 2 p
           Hp Hf Hk Hl Hpi).
Defined.

Lemma forecast_fields_witness :
  exists points filtered p,
    trendData digitsToNumber integerToString isoDateOnly utcZone
              gapSeries "" "" amount true true = Normal points /\
    filterC (inWindow digitsToNumber isoDateOnly "" "")
            (sortByDate digitsToNumber isoDateOnly gapSeries) = Normal filtered /\
    winningKey ∈ amountKeys /\
    points !! (length filtered + 1)%nat = Some p /\
    (exists futureDates futureDate,
       generateFutureDates digitsToNumber isoDateOnly utcZone
                           (get (default ∅ (last filtered)) dateKey) 3
       = Normal futureDates /\
       futureDates !! 1%nat = Some futureDate /\
       get p dateKey = JStr futureDate) /\
    get p (emaName winningKey)
    = lastElem (calculateEMA digitsToNumber filtered winningKey 10) /\
    get p (loessName winningKey)
    = default JUndefined
        (predictLOESS digitsToNumber integerToString
           (calculateLOESS digitsToNumber filtered winningKey (3 # 10)) 3 !! 1%nat) /\
    (true = true ->
     forall lastPoint, points !! (length filtered - 1)%nat = Some lastPoint ->
                       get p (emaName winningKey) = get lastPoint (emaName winningKey)).
Proof.
  destruct (sample_returns amount true true) as [points Hp].
  assert (filterC (inWindow digitsToNumber isoDateOnly "" "")
            (sortByDate digitsToNumber isoDateOnly gapSeries) = Normal gapSeries) as Hf
    by reflexivity.
  assert (winningKey ∈ amountKeys) as Hk by (do 2 right; left).
  assert (exists p, points !! (length gapSeries + 1)%nat = Some p) as [p Hpi].
  { apply lookup_lt_is_Some.
    destruct (trendData_shape digitsToNumber integerToString isoDateOnly utcZone
                _ _ _ _ _ _ _ Hp) as (f & Hf' & Hlen & _).
    rewrite Hf in Hf'. injection Hf' as <-. rewrite Hlen. simpl. lia. }
  exists points, gapSeries, p.
  split; [exact Hp|]. split; [exact Hf|]. split; [exact Hk|]. split; [exact Hpi|].
  apply (forecast_fields digitsToNumber integerToString isoDateOnly utcZone
           gapSeries "" "" amount true true points gapSeries winningKey 1 p
           Hp Hf Hk Hpi).
Defined.
